(** * A register-plus-memory virtual machine: memory, processor, commands, loader

    Shallow embedding of the Go sources (memory, word types, processor,
    commands, program loader) and the properties of the specification
    checked against them.

    Conventions of the embedding.
    - Go's fixed-width integers are [Z] with the wrap-around written out
      ([uint8], [uint16], [uint32], [int32] below).
    - A Go function returning [(T, error)] returns a [result T]; a run-time
      panic (slice bounds, integer division by zero) is the third outcome
      [Panic], since nothing in the program recovers from it.
    - Methods on [*Processor] mutate the receiver and may return an error
      while keeping the mutation, so they are functions
      [Processor -> outcome A] carrying the processor out of every
      non-panicking exit.
    - [float32] is IEEE-754 binary32 as [spec_float] with precision 24 and
      [emax] 128.
    - The two log files are write-only sinks that the machine never reads;
      log calls are left out of the state.  Console output is kept as a list
      of events, console input as the list of texts successive scans return. *)

From Stdlib Require Import ZArith List Bool Lia String Ascii.
From Stdlib Require Import Floats.SpecFloat.
Import ListNotations.

Local Open Scope Z_scope.

(** ** Go machine integers *)

Definition uint8 (x : Z) : Z := x mod 2 ^ 8.
Definition uint16 (x : Z) : Z := x mod 2 ^ 16.
Definition uint32 (x : Z) : Z := x mod 2 ^ 32.
Definition uint64 (x : Z) : Z := x mod 2 ^ 64.

(** Two's-complement reading of the low 32 bits. *)
Definition int32 (x : Z) : Z := (x + 2 ^ 31) mod 2 ^ 32 - 2 ^ 31.

(** Two's-complement reading of the low 16 bits. *)
Definition int16 (x : Z) : Z := (x + 2 ^ 15) mod 2 ^ 16 - 2 ^ 15.

(** ** float32 *)

Definition float32 : Type := spec_float.
Definition f32_prec : Z := 24.
Definition f32_emax : Z := 128.
Definition f32_zero : float32 := S754_zero false.
Definition f32_add : float32 -> float32 -> float32 := SFadd f32_prec f32_emax.
Definition f32_sub : float32 -> float32 -> float32 := SFsub f32_prec f32_emax.
Definition f32_mul : float32 -> float32 -> float32 := SFmul f32_prec f32_emax.
Definition f32_div : float32 -> float32 -> float32 := SFdiv f32_prec f32_emax.
Definition f32_eqb : float32 -> float32 -> bool := SFeqb.
Definition f32_ltb : float32 -> float32 -> bool := SFltb.

(** ** Errors and panics *)

(** Run-time panics the code can raise. *)
Inductive panic : Type :=
| PanicSliceBounds (lo hi cap : Z)
| PanicIndex (i len : Z)
| PanicIntegerDivideByZero
| PanicInvalidMemorySize.

(** Kind of failure reported by [strconv]. *)
Inductive NumError : Type := ErrSyntax | ErrRange.

(** One constructor per error value the code builds ([fmt.Errorf] and
    [CommandError] sites); the payload is what the message is formatted
    from. *)
Inductive errorT : Type :=
| ErrInvalidRegister (index : Z)
| ErrDivisionByZero
| ErrInvalidIntegerInput (e : NumError)
| ErrInvalidFloatInput
| ErrInvalidIP (ip : Z)
| ErrReadInstruction (e : errorT)
| ErrExecuting (ip : Z) (e : errorT)
| ErrInvalidOpcode (ip opcode : Z).

Inductive result (A : Type) : Type :=
| Ok (a : A)
| Err (e : errorT)
| Panic (c : panic).
Arguments Ok {A} a.
Arguments Err {A} e.
Arguments Panic {A} c.

(** ** Words (types.go) *)

Record Data : Type := mkData {
  I : Z;        (* int32 *)
  F : float32
}.

Record CommandData : Type := mkCommandData {
  Opcode : Z;   (* uint8 *)
  BB : Z;       (* uint8 *)
  Address1 : Z; (* uint16 *)
  Address2 : Z  (* uint16 *)
}.

(** [Word] is a struct of both views, not a union: the fields do not share
    storage. *)
Record Word : Type := mkWord {
  D : Data;
  Cmd : CommandData
}.

(** Go zero values. *)
Definition zeroData : Data := mkData 0 f32_zero.
Definition zeroCommandData : CommandData := mkCommandData 0 0 0 0.
Definition zeroWord : Word := mkWord zeroData zeroCommandData.

(** [Word{D: Data{I: v}}] *)
Definition Word_ofInt (v : Z) : Word := mkWord (mkData v f32_zero) zeroCommandData.
(** [Word{D: Data{F: v}}] *)
Definition Word_ofFloat (v : float32) : Word := mkWord (mkData 0 v) zeroCommandData.
(** [Word{Cmd: c}] *)
Definition Word_ofCmd (c : CommandData) : Word := mkWord zeroData c.

(** [w.D.I = v] *)
Definition Word_setI (w : Word) (v : Z) : Word :=
  mkWord (mkData v (F (D w))) (Cmd w).
(** [w.D.F = v] *)
Definition Word_setF (w : Word) (v : float32) : Word :=
  mkWord (mkData (I (D w)) v) (Cmd w).

(** ** Memory (memory.go) *)

Record Memory : Type := mkMemory {
  data : list Z;          (* []byte *)
  size : Z;               (* int *)
  errorCount : Z;
  accessCount : Z;
  initialized : bool
}.

Definition len {A : Type} (l : list A) : Z := Z.of_nat (List.length l).

Definition NewMemory (sz : Z) : result Memory :=
  if sz <=? 0 then Panic PanicInvalidMemorySize
  else Ok (mkMemory (repeat 0 (Z.to_nat sz)) sz 0 0 true).

Definition Memory_Size (m : Memory) : Z := size m.

Definition Memory_IsValidAddress (m : Memory) (address : Z) : bool :=
  (address >=? 0) && (address <? size m).

Definition Memory_isWordAligned (m : Memory) (address : Z) : bool :=
  Z.rem address 4 =? 0.

(** [binary.LittleEndian.PutUint32] *)
Definition PutUint32 (v : Z) : list Z :=
  [uint8 v; uint8 (Z.shiftr v 8); uint8 (Z.shiftr v 16); uint8 (Z.shiftr v 24)].

(** [binary.LittleEndian.Uint32] on a four-byte array. *)
Definition Uint32 (bytes : list Z) : Z :=
  Z.lor (Z.lor (Z.lor (nth 0 bytes 0) (Z.shiftl (nth 1 bytes 0) 8))
               (Z.shiftl (nth 2 bytes 0) 16))
        (Z.shiftl (nth 3 bytes 0) 24).

(** The slice expression [s[lo:hi]] on a slice whose capacity is its
    length: it panics unless [0 <= lo <= hi <= len s]. *)
Definition slice (s : list Z) (lo hi : Z) : result (list Z) :=
  if (0 <=? lo) && (lo <=? hi) && (hi <=? len s)
  then Ok (firstn (Z.to_nat (hi - lo)) (skipn (Z.to_nat lo) s))
  else Panic (PanicSliceBounds lo hi (len s)).

(** [copy(s[lo:hi], src)]: the first [min (hi-lo) (len src)] bytes of the
    window are overwritten. *)
Definition copy_into (s : list Z) (lo hi : Z) (src : list Z) : result (list Z) :=
  match slice s lo hi with
  | Ok window =>
      let n := Nat.min (List.length window) (List.length src) in
      Ok (firstn (Z.to_nat lo) s ++ firstn n src ++ skipn (Z.to_nat lo + n) s)
  | Err e => Err e
  | Panic c => Panic c
  end.

(** The 32-bit value [WriteWord] serialises for a word. *)
Definition encodeWord (word : Word) : Z :=
  if Opcode (Cmd word) >? 0 then
    uint32 (Z.lor (Z.lor (Z.lor (uint32 (Z.shiftl (Opcode (Cmd word)) 24))
                                (uint32 (Z.shiftl (BB (Cmd word)) 22)))
                         (uint32 (Z.shiftl (Address1 (Cmd word)) 10)))
                  (Address2 (Cmd word)))
  else uint32 (I (D word)).

Definition Memory_WriteWord (m : Memory) (address : Z) (word : Word)
  : result Memory :=
  let bytes := PutUint32 (encodeWord word) in
  match copy_into (data m) address (address + 4) bytes with
  | Ok data' =>
      Ok (mkMemory data' (size m) (errorCount m) (accessCount m + 1)
                   (initialized m))
  | Err e => Err e
  | Panic c => Panic c
  end.

(** The word [ReadWord] rebuilds from a 32-bit value whose top byte is
    [b3]. *)
Definition decodeWord (rawValue b3 : Z) : Word :=
  if b3 >? 0 then
    mkWord zeroData
      (mkCommandData (uint8 (Z.shiftr rawValue 24))
                     (uint8 (Z.land (Z.shiftr rawValue 22) 3))
                     (uint16 (Z.land (Z.shiftr rawValue 10) 4095))
                     (uint16 (Z.land rawValue 1023)))
  else mkWord (mkData (int32 rawValue) f32_zero) zeroCommandData.

Definition Memory_ReadWord (m : Memory) (address : Z) : result Word :=
  match slice (data m) address (address + 4) with
  | Ok bytes => Ok (decodeWord (Uint32 bytes) (nth 3 bytes 0))
  | Err e => Err e
  | Panic c => Panic c
  end.

Definition Memory_WriteByte (m : Memory) (address : Z) (value : Z)
  : result Memory :=
  if (0 <=? address) && (address <? len (data m)) then
    Ok (mkMemory (firstn (Z.to_nat address) (data m) ++ [value]
                    ++ skipn (Z.to_nat address + 1) (data m))
                 (size m) (errorCount m) (accessCount m + 1) (initialized m))
  else Panic (PanicIndex address (len (data m))).

Definition Memory_ReadByte (m : Memory) (address : Z) : result (Z * Memory) :=
  if (0 <=? address) && (address <? len (data m)) then
    Ok (nth (Z.to_nat address) (data m) 0,
        mkMemory (data m) (size m) (errorCount m) (accessCount m + 1)
                 (initialized m))
  else Panic (PanicIndex address (len (data m))).

Definition Memory_Clear (m : Memory) : Memory :=
  mkMemory (map (fun _ => 0) (data m)) (size m) 0 0 (initialized m).

Definition Memory_Close (m : Memory) : Memory :=
  mkMemory (data m) (size m) (errorCount m) (accessCount m) false.

(** ** Opcodes *)

(** Modelled from the spec: the [OpCode] type and its constants ([STOP],
    [IADD], ...) are declared in a source file that is not part of the
    checked tree; the values are those of the instruction table of the
    specification (section 4.3). *)
Definition STOP : Z := 0x00.
Definition IADD : Z := 0x01.
Definition ISUB : Z := 0x02.
Definition IMUL : Z := 0x03.
Definition IDIV : Z := 0x04.
Definition IIN : Z := 0x11.
Definition IOUT : Z := 0x12.
Definition ADDR : Z := 0x14.
Definition SUBR : Z := 0x15.
Definition MOVR : Z := 0x16.
Definition RADD : Z := 0x21.
Definition RSUB : Z := 0x22.
Definition RMUL : Z := 0x23.
Definition RDIV : Z := 0x24.
Definition RIN : Z := 0x31.
Definition ROUT : Z := 0x32.
Definition JZ : Z := 0x41.
Definition JG : Z := 0x42.
Definition JL : Z := 0x43.
Definition LOAD : Z := 0x44.
Definition STORE : Z := 0x45.

(** ** strconv *)

Definition byteOf (c : ascii) : Z := Z.of_N (N_of_ascii c).

(** [lower(c)] of strconv: [c | ('x' - 'X')]. *)
Definition lower (c : Z) : Z := Z.lor c 32.

(** The digit loop of [strconv.ParseUint] for an explicit base in 2..36;
    [n] is the value accumulated so far. *)
Fixpoint ParseUint_loop (s : string) (base maxVal n : Z) : NumError + Z :=
  match s with
  | EmptyString => inr n
  | String ch rest =>
      let c := byteOf ch in
      let digit :=
        if (48 <=? c) && (c <=? 57) then Some (c - 48)
        else if (97 <=? lower c) && (lower c <=? 122)
             then Some (lower c - 97 + 10)
             else None in
      match digit with
      | None => inl ErrSyntax
      | Some d =>
          if d >=? base then inl ErrSyntax
          else if n >=? (2 ^ 64 - 1) / base + 1 then inl ErrRange
          else
            let n1 := n * base + d in
            if (n1 >=? 2 ^ 64) || (n1 >? maxVal) then inl ErrRange
            else ParseUint_loop rest base maxVal n1
      end
  end.

(** [strconv.ParseUint(s, base, bitSize)] for [2 <= base <= 36] and
    [1 <= bitSize <= 64]. *)
Definition ParseUint (s : string) (base bitSize : Z) : NumError + Z :=
  match s with
  | EmptyString => inl ErrSyntax
  | _ => ParseUint_loop s base (2 ^ bitSize - 1) 0
  end.

(** [strconv.ParseInt(s, base, bitSize)], same ranges. *)
Definition ParseInt (s : string) (base bitSize : Z) : NumError + Z :=
  match s with
  | EmptyString => inl ErrSyntax
  | String ch rest =>
      let neg := Ascii.eqb ch "-" in
      let s' := if Ascii.eqb ch "+" || neg then rest else s in
      match ParseUint s' base bitSize with
      | inl ErrSyntax => inl ErrSyntax
      | inl ErrRange => inl ErrRange
      | inr un =>
          let cutoff := 2 ^ (bitSize - 1) in
          if negb neg && (un >=? cutoff) then inl ErrRange
          else if neg && (un >? cutoff) then inl ErrRange
          else inr (if neg then - un else un)
      end
  end.

(** ** Processor (processor.go) *)

Definition NUM_REGISTERS : Z := 2.

Record PSW : Type := mkPSW {
  IP : Z;                (* uint16 *)
  SignFlag : bool;
  CarryFlag : bool;
  OverflowFlag : bool;
  ZeroFlag : bool
}.

(** What the program writes on standard output. *)
Inductive output : Type :=
| OutText (s : string)
| OutInt (v : Z)
| OutFloat (v : float32).

(** The processor.  [memory] stands for the [Memory] behind the pointer,
    which the processor owns alone.  The command map is fixed after
    construction and is the function [commandMap] below.  [stdin] and
    [stdout] are the console of the process: [stdin] lists the texts that
    successive [Scan]/[Text] pairs return, [stdout] what has been printed,
    latest first. *)
Record Processor : Type := mkProcessor {
  memory : Memory;
  psw : PSW;
  registers : list Z;    (* [NUM_REGISTERS]int32 *)
  error : bool;
  stop : bool;
  stdin : list string;
  stdout : list output
}.

Definition set_memory (p : Processor) (m : Memory) : Processor :=
  mkProcessor m (psw p) (registers p) (error p) (stop p) (stdin p) (stdout p).
Definition set_psw (p : Processor) (s : PSW) : Processor :=
  mkProcessor (memory p) s (registers p) (error p) (stop p) (stdin p) (stdout p).
Definition set_registers (p : Processor) (r : list Z) : Processor :=
  mkProcessor (memory p) (psw p) r (error p) (stop p) (stdin p) (stdout p).
Definition set_error (p : Processor) (b : bool) : Processor :=
  mkProcessor (memory p) (psw p) (registers p) b (stop p) (stdin p) (stdout p).
Definition set_stop (p : Processor) (b : bool) : Processor :=
  mkProcessor (memory p) (psw p) (registers p) (error p) b (stdin p) (stdout p).
Definition set_stdin (p : Processor) (i : list string) : Processor :=
  mkProcessor (memory p) (psw p) (registers p) (error p) (stop p) i (stdout p).
Definition print (p : Processor) (o : output) : Processor :=
  mkProcessor (memory p) (psw p) (registers p) (error p) (stop p) (stdin p)
              (o :: stdout p).

Definition set_IP (p : Processor) (ip : Z) : Processor :=
  set_psw p (mkPSW ip (SignFlag (psw p)) (CarryFlag (psw p))
                   (OverflowFlag (psw p)) (ZeroFlag (psw p))).

(** Outcome of a method on [*Processor]: normal return, returned error (the
    receiver keeps what was mutated before), or panic. *)
Inductive outcome (A : Type) : Type :=
| Ret (a : A) (p : Processor)
| Fail (e : errorT) (p : Processor)
| Crash (c : panic).
Arguments Ret {A} a p.
Arguments Fail {A} e p.
Arguments Crash {A} c.

Definition M (A : Type) : Type := Processor -> outcome A.

Definition ret {A : Type} (a : A) : M A := fun p => Ret a p.

Definition bind {A B : Type} (c : M A) (k : A -> M B) : M B :=
  fun p =>
    match c p with
    | Ret a p' => k a p'
    | Fail e p' => Fail e p'
    | Crash c => Crash c
    end.

Declare Scope vm_scope.
Delimit Scope vm_scope with vm.
Notation "x <- c ;; k" := (bind c (fun x => k))
  (at level 61, c at next level, right associativity) : vm_scope.
Notation "c ;; k" := (bind c (fun _ => k))
  (at level 61, right associativity) : vm_scope.
Local Open Scope vm_scope.

(** [return err] *)
Definition fail {A : Type} (e : errorT) : M A := fun p => Fail e p.

(** An in-place update of the receiver. *)
Definition modify (f : Processor -> Processor) : M unit :=
  fun p => Ret tt (f p).

(** [p.memory.ReadWord(address)] *)
Definition readWord (address : Z) : M Word :=
  fun p =>
    match Memory_ReadWord (memory p) address with
    | Ok w => Ret w p
    | Err e => Fail e p
    | Panic c => Crash c
    end.

(** [p.memory.WriteWord(address, word)] *)
Definition writeWord (address : Z) (word : Word) : M unit :=
  fun p =>
    match Memory_WriteWord (memory p) address word with
    | Ok m' => Ret tt (set_memory p m')
    | Err e => Fail e p
    | Panic c => Crash c
    end.

Definition Processor_GetRegister (index : Z) : M Z :=
  fun p =>
    if index >=? NUM_REGISTERS then Fail (ErrInvalidRegister index) p
    else Ret (nth (Z.to_nat index) (registers p) 0) p.

(** [a[i] = v] on an array. *)
Fixpoint store {A : Type} (l : list A) (i : nat) (v : A) : list A :=
  match l, i with
  | [], _ => []
  | _ :: t, O => v :: t
  | h :: t, S j => h :: store t j v
  end.

Definition Processor_SetRegister (index : Z) (value : Z) : M unit :=
  fun p =>
    if index >=? NUM_REGISTERS then Fail (ErrInvalidRegister index) p
    else Ret tt (set_registers p (store (registers p) (Z.to_nat index) value)).

Definition Processor_SetSignFlag (negative : bool) (p : Processor) : Processor :=
  set_psw p (mkPSW (IP (psw p)) negative (CarryFlag (psw p))
                   (OverflowFlag (psw p)) (ZeroFlag (psw p))).

Definition Processor_SetCarryFlag (carry : bool) (p : Processor) : Processor :=
  set_psw p (mkPSW (IP (psw p)) (SignFlag (psw p)) carry
                   (OverflowFlag (psw p)) (ZeroFlag (psw p))).

Definition Processor_SetOverflowFlag (overflow : bool) (p : Processor) : Processor :=
  set_psw p (mkPSW (IP (psw p)) (SignFlag (psw p)) (CarryFlag (psw p))
                   overflow (ZeroFlag (psw p))).

Definition Processor_SetZeroFlag (zero : bool) (p : Processor) : Processor :=
  set_psw p (mkPSW (IP (psw p)) (SignFlag (psw p)) (CarryFlag (psw p))
                   (OverflowFlag (psw p)) zero).

Definition Processor_UpdateArithmeticFlags
  (result : Z) (hasCarry hasOverflow : bool) (p : Processor) : Processor :=
  Processor_SetOverflowFlag hasOverflow
    (Processor_SetCarryFlag hasCarry
       (Processor_SetZeroFlag (result =? 0)
          (Processor_SetSignFlag (result <? 0) p))).

Definition Processor_UpdateFloatFlags (result : float32) (p : Processor)
  : Processor :=
  Processor_SetOverflowFlag false
    (Processor_SetCarryFlag false
       (Processor_SetZeroFlag (f32_eqb result f32_zero)
          (Processor_SetSignFlag (f32_ltb result f32_zero) p))).

(** [flags |= mask] when [b] holds. *)
Definition orIf (b : bool) (mask flags : Z) : Z :=
  if b then Z.lor flags mask else flags.

(** The result type is [uint16]. *)
Definition Processor_GetFlags (p : Processor) : Z :=
  orIf (CarryFlag (psw p)) 0x0001
    (orIf (ZeroFlag (psw p)) 0x0400
       (orIf (OverflowFlag (psw p)) 0x0800
          (orIf (SignFlag (psw p)) 0x8000 0))).

Definition Processor_SetFlags (flags : Z) (p : Processor) : Processor :=
  set_psw p (mkPSW (IP (psw p))
                   (negb (Z.land flags 0x8000 =? 0))
                   (negb (Z.land flags 0x0001 =? 0))
                   (negb (Z.land flags 0x0800 =? 0))
                   (negb (Z.land flags 0x0400 =? 0))).

Definition Processor_Reset (initialIP : Z) (p : Processor) : Processor :=
  if negb (Memory_IsValidAddress (memory p) initialIP) then
    set_error p true
  else
    mkProcessor (memory p) (mkPSW initialIP false false false false)
                (store (store (registers p) 0 0) 1 0)
                false false (stdin p) (stdout p).

Definition Processor_Close (p : Processor) : Processor :=
  set_memory p (Memory_Close (memory p)).

(** [NewProcessor()], started on a console whose input is [input]: a zeroed
    memory of 65536 bytes and zero values everywhere else. *)
Definition NewProcessor (input : list string) : result Processor :=
  match NewMemory 65536 with
  | Ok m =>
      Ok (mkProcessor m (mkPSW 0 false false false false) [0; 0] false false
                      input [])
  | Err e => Err e
  | Panic c => Panic c
  end.

(** ** Commands (commands.go) *)

Definition calculateAddress (bb address regIndex : Z) : M Z :=
  if negb (Z.land bb 2 =? 0) then
    regValue <- Processor_GetRegister regIndex ;;
    if negb (Z.land bb 1 =? 0)
    then ret (uint16 (int32 (address + regValue)))
    else ret (uint16 regValue)
  else if negb (Z.land bb 1 =? 0) then
    regValue <- Processor_GetRegister 0 ;;
    ret (uint16 (int32 (address + regValue)))
  else ret address.

(** The command structs; each embeds a [CommandData]. *)
Inductive Command : Type :=
| JumpZero (c : CommandData)
| JumpGreater (c : CommandData)
| JumpLess (c : CommandData)
| Halt (c : CommandData)
| AddInt (c : CommandData)
| SubInt (c : CommandData)
| MulInt (c : CommandData)
| DivInt (c : CommandData)
| AddFloat (c : CommandData)
| SubFloat (c : CommandData)
| MulFloat (c : CommandData)
| DivFloat (c : CommandData)
| InputInt (c : CommandData)
| OutputInt (c : CommandData)
| InputFloat (c : CommandData)
| OutputFloat (c : CommandData)
| LoadRegister (c : CommandData)
| StoreRegister (c : CommandData)
| AddRegisters (c : CommandData)
| SubtractRegisters (c : CommandData)
| MoveRegister (c : CommandData).

Definition CommandConstructor : Type := Z -> Z -> Z -> Command.

Definition NewJumpZero : CommandConstructor :=
  fun bb addr1 addr2 => JumpZero (mkCommandData (uint8 JZ) bb addr1 addr2).
Definition NewJumpGreater : CommandConstructor :=
  fun bb addr1 addr2 => JumpGreater (mkCommandData (uint8 JG) bb addr1 addr2).
Definition NewJumpLess : CommandConstructor :=
  fun bb addr1 addr2 => JumpLess (mkCommandData (uint8 JL) bb addr1 addr2).
Definition NewHalt : CommandConstructor :=
  fun bb addr1 addr2 => Halt (mkCommandData (uint8 STOP) bb addr1 addr2).
Definition NewAddInt : CommandConstructor :=
  fun bb addr1 addr2 => AddInt (mkCommandData (uint8 IADD) bb addr1 addr2).
Definition NewSubInt : CommandConstructor :=
  fun bb addr1 addr2 => SubInt (mkCommandData (uint8 ISUB) bb addr1 addr2).
Definition NewMulInt : CommandConstructor :=
  fun bb addr1 addr2 => MulInt (mkCommandData (uint8 IMUL) bb addr1 addr2).
Definition NewDivInt : CommandConstructor :=
  fun bb addr1 addr2 => DivInt (mkCommandData (uint8 IDIV) bb addr1 addr2).
Definition NewAddFloat : CommandConstructor :=
  fun bb addr1 addr2 => AddFloat (mkCommandData (uint8 RADD) bb addr1 addr2).
Definition NewSubFloat : CommandConstructor :=
  fun bb addr1 addr2 => SubFloat (mkCommandData (uint8 RSUB) bb addr1 addr2).
Definition NewMulFloat : CommandConstructor :=
  fun bb addr1 addr2 => MulFloat (mkCommandData (uint8 RMUL) bb addr1 addr2).
Definition NewDivFloat : CommandConstructor :=
  fun bb addr1 addr2 => DivFloat (mkCommandData (uint8 RDIV) bb addr1 addr2).
Definition NewInputInt : CommandConstructor :=
  fun bb addr1 addr2 => InputInt (mkCommandData (uint8 IIN) bb addr1 addr2).
Definition NewOutputInt : CommandConstructor :=
  fun bb addr1 addr2 => OutputInt (mkCommandData (uint8 IOUT) bb addr1 addr2).
Definition NewInputFloat : CommandConstructor :=
  fun bb addr1 addr2 => InputFloat (mkCommandData (uint8 RIN) bb addr1 addr2).
Definition NewOutputFloat : CommandConstructor :=
  fun bb addr1 addr2 => OutputFloat (mkCommandData (uint8 ROUT) bb addr1 addr2).
Definition NewLoadRegister : CommandConstructor :=
  fun bb addr1 addr2 => LoadRegister (mkCommandData (uint8 LOAD) bb addr1 addr2).
Definition NewStoreRegister : CommandConstructor :=
  fun bb addr1 addr2 => StoreRegister (mkCommandData (uint8 STORE) bb addr1 addr2).
Definition NewAddRegisters : CommandConstructor :=
  fun bb addr1 addr2 => AddRegisters (mkCommandData (uint8 ADDR) bb addr1 addr2).
Definition NewSubtractRegisters : CommandConstructor :=
  fun bb addr1 addr2 =>
    SubtractRegisters (mkCommandData (uint8 SUBR) bb addr1 addr2).
Definition NewMoveRegister : CommandConstructor :=
  fun bb addr1 addr2 => MoveRegister (mkCommandData (uint8 MOVR) bb addr1 addr2).

(** *** Jumps and halt *)

Definition JumpZero_Execute (j : CommandData) : M unit :=
  fun p =>
    (if Processor_GetFlags p =? 0 then
       effectiveAddr <- calculateAddress (BB j) (Address1 j) 0 ;;
       modify (fun q => set_IP q effectiveAddr)
     else ret tt) p.

(** [GetFlags] is a [uint16], so both comparisons below are unsigned. *)
Definition JumpGreater_Execute (j : CommandData) : M unit :=
  fun p =>
    (if Processor_GetFlags p >? 0 then
       effectiveAddr <- calculateAddress (BB j) (Address1 j) 0 ;;
       modify (fun q => set_IP q effectiveAddr)
     else ret tt) p.

Definition JumpLess_Execute (j : CommandData) : M unit :=
  fun p =>
    (if Processor_GetFlags p <? 0 then
       effectiveAddr <- calculateAddress (BB j) (Address1 j) 0 ;;
       modify (fun q => set_IP q effectiveAddr)
     else ret tt) p.

Definition Halt_Execute (h : CommandData) : M unit :=
  modify (fun p => set_stop p true).

(** *** Integer arithmetic on memory *)

Definition AddInt_Execute (a : CommandData) : M unit :=
  let regIndex := uint8 (Z.land (Address1 a) 7) in
  addr1 <- calculateAddress (BB a) (Address1 a) regIndex ;;
  addr2 <- calculateAddress (BB a) (Address2 a) regIndex ;;
  word1 <- readWord addr1 ;;
  word2 <- readWord addr2 ;;
  let result := int32 (I (D word1) + I (D word2)) in
  let word1 := Word_setI word1 result in
  writeWord addr1 word1 ;;
  let hasOverflow :=
    ((I (D word1) >? 0) && (I (D word2) >? 0) && (result <? 0))
    || ((I (D word1) <? 0) && (I (D word2) <? 0) && (result >? 0)) in
  let hasCarry :=
    uint32 (uint32 (I (D word1)) + uint32 (I (D word2))) >? 0x7FFFFFFF in
  modify (Processor_UpdateArithmeticFlags result hasCarry hasOverflow).

Definition SubInt_Execute (s : CommandData) : M unit :=
  let regIndex := uint8 (Z.land (Address1 s) 7) in
  addr1 <- calculateAddress (BB s) (Address1 s) regIndex ;;
  addr2 <- calculateAddress (BB s) (Address2 s) regIndex ;;
  word1 <- readWord addr1 ;;
  word2 <- readWord addr2 ;;
  let result := int32 (I (D word1) - I (D word2)) in
  let word1 := Word_setI word1 result in
  writeWord addr1 word1 ;;
  let hasOverflow :=
    ((I (D word1) >? 0) && (I (D word2) <? 0) && (result <? 0))
    || ((I (D word1) <? 0) && (I (D word2) >? 0) && (result >? 0)) in
  let hasCarry := uint32 (I (D word1)) <? uint32 (I (D word2)) in
  modify (Processor_UpdateArithmeticFlags result hasCarry hasOverflow).

(** The overflow test divides by the second operand without a guard: Go
    panics on an integer division by zero. *)
Definition MulInt_Execute (m : CommandData) : M unit :=
  let regIndex := uint8 (Z.land (Address1 m) 7) in
  addr1 <- calculateAddress (BB m) (Address1 m) regIndex ;;
  addr2 <- calculateAddress (BB m) (Address2 m) regIndex ;;
  word1 <- readWord addr1 ;;
  word2 <- readWord addr2 ;;
  let result := int32 (I (D word1) * I (D word2)) in
  let word1 := Word_setI word1 result in
  writeWord addr1 word1 ;;
  if I (D word2) =? 0 then (fun _ => Crash PanicIntegerDivideByZero)
  else
    let hasOverflow :=
      negb (int32 (Z.quot result (I (D word2))) =? I (D word1)) in
    let hasCarry := false in
    modify (Processor_UpdateArithmeticFlags result hasCarry hasOverflow).

Definition DivInt_Execute (d : CommandData) : M unit :=
  let regIndex := uint8 (Z.land (Address1 d) 7) in
  addr1 <- calculateAddress (BB d) (Address1 d) regIndex ;;
  addr2 <- calculateAddress (BB d) (Address2 d) regIndex ;;
  word1 <- readWord addr1 ;;
  word2 <- readWord addr2 ;;
  if I (D word2) =? 0 then
    modify (fun p => set_error p true) ;;
    fail ErrDivisionByZero
  else
    let result := int32 (Z.quot (I (D word1)) (I (D word2))) in
    let word1 := Word_setI word1 result in
    writeWord addr1 word1 ;;
    let hasOverflow := false in
    let hasCarry := false in
    modify (Processor_UpdateArithmeticFlags result hasCarry hasOverflow).

(** *** Floating-point arithmetic on memory *)

Definition AddFloat_Execute (a : CommandData) : M unit :=
  let regIndex := uint8 (Z.land (Address1 a) 7) in
  addr1 <- calculateAddress (BB a) (Address1 a) regIndex ;;
  addr2 <- calculateAddress (BB a) (Address2 a) regIndex ;;
  word1 <- readWord addr1 ;;
  word2 <- readWord addr2 ;;
  let result := f32_add (F (D word1)) (F (D word2)) in
  let word1 := Word_setF word1 result in
  writeWord addr1 word1 ;;
  modify (Processor_UpdateFloatFlags result).

Definition SubFloat_Execute (s : CommandData) : M unit :=
  let regIndex := uint8 (Z.land (Address1 s) 7) in
  addr1 <- calculateAddress (BB s) (Address1 s) regIndex ;;
  addr2 <- calculateAddress (BB s) (Address2 s) regIndex ;;
  word1 <- readWord addr1 ;;
  word2 <- readWord addr2 ;;
  let result := f32_sub (F (D word1)) (F (D word2)) in
  let word1 := Word_setF word1 result in
  writeWord addr1 word1 ;;
  modify (Processor_UpdateFloatFlags result).

Definition MulFloat_Execute (m : CommandData) : M unit :=
  let regIndex := uint8 (Z.land (Address1 m) 7) in
  addr1 <- calculateAddress (BB m) (Address1 m) regIndex ;;
  addr2 <- calculateAddress (BB m) (Address2 m) regIndex ;;
  word1 <- readWord addr1 ;;
  word2 <- readWord addr2 ;;
  let result := f32_mul (F (D word1)) (F (D word2)) in
  let word1 := Word_setF word1 result in
  writeWord addr1 word1 ;;
  modify (Processor_UpdateFloatFlags result).

Definition DivFloat_Execute (d : CommandData) : M unit :=
  let regIndex := uint8 (Z.land (Address1 d) 7) in
  addr1 <- calculateAddress (BB d) (Address1 d) regIndex ;;
  addr2 <- calculateAddress (BB d) (Address2 d) regIndex ;;
  word1 <- readWord addr1 ;;
  word2 <- readWord addr2 ;;
  if f32_eqb (F (D word2)) f32_zero then
    modify (fun p => set_error p true) ;;
    fail ErrDivisionByZero
  else
    let result := f32_div (F (D word1)) (F (D word2)) in
    let word1 := Word_setF word1 result in
    writeWord addr1 word1 ;;
    modify (Processor_UpdateFloatFlags result).

(** *** Registers *)

Definition LoadRegister_Execute (l : CommandData) : M unit :=
  let regIndex := uint8 (Z.land (Address1 l) 7) in
  word <- readWord (Address2 l) ;;
  Processor_SetRegister regIndex (I (D word)).

Definition StoreRegister_Execute (s : CommandData) : M unit :=
  let regIndex := uint8 (Z.land (Address2 s) 7) in
  value <- Processor_GetRegister regIndex ;;
  let word := Word_ofInt value in
  writeWord (Address1 s) word.

Definition AddRegisters_Execute (a : CommandData) : M unit :=
  let regDest := uint8 (Z.land (Address1 a) 7) in
  let regSrc := uint8 (Z.land (Address2 a) 7) in
  val1 <- Processor_GetRegister regDest ;;
  val2 <- Processor_GetRegister regSrc ;;
  let result := int32 (val1 + val2) in
  Processor_SetRegister regDest result ;;
  let hasOverflow :=
    ((val1 >? 0) && (val2 >? 0) && (result <? 0))
    || ((val1 <? 0) && (val2 <? 0) && (result >? 0)) in
  let hasCarry := uint32 (uint32 val1 + uint32 val2) >? 0x7FFFFFFF in
  modify (Processor_UpdateArithmeticFlags result hasCarry hasOverflow).

Definition SubtractRegisters_Execute (s : CommandData) : M unit :=
  let regDest := uint8 (Z.land (Address1 s) 7) in
  let regSrc := uint8 (Z.land (Address2 s) 7) in
  val1 <- Processor_GetRegister regDest ;;
  val2 <- Processor_GetRegister regSrc ;;
  let result := int32 (val1 - val2) in
  Processor_SetRegister regDest result ;;
  let hasOverflow :=
    ((val1 >? 0) && (val2 <? 0) && (result <? 0))
    || ((val1 <? 0) && (val2 >? 0) && (result >? 0)) in
  let hasCarry := uint32 val1 <? uint32 val2 in
  modify (Processor_UpdateArithmeticFlags result hasCarry hasOverflow).

Definition MoveRegister_Execute (m : CommandData) : M unit :=
  let regDest := uint8 (Z.land (Address1 m) 7) in
  let regSrc := uint8 (Z.land (Address2 m) 7) in
  value <- Processor_GetRegister regSrc ;;
  Processor_SetRegister regDest value.

(** *** Console input and output *)

(** A fresh scanner on standard input, one [Scan], then [Text]: the next
    text, or the empty string when the input is exhausted. *)
Definition scanText : M string :=
  fun p =>
    match stdin p with
    | [] => Ret EmptyString p
    | t :: rest => Ret t (set_stdin p rest)
    end.

Definition InputInt_Execute (i : CommandData) : M unit :=
  modify (fun p => print p (OutText "Enter integer value: ")) ;;
  text <- scanText ;;
  match ParseInt text 10 32 with
  | inl e => fail (ErrInvalidIntegerInput e)
  | inr value =>
      let regIndex := uint8 (Z.land (Address1 i) 7) in
      addr1 <- calculateAddress (BB i) (Address1 i) regIndex ;;
      let word := Word_ofInt (int32 value) in
      writeWord addr1 word
  end.

Definition OutputInt_Execute (o : CommandData) : M unit :=
  let regIndex := uint8 (Z.land (Address1 o) 7) in
  addr1 <- calculateAddress (BB o) (Address1 o) regIndex ;;
  word <- readWord addr1 ;;
  modify (fun p => print p (OutInt (I (D word)))).

Definition OutputFloat_Execute (o : CommandData) : M unit :=
  let regIndex := uint8 (Z.land (Address1 o) 7) in
  addr1 <- calculateAddress (BB o) (Address1 o) regIndex ;;
  word <- readWord addr1 ;;
  modify (fun p => print p (OutFloat (F (D word)))).

Section Machine.

(** [strconv.ParseFloat(s, 32)] followed by the conversion to [float32];
    [None] when it returns an error.  The decimal-to-binary conversion of
    the Go library is not part of the program and is taken as given. *)
Variable ParseFloat32 : string -> option float32.

Definition InputFloat_Execute (i : CommandData) : M unit :=
  modify (fun p => print p (OutText "Enter float value: ")) ;;
  text <- scanText ;;
  match ParseFloat32 text with
  | None => fail ErrInvalidFloatInput
  | Some value =>
      let regIndex := uint8 (Z.land (Address1 i) 7) in
      addr1 <- calculateAddress (BB i) (Address1 i) regIndex ;;
      let word := Word_ofFloat value in
      writeWord addr1 word
  end.

(** Dynamic dispatch of [cmd.Execute(p)]. *)
Definition Command_Execute (cmd : Command) : M unit :=
  match cmd with
  | JumpZero c => JumpZero_Execute c
  | JumpGreater c => JumpGreater_Execute c
  | JumpLess c => JumpLess_Execute c
  | Halt c => Halt_Execute c
  | AddInt c => AddInt_Execute c
  | SubInt c => SubInt_Execute c
  | MulInt c => MulInt_Execute c
  | DivInt c => DivInt_Execute c
  | AddFloat c => AddFloat_Execute c
  | SubFloat c => SubFloat_Execute c
  | MulFloat c => MulFloat_Execute c
  | DivFloat c => DivFloat_Execute c
  | InputInt c => InputInt_Execute c
  | OutputInt c => OutputInt_Execute c
  | InputFloat c => InputFloat_Execute c
  | OutputFloat c => OutputFloat_Execute c
  | LoadRegister c => LoadRegister_Execute c
  | StoreRegister c => StoreRegister_Execute c
  | AddRegisters c => AddRegisters_Execute c
  | SubtractRegisters c => SubtractRegisters_Execute c
  | MoveRegister c => MoveRegister_Execute c
  end.

(** The entries [initializeCommandMap] stores, in order. *)
Definition initializeCommandMap : list (Z * CommandConstructor) :=
  [ (STOP, NewHalt); (IADD, NewAddInt); (ISUB, NewSubInt); (IMUL, NewMulInt);
    (IDIV, NewDivInt); (IIN, NewInputInt); (IOUT, NewOutputInt);
    (RADD, NewAddFloat); (RSUB, NewSubFloat); (RMUL, NewMulFloat);
    (RDIV, NewDivFloat); (RIN, NewInputFloat); (ROUT, NewOutputFloat);
    (JZ, NewJumpZero); (JG, NewJumpGreater); (JL, NewJumpLess);
    (LOAD, NewLoadRegister); (STORE, NewStoreRegister);
    (ADDR, NewAddRegisters); (SUBR, NewSubtractRegisters);
    (MOVR, NewMoveRegister) ].

(** [p.commandMap[opcode]]: the last entry stored under the key. *)
Fixpoint mapLookup (entries : list (Z * CommandConstructor)) (opcode : Z)
  : option CommandConstructor :=
  match entries with
  | [] => None
  | (k, v) :: rest =>
      match mapLookup rest opcode with
      | Some v' => Some v'
      | None => if k =? opcode then Some v else None
      end
  end.

Definition commandMap (opcode : Z) : option CommandConstructor :=
  mapLookup initializeCommandMap opcode.

Definition Processor_executeNextInstruction : M unit :=
  fun p =>
    let currentIP := IP (psw p) in
    if negb (Memory_IsValidAddress (memory p) currentIP) then
      Fail (ErrInvalidIP currentIP) p
    else
      match Memory_ReadWord (memory p) currentIP with
      | Panic c => Crash c
      | Err e => Fail (ErrReadInstruction e) p
      | Ok word =>
          match commandMap (Opcode (Cmd word)) with
          | Some constructor =>
              let cmd := constructor (BB (Cmd word)) (Address1 (Cmd word))
                                     (Address2 (Cmd word)) in
              match Command_Execute cmd p with
              | Crash c => Crash c
              | Fail e p' => Fail (ErrExecuting currentIP e) p'
              | Ret _ p' =>
                  if Opcode (Cmd word) =? uint8 STOP then
                    Ret tt (set_stop p' true)
                  else
                    Ret tt (set_IP p'
                              (uint16 (Z.rem (currentIP + 1)
                                             (Memory_Size (memory p')))))
              end
          | None => Fail (ErrInvalidOpcode currentIP (Opcode (Cmd word))) p
          end
      end.

(** The loop of [Run].  [fuel] bounds the number of iterations, [steps]
    counts the calls of [executeNextInstruction] made so far; the result is
    [None] when the bound is reached with the loop condition still true,
    and otherwise the final processor with the number of calls made. *)
Fixpoint Run_loop (fuel : nat) (steps : nat) (p : Processor)
  : option (outcome nat) :=
  if negb (stop p) && negb (error p) then
    match fuel with
    | O => None
    | S fuel' =>
        match Processor_executeNextInstruction p with
        | Ret _ p' => Run_loop fuel' (S steps) p'
        | Fail _ p' => Some (Ret (S steps) (set_error p' true))
        | Crash c => Some (Crash c)
        end
    end
  else Some (Ret steps p).

Definition Processor_Run (fuel : nat) (p : Processor) : option (outcome nat) :=
  Run_loop fuel 0 p.

(** ** Program loader (loader.go) *)

(** The [strings] functions below are those of the Go library on ASCII text:
    the white space they recognise here is tab, line feed, vertical tab,
    form feed, carriage return and space, and only the letters A-Z are
    lower-cased. *)

Definition isSpace (c : ascii) : bool :=
  let b := byteOf c in ((9 <=? b) && (b <=? 13)) || (b =? 32).

(** [line[:idx]] for [idx := strings.Index(line, "#")], the whole line when
    there is no [#]. *)
Fixpoint cutComment (line : string) : string :=
  match line with
  | EmptyString => EmptyString
  | String c rest =>
      if Ascii.eqb c "#" then EmptyString else String c (cutComment rest)
  end.

Fixpoint trimLeft (s : string) : string :=
  match s with
  | EmptyString => EmptyString
  | String c rest => if isSpace c then trimLeft rest else s
  end.

Fixpoint trimRight (s : string) : string :=
  match s with
  | EmptyString => EmptyString
  | String c rest =>
      match trimRight rest with
      | EmptyString => if isSpace c then EmptyString else String c EmptyString
      | rest' => String c rest'
      end
  end.

Definition TrimSpace (s : string) : string := trimRight (trimLeft s).

(** [strings.Fields]: the maximal runs of non-space characters; [cur] is the
    run being read. *)
Fixpoint Fields_loop (s cur : string) : list string :=
  match s with
  | EmptyString =>
      match cur with EmptyString => [] | _ => [cur] end
  | String c rest =>
      if isSpace c then
        match cur with
        | EmptyString => Fields_loop rest EmptyString
        | _ => cur :: Fields_loop rest EmptyString
        end
      else Fields_loop rest (cur ++ String c EmptyString)
  end.

Definition Fields (s : string) : list string := Fields_loop s EmptyString.

Definition toLowerChar (c : ascii) : ascii :=
  let b := byteOf c in
  if (65 <=? b) && (b <=? 90) then ascii_of_N (Z.to_N (b + 32)) else c.

Fixpoint ToLower (s : string) : string :=
  match s with
  | EmptyString => EmptyString
  | String c rest => String (toLowerChar c) (ToLower rest)
  end.

(** What the [Message] of a [CommandError] is formatted from. *)
Inductive LoaderMessage : Type :=
| MsgAddressRequiresValue
| MsgInvalidAddressFormat (e : NumError)
| MsgAddressOutOfRange (addr : Z)
| MsgEntryPointRequiresValue
| MsgInvalidInitialIPFormat (e : NumError)
| MsgEntryPointOutOfRange (ip : Z)
| MsgIntegerRequiresValue
| MsgInvalidIntegerFormat (e : NumError)
| MsgFailedToWriteInteger (e : errorT)
| MsgFloatRequiresValue
| MsgInvalidFloatFormat
| MsgFailedToWriteFloat (e : errorT)
| MsgCommandRequiresParameters (got : Z)
| MsgInvalidOpcodeFormat (e : NumError)
| MsgOpcodeOutOfRange (opcode : Z)
| MsgInvalidBBFormat (e : NumError)
| MsgBBOutOfRange (bb : Z)
| MsgInvalidAddr1Format (e : NumError)
| MsgAddr1OutOfRange (addr : Z)
| MsgInvalidAddr2Format (e : NumError)
| MsgAddr2OutOfRange (addr : Z)
| MsgFailedToWriteCommand (e : errorT)
| MsgEndedWithoutEntryPoint
| MsgUnknownCommandType (name : string)
| MsgEndedWithoutS.

Record CommandError : Type := mkCommandError {
  LineNumber : Z;
  Line : string;
  Message : LoaderMessage
}.

(** Result of loading: the entry point, a [CommandError], or a panic; the
    memory is returned as the loader left it. *)
Inductive loaded : Type :=
| Loaded (initialIP : Z) (m : Memory)
| LoadError (e : CommandError) (m : Memory)
| LoadPanic (c : panic).

Definition isValidOpcode (opcode : Z) : bool := opcode <=? 0x45.
Definition isValidBB (bb : Z) : bool := bb <=? 0x03.
Definition isValidAddress (addr : Z) (m : Memory) : bool :=
  addr <? Memory_Size m.

(** The local variables of [readProgramFromFile] that live across
    iterations. *)
Record LoaderState : Type := mkLoaderState {
  ls_memory : Memory;
  address : Z;
  initialIP : Z;
  entryPointSet : bool;
  lineNumber : Z
}.

(** What one iteration of the scanning loop does. *)
Inductive lineResult : Type :=
| Continue (st : LoaderState)
| Return (r : loaded).

(** [memory.WriteWord(address, word)] then [address++], with the error
    branch of the call site. *)
Definition loaderWrite (st : LoaderState) (line : string) (word : Word)
  (onError : errorT -> LoaderMessage) : lineResult :=
  match Memory_WriteWord (ls_memory st) (address st) word with
  | Panic c => Return (LoadPanic c)
  | Err e =>
      Return (LoadError (mkCommandError (lineNumber st) line (onError e))
                        (ls_memory st))
  | Ok m' =>
      Continue (mkLoaderState m' (address st + 1) (initialIP st)
                              (entryPointSet st) (lineNumber st))
  end.

(** The body of the loop for one scanned line; [st] already carries the
    incremented line number. *)
Definition loadLine (st : LoaderState) (rawLine : string) : lineResult :=
  let line := TrimSpace (cutComment rawLine) in
  let failWith msg :=
    Return (LoadError (mkCommandError (lineNumber st) line msg)
                      (ls_memory st)) in
  match line with
  | EmptyString => Continue st
  | _ =>
    let fields := Fields line in
    match fields with
    | [] => Continue st
    | f0 :: args =>
      let command := ToLower f0 in
      if String.eqb command "a" then
        match args with
        | [] => failWith MsgAddressRequiresValue
        | f1 :: _ =>
            match ParseInt f1 16 32 with
            | inl e => failWith (MsgInvalidAddressFormat e)
            | inr addr =>
                if negb (Memory_IsValidAddress (ls_memory st) addr) then
                  failWith (MsgAddressOutOfRange addr)
                else
                  Continue (mkLoaderState (ls_memory st) addr (initialIP st)
                                          (entryPointSet st) (lineNumber st))
            end
        end
      else if String.eqb command "e" then
        match args with
        | [] => failWith MsgEntryPointRequiresValue
        | f1 :: _ =>
            match ParseInt f1 16 16 with
            | inl e => failWith (MsgInvalidInitialIPFormat e)
            | inr ip =>
                if negb (Memory_IsValidAddress (ls_memory st) ip) then
                  failWith (MsgEntryPointOutOfRange ip)
                else
                  Continue (mkLoaderState (ls_memory st) (address st)
                                          (uint16 ip) true (lineNumber st))
            end
        end
      else if String.eqb command "i" then
        match args with
        | [] => failWith MsgIntegerRequiresValue
        | f1 :: _ =>
            match ParseInt f1 10 32 with
            | inl e => failWith (MsgInvalidIntegerFormat e)
            | inr value =>
                loaderWrite st line (Word_ofInt (int32 value))
                            MsgFailedToWriteInteger
            end
        end
      else if String.eqb command "r" then
        match args with
        | [] => failWith MsgFloatRequiresValue
        | f1 :: _ =>
            match ParseFloat32 f1 with
            | None => failWith MsgInvalidFloatFormat
            | Some value =>
                loaderWrite st line (Word_ofFloat value) MsgFailedToWriteFloat
            end
        end
      else if String.eqb command "k" then
        match args with
        | f1 :: f2 :: f3 :: f4 :: _ =>
            match ParseUint f1 16 8 with
            | inl e => failWith (MsgInvalidOpcodeFormat e)
            | inr opcode =>
            if negb (isValidOpcode opcode) then
              failWith (MsgOpcodeOutOfRange opcode)
            else
            match ParseUint f2 16 8 with
            | inl e => failWith (MsgInvalidBBFormat e)
            | inr bb =>
            if negb (isValidBB bb) then failWith (MsgBBOutOfRange bb)
            else
            match ParseUint f3 16 16 with
            | inl e => failWith (MsgInvalidAddr1Format e)
            | inr addr1 =>
            if negb (isValidAddress addr1 (ls_memory st)) then
              failWith (MsgAddr1OutOfRange addr1)
            else
            match ParseUint f4 16 16 with
            | inl e => failWith (MsgInvalidAddr2Format e)
            | inr addr2 =>
            if negb (isValidAddress addr2 (ls_memory st)) then
              failWith (MsgAddr2OutOfRange addr2)
            else
              loaderWrite st line
                (Word_ofCmd (mkCommandData (uint8 opcode) (uint8 bb)
                                           (uint16 addr1) (uint16 addr2)))
                MsgFailedToWriteCommand
            end end end end
        | _ => failWith (MsgCommandRequiresParameters (len args))
        end
      else if String.eqb command "s" then
        if negb (entryPointSet st) then failWith MsgEndedWithoutEntryPoint
        else Return (Loaded (initialIP st) (ls_memory st))
      else failWith (MsgUnknownCommandType f0)
    end
  end.

(** The scanning loop over the lines of the file. *)
Fixpoint loadLines (lines : list string) (st : LoaderState) : loaded :=
  match lines with
  | [] =>
      LoadError (mkCommandError (lineNumber st) EmptyString MsgEndedWithoutS)
                (ls_memory st)
  | rawLine :: rest =>
      let st1 := mkLoaderState (ls_memory st) (address st) (initialIP st)
                               (entryPointSet st) (lineNumber st + 1) in
      match loadLine st1 rawLine with
      | Continue st2 => loadLines rest st2
      | Return r => r
      end
  end.

(** [readProgramFromFile(file, memory)] on a file whose scanner yields the
    texts [lines], one per line, and ends without a read error. *)
Definition readProgramFromFile (lines : list string) (m : Memory) : loaded :=
  loadLines lines (mkLoaderState m 0 0 false 0).

(** ** Start-up (main.go) *)

(** How [main] reaches [Run]: the processor is created, the program file is
    loaded into its memory, and the processor is reset to the entry point.
    When the processor cannot be created or the loader returns an error,
    the process ends with status 1. *)
Inductive started : Type :=
| Ready (p : Processor)
| NoProcessor (e : errorT)
| NotLoaded (e : CommandError)
| Died (c : panic).

Definition main_start (lines : list string) (input : list string) : started :=
  match NewProcessor input with
  | Ok processor =>
      match readProgramFromFile lines (memory processor) with
      | Loaded initialIP m =>
          Ready (Processor_Reset initialIP (set_memory processor m))
      | LoadError e _ => NotLoaded e
      | LoadPanic c => Died c
      end
  | Err e => NoProcessor e
  | Panic c => Died c
  end.

End Machine.

(** ** Notions used to state the properties *)

(** The memory [NewMemory(65536)] returns. *)
Definition bootMemory : Memory :=
  mkMemory (repeat 0 (Z.to_nat 65536)) 65536 0 0 true.

(** Every byte of the memory is in [0, 256). *)
Definition Memory_bytesOk (m : Memory) : bool :=
  forallb (fun b => (0 <=? b) && (b <? 256)) (data m).

(** The four bytes of the cell at [a]. *)
Definition cellBytes (m : Memory) (a : Z) : list Z :=
  firstn 4 (skipn (Z.to_nat a) (data m)).

(** The 32-bit value stored in the cell at [a]. *)
Definition cellBits (m : Memory) (a : Z) : Z := Uint32 (cellBytes m a).

(** The top byte of the 32-bit representation of an [int32]. *)
Definition topByte (x : Z) : Z := Z.shiftr (uint32 x) 24.

(** The float view of a 32-bit value in the specification's data model,
    where the integer and the float of a data word share their storage: the
    binary32 number with that encoding ([math.Float32frombits]). *)
Definition Float32frombits (b : Z) : float32 :=
  let sign := Z.testbit b 31 in
  let e := Z.land (Z.shiftr b 23) 255 in
  let mant := Z.land b 8388607 in
  if e =? 0 then
    match mant with
    | Zpos q => S754_finite sign q (-149)
    | _ => S754_zero sign
    end
  else if e =? 255 then
    (if mant =? 0 then S754_infinity sign else S754_nan)
  else
    match mant + 8388608 with
    | Zpos q => S754_finite sign q (e - 150)
    | _ => S754_nan
    end.

(** The packed flag word read as a signed 16-bit number, as the
    specification compares it. *)
Definition signedFlags (p : Processor) : Z := int16 (Processor_GetFlags p).

(** The flag formulas of the specification for integer addition and
    subtraction of operands [a] and [b] with wrapped result [r]; the sums
    and comparisons are those of Go on [uint32] and [int32]. *)
Definition specAddOverflow (a b r : Z) : bool :=
  ((a >? 0) && (b >? 0) && (r <? 0)) || ((a <? 0) && (b <? 0) && (r >? 0)).
Definition specAddCarry (a b : Z) : bool :=
  uint32 (uint32 a + uint32 b) >? 0x7FFFFFFF.
Definition specSubOverflow (a b r : Z) : bool :=
  ((a >? 0) && (b <? 0) && (r <? 0)) || ((a <? 0) && (b >? 0) && (r >? 0)).
Definition specSubCarry (a b : Z) : bool := uint32 a <? uint32 b.

(** *** Observations *)

Definition isOk {A : Type} (r : result A) : bool :=
  match r with
  | Ok _ => true
  | _ => false
  end.

(** What is left of an outcome that returned normally. *)
Definition returned {A : Type} (o : outcome A) : option Processor :=
  match o with
  | Ret _ p => Some p
  | _ => None
  end.

(** The instruction pointer after a normal return. *)
Definition ipAfter {A : Type} (o : outcome A) : option Z :=
  option_map (fun p => IP (psw p)) (returned o).

(** The program status word after a normal return. *)
Definition pswAfter {A : Type} (o : outcome A) : option PSW :=
  option_map psw (returned o).

(** The error of an outcome that returned one. *)
Definition failure {A : Type} (o : outcome A) : option errorT :=
  match o with
  | Fail e _ => Some e
  | _ => None
  end.

(** The processor an outcome that returned an error left behind. *)
Definition failedProcessor {A : Type} (o : outcome A) : option Processor :=
  match o with
  | Fail _ p => Some p
  | _ => None
  end.

(** The error a load ended with. *)
Definition loadErrorOf (l : loaded) : option CommandError :=
  match l with
  | LoadError e _ => Some e
  | _ => None
  end.

(** The entry point a load returned. *)
Definition entryPointOf (l : loaded) : option Z :=
  match l with
  | Loaded ip _ => Some ip
  | _ => None
  end.

Definition isReady (s : started) : bool :=
  match s with
  | Ready _ => true
  | _ => false
  end.

(** The processor [main] is about to run, when start-up succeeded. *)
Definition readyProcessor (s : started) : Processor :=
  match s with
  | Ready p => p
  | _ => mkProcessor (mkMemory [] 0 0 0 false)
                     (mkPSW 0 false false false false) [] false false [] []
  end.

(** *** Concrete programs and states *)

(** A [strconv.ParseFloat] that accepts nothing, for closed examples that
    read no float. *)
Definition noFloats : string -> option float32 := fun _ => None.

(** A memory of eight zero bytes. *)
Definition smallMemory : Memory := mkMemory (repeat 0 8) 8 0 0 true.

(** A processor on a memory of sixteen zero bytes, with flags and registers
    set. *)
Definition tinyProcessor : Processor :=
  mkProcessor (mkMemory (repeat 0 16) 16 0 0 true)
              (mkPSW 3 true false true false) [7; 9] false false [] [].

(** A processor whose only set flag is the sign flag. *)
Definition signProcessor : Processor :=
  mkProcessor bootMemory (mkPSW 0 true false false false) [0; 0] false false
              [] [].

(** Program files, line by line.  Words are placed with [a] directives at
    addresses four apart, so that they do not overlap. *)

(** No code at all: only the entry point. *)
Definition emptyProgram : list string := ["e 0"; "s"]%string.

(** [JZ] with [BB = 00] and [Address1 = 0x100], at address 0. *)
Definition jzProgram : list string :=
  ["a 0"; "k 41 00 0100 0000"; "e 0"; "s"]%string.

(** [IADD] whose second address uses eleven bits. *)
Definition overlapProgram : list string :=
  ["a 0"; "k 01 00 0000 0400"; "e 0"; "s"]%string.

(** [ISUB] of the cells at [0x100] and [0x104], which hold 3 and 2. *)
Definition isubProgram : list string :=
  ["a 0100"; "i 3"; "a 0104"; "i 2"; "a 0"; "k 02 00 0100 0104"; "e 0";
   "s"]%string.

(** [RDIV] of the cells at [0x100] and [0x104], which both hold
    [0x00800000], the encoding of the float [2^-126]. *)
Definition rdivProgram : list string :=
  ["a 0100"; "i 8388608"; "a 0104"; "i 8388608"; "a 0";
   "k 24 00 0100 0104"; "e 0"; "s"]%string.

(** An entry point in the upper half of the memory. *)
Definition highEntryProgram : list string := ["e 8000"; "s"]%string.

(** Splits a conjunction into its parts and evaluates each. *)
Ltac evaluate_conjuncts :=
  repeat match goal with |- _ /\ _ => split end;
  vm_compute; try reflexivity.

(** The byte of the memory at index [i]. *)
Definition byteAt (m : Memory) (i : Z) : Z := nth (Z.to_nat i) (data m) 0.

(** [smallMemory] after the integer 5 was written at address 2. *)
Definition smallMemoryWritten : Memory :=
  mkMemory [0; 0; 5; 0; 0; 0; 0; 0] 8 0 1 true.

(** Eight bytes whose first cell is the [JZ] word of [jzProgram]. *)
Definition commandMemory : Memory :=
  mkMemory [0; 0; 4; 65; 0; 0; 0; 0] 8 0 1 true.

(** Loader states on [smallMemory]: at address 0, after the integer 3 was
    written there, and after the integer 4 was written at address 1. *)
Definition loaderState0 : LoaderState :=
  mkLoaderState smallMemory 0 0 false 1.
Definition loaderState1 : LoaderState :=
  mkLoaderState (mkMemory [3; 0; 0; 0; 0; 0; 0; 0] 8 0 1 true) 1 0 false 1.
Definition loaderState2 : LoaderState :=
  mkLoaderState (mkMemory [3; 4; 0; 0; 0; 0; 0; 0] 8 0 2 true) 2 0 false 1.

(** What no instruction changes: the size of the memory and the length of
    its byte array, the number of registers, the memory being an array of
    bytes, and the error and stop flags once they are set. *)
Definition keeps (p p' : Processor) : Prop :=
  size (memory p') = size (memory p) /\
  len (data (memory p')) = len (data (memory p)) /\
  List.length (registers p') = List.length (registers p) /\
  (Memory_bytesOk (memory p) = true -> Memory_bytesOk (memory p') = true) /\
  (error p = true -> error p' = true) /\
  (stop p = true -> stop p' = true).

(** A computation every non-panicking exit of which [keeps] the processor
    it started from. *)
Definition respects {A : Type} (c : M A) : Prop :=
  forall p,
    match c p with
    | Ret _ p' => keeps p p'
    | Fail _ p' => keeps p p'
    | Crash _ => True
    end.

(** A processor whose memory holds the [JZ] word of [jzProgram] at
    address 0. *)
Definition commandProcessor : Processor :=
  mkProcessor commandMemory (mkPSW 0 false false false false) [0; 0] false
              false [] [].

(** The opcodes of the dispatch table. *)
Definition knownOpcodes : list Z := map fst initializeCommandMap.

(** A processor whose memory holds a word with opcode 5 at address 0. *)
Definition unknownOpcodeProcessor : Processor :=
  mkProcessor (mkMemory [0; 0; 0; 5; 0; 0; 0; 0] 8 0 0 true)
              (mkPSW 0 false false false false) [0; 0] false false [] [].

(** [tinyProcessor] with the instruction pointer at the last but one
    address of its sixteen bytes. *)
Definition edgeProcessor : Processor := set_IP tinyProcessor 14.

(** A [strconv.ParseFloat] that accepts the text [1.5] only, whose
    [float32] is [12582912 * 2^-23]. *)
Definition oneFloat : string -> option float32 :=
  fun s =>
    if String.eqb s "1.5" then Some (S754_finite false 12582912 (-23))
    else None.

(** The directive letter of a line of a program file, in lower case; [None]
    for a line that is blank once its comment is removed. *)
Definition lineCommand (rawLine : string) : option string :=
  match Fields (TrimSpace (cutComment rawLine)) with
  | f0 :: _ => Some (ToLower f0)
  | [] => None
  end.

(** The memory [m'] has the size, the length and the byte range of [m]. *)
Definition sameShape (m m' : Memory) : Prop :=
  size m' = size m /\ len (data m') = len (data m) /\
  (Memory_bytesOk m = true -> Memory_bytesOk m' = true).

(** What holds of the loader's variables between two lines, on a file loaded
    into [m]. *)
Definition loaderInv (m : Memory) (st : LoaderState) : Prop :=
  sameShape m (ls_memory st) /\
  (entryPointSet st = true -> 0 <= initialIP st < 32768 /\ initialIP st < size m).

(** Whether a load ended at the end of the file, for want of an [s] line. *)
Definition endedWithoutS (l : loaded) : bool :=
  match l with
  | LoadError e _ =>
      match Message e with
      | MsgEndedWithoutS => true
      | _ => false
      end
  | _ => false
  end.

(** [tinyProcessor] with 300 in its first register. *)
Definition storeProcessor : Processor :=
  set_registers tinyProcessor [300; 9].

(** A processor whose memory holds the integers 7 and 2 at addresses 0
    and 4. *)
Definition divProcessor : Processor :=
  mkProcessor (mkMemory [7; 0; 0; 0; 2; 0; 0; 0] 8 0 0 true)
              (mkPSW 0 true true true false) [0; 0] false false [] [].

(** A processor whose memory holds the instruction [IADD 0, 4] at address 0
    and the integer 2 at address 4. *)
Definition instructionProcessor : Processor :=
  mkProcessor (mkMemory [4; 0; 0; 1; 2; 0; 0; 0] 8 0 0 true)
              (mkPSW 0 false false false false) [0; 0] false false [] [].

(** [tinyProcessor] with the largest and the smallest [int32] in its
    registers. *)
Definition extremeProcessor : Processor :=
  set_registers tinyProcessor [2147483647; -2147483648].

(** * Properties *)

(** ** Bit-level arithmetic *)

Lemma land_low_high_zero (lo hi k : Z) :
  0 <= k -> 0 <= lo < 2 ^ k -> Z.land (hi * 2 ^ k) lo = 0.
Proof.
  intros Hk Hlo. apply Z.bits_inj'. intros n Hn.
  rewrite Z.land_spec, Z.bits_0.
  destruct (Z.lt_ge_cases n k) as [Hlt | Hge].
  - rewrite Z.mul_pow2_bits_low by lia. reflexivity.
  - rewrite <- (Z.mod_small lo (2 ^ k)) by lia.
    rewrite Z.mod_pow2_bits_high by lia. apply andb_false_r.
Qed.

Lemma lor_high_low (hi lo k : Z) :
  0 <= k -> 0 <= lo < 2 ^ k -> Z.lor (hi * 2 ^ k) lo = hi * 2 ^ k + lo.
Proof.
  intros Hk Hlo.
  pose proof (Z.add_lor_land (hi * 2 ^ k) lo) as H.
  rewrite land_low_high_zero in H by assumption. lia.
Qed.

Lemma lor_low_shiftl (lo b k : Z) :
  0 <= k -> 0 <= lo < 2 ^ k -> Z.lor lo (Z.shiftl b k) = lo + b * 2 ^ k.
Proof.
  intros Hk Hlo. rewrite Z.shiftl_mul_pow2 by lia.
  rewrite Z.lor_comm, lor_high_low by assumption. lia.
Qed.

Lemma uint8_range x : 0 <= uint8 x < 256.
Proof. unfold uint8. change (2 ^ 8) with 256. apply Z.mod_pos_bound. lia. Qed.

Lemma uint32_range x : 0 <= uint32 x < 2 ^ 32.
Proof. unfold uint32. apply Z.mod_pos_bound. lia. Qed.

Lemma uint32_small x : 0 <= x < 2 ^ 32 -> uint32 x = x.
Proof. intros. unfold uint32. apply Z.mod_small. assumption. Qed.

Lemma int32_uint32 (x : Z) : - 2 ^ 31 <= x < 2 ^ 31 -> int32 (uint32 x) = x.
Proof.
  intros Hx. unfold int32, uint32.
  change (2 ^ 31) with 2147483648 in *. change (2 ^ 32) with 4294967296.
  Z.div_mod_to_equations. lia.
Qed.

(** The little-endian value of four bytes in range. *)
Lemma Uint32_bytes (b0 b1 b2 b3 : Z) :
  0 <= b0 < 256 -> 0 <= b1 < 256 -> 0 <= b2 < 256 -> 0 <= b3 < 256 ->
  Uint32 [b0; b1; b2; b3] = b0 + b1 * 2 ^ 8 + b2 * 2 ^ 16 + b3 * 2 ^ 24.
Proof.
  intros H0 H1 H2 H3. unfold Uint32. cbn [nth].
  rewrite (lor_low_shiftl b0 b1 8) by lia.
  rewrite (lor_low_shiftl _ b2 16) by lia.
  rewrite (lor_low_shiftl _ b3 24) by lia.
  reflexivity.
Qed.

Lemma Uint32_PutUint32 (v : Z) :
  0 <= v < 2 ^ 32 -> Uint32 (PutUint32 v) = v.
Proof.
  intros Hv. unfold PutUint32.
  rewrite Uint32_bytes by apply uint8_range.
  unfold uint8. rewrite !Z.shiftr_div_pow2 by lia.
  change (2 ^ 8) with 256. change (2 ^ 16) with 65536.
  change (2 ^ 24) with 16777216. change (2 ^ 32) with 4294967296 in Hv.
  Z.div_mod_to_equations. lia.
Qed.

Lemma PutUint32_top (v : Z) :
  0 <= v < 2 ^ 32 -> nth 3 (PutUint32 v) 0 = Z.shiftr v 24.
Proof.
  intros Hv. unfold PutUint32. cbn [nth]. unfold uint8.
  rewrite Z.shiftr_div_pow2 by lia.
  change (2 ^ 8) with 256. change (2 ^ 24) with 16777216.
  change (2 ^ 32) with 4294967296 in Hv.
  Z.div_mod_to_equations. lia.
Qed.

Lemma PutUint32_length (v : Z) : len (PutUint32 v) = 4.
Proof. reflexivity. Qed.

(** ** Slices *)

Lemma len_nonneg {A : Type} (l : list A) : 0 <= len l.
Proof. unfold len. lia. Qed.

Lemma slice_in_range (s : list Z) (lo hi : Z) :
  0 <= lo -> lo <= hi -> hi <= len s ->
  slice s lo hi = Ok (firstn (Z.to_nat (hi - lo)) (skipn (Z.to_nat lo) s)).
Proof.
  intros H1 H2 H3. unfold slice.
  destruct (Z.leb_spec 0 lo); [|lia].
  destruct (Z.leb_spec lo hi); [|lia].
  destruct (Z.leb_spec hi (len s)); [|lia].
  reflexivity.
Qed.

Lemma slice_out_of_range (s : list Z) (lo hi : Z) :
  lo < 0 \/ hi < lo \/ len s < hi ->
  slice s lo hi = Panic (PanicSliceBounds lo hi (len s)).
Proof.
  intros H. unfold slice.
  destruct (Z.leb_spec 0 lo); cbn [andb]; [|reflexivity].
  destruct (Z.leb_spec lo hi); cbn [andb]; [|reflexivity].
  destruct (Z.leb_spec hi (len s)); [lia|reflexivity].
Qed.

Lemma slice_length (s w : list Z) (lo hi : Z) :
  slice s lo hi = Ok w -> len w = hi - lo.
Proof.
  unfold slice.
  destruct (Z.leb_spec 0 lo); cbn [andb]; [|discriminate].
  destruct (Z.leb_spec lo hi); cbn [andb]; [|discriminate].
  destruct (Z.leb_spec hi (len s)); [|discriminate].
  intros E. injection E as <-. unfold len in *.
  rewrite length_firstn, length_skipn. lia.
Qed.

(** Writing [n] bytes at [lo] and slicing the same window gives them back. *)
Lemma slice_copy_into (s src : list Z) (lo : Z) :
  0 <= lo -> lo + len src <= len s ->
  exists s',
    copy_into s lo (lo + len src) src = Ok s' /\
    len s' = len s /\
    slice s' lo (lo + len src) = Ok src.
Proof.
  intros Hlo Hhi. pose proof (len_nonneg src) as Hsrc.
  unfold copy_into. rewrite slice_in_range by lia.
  replace (lo + len src - lo) with (len src) by lia.
  unfold len in *. rewrite Nat2Z.id.
  rewrite length_firstn, length_skipn.
  replace (Nat.min (Nat.min (List.length src) (List.length s - Z.to_nat lo))
                   (List.length src)) with (List.length src) by lia.
  rewrite firstn_all.
  eexists. split; [reflexivity|].
  assert (Hl : List.length (firstn (Z.to_nat lo) s) = Z.to_nat lo)
    by (rewrite length_firstn; lia).
  split.
  - rewrite !length_app, Hl, length_skipn. lia.
  - rewrite slice_in_range.
    + replace (lo + Z.of_nat (List.length src) - lo)
        with (Z.of_nat (List.length src)) by lia.
      rewrite Nat2Z.id.
      rewrite skipn_app, Hl, Nat.sub_diag. cbn [skipn].
      rewrite (skipn_all2 (firstn (Z.to_nat lo) s)) by lia.
      cbn [app]. rewrite firstn_app, Nat.sub_diag, firstn_all. cbn [firstn].
      rewrite app_nil_r. reflexivity.
    + lia.
    + lia.
    + unfold len. rewrite !length_app, Hl, length_skipn. lia.
Qed.

Lemma In_firstn {A : Type} (n : nat) (l : list A) (x : A) :
  In x (firstn n l) -> In x l.
Proof.
  revert l. induction n as [|n IH]; intros [|h t]; cbn; try tauto.
  intros [H | H]; [left; assumption | right; apply IH; assumption].
Qed.

Lemma In_skipn {A : Type} (n : nat) (l : list A) (x : A) :
  In x (skipn n l) -> In x l.
Proof.
  revert l. induction n as [|n IH]; intros [|h t]; cbn; try tauto.
  intros H. right. apply IH. assumption.
Qed.

Lemma slice_In (s w : list Z) (lo hi x : Z) :
  slice s lo hi = Ok w -> In x w -> In x s.
Proof.
  unfold slice. destruct (_ && _); [|discriminate].
  intros E. injection E as <-. intros H.
  eapply In_skipn, In_firstn, H.
Qed.

(** ** Memory: word accesses *)

Lemma NewMemory_boot : NewMemory 65536 = Ok bootMemory.
Proof. reflexivity. Qed.

Lemma encodeWord_range (w : Word) : 0 <= encodeWord w < 2 ^ 32.
Proof. unfold encodeWord. destruct (_ >? _); apply uint32_range. Qed.

(** The accesses never return an error value: every outcome is a normal
    return or a panic. *)
Lemma Memory_WriteWord_no_error (m : Memory) (a : Z) (w : Word) (e : errorT) :
  Memory_WriteWord m a w <> Err e.
Proof.
  unfold Memory_WriteWord, copy_into, slice.
  destruct (_ && _); discriminate.
Qed.

Lemma Memory_ReadWord_no_error (m : Memory) (a : Z) (e : errorT) :
  Memory_ReadWord m a <> Err e.
Proof.
  unfold Memory_ReadWord, slice. destruct (_ && _); discriminate.
Qed.

Lemma Memory_ReadWord_in_range (m : Memory) (a : Z) :
  0 <= a -> a + 4 <= len (data m) ->
  exists bytes,
    slice (data m) a (a + 4) = Ok bytes /\
    Memory_ReadWord m a = Ok (decodeWord (Uint32 bytes) (nth 3 bytes 0)).
Proof.
  intros Ha Hb. unfold Memory_ReadWord.
  rewrite slice_in_range by lia. eexists. split; reflexivity.
Qed.

Lemma Memory_WriteWord_out_of_range (m : Memory) (a : Z) (w : Word) :
  a < 0 \/ len (data m) < a + 4 ->
  Memory_WriteWord m a w = Panic (PanicSliceBounds a (a + 4) (len (data m))).
Proof.
  intros H. unfold Memory_WriteWord, copy_into.
  rewrite slice_out_of_range by lia. reflexivity.
Qed.

Lemma Memory_ReadWord_out_of_range (m : Memory) (a : Z) :
  a < 0 \/ len (data m) < a + 4 ->
  Memory_ReadWord m a = Panic (PanicSliceBounds a (a + 4) (len (data m))).
Proof.
  intros H. unfold Memory_ReadWord.
  rewrite slice_out_of_range by lia. reflexivity.
Qed.

(** A word write succeeds wherever a word read did. *)
Lemma Memory_WriteWord_after_read (m : Memory) (a : Z) (w w' : Word) :
  Memory_ReadWord m a = Ok w ->
  exists m', Memory_WriteWord m a w' = Ok m'.
Proof.
  unfold Memory_ReadWord, Memory_WriteWord, copy_into.
  destruct (slice (data m) a (a + 4)); try discriminate.
  intros _. eexists. reflexivity.
Qed.

Lemma Memory_WriteWord_ReadWord (m : Memory) (a : Z) (w : Word) :
  0 <= a -> a + 4 <= len (data m) ->
  exists m',
    Memory_WriteWord m a w = Ok m' /\
    size m' = size m /\
    len (data m') = len (data m) /\
    Memory_ReadWord m' a =
      Ok (decodeWord (encodeWord w) (Z.shiftr (encodeWord w) 24)).
Proof.
  intros Ha Hb.
  destruct (slice_copy_into (data m) (PutUint32 (encodeWord w)) a Ha)
    as (s' & Hcopy & Hlen & Hslice).
  { rewrite PutUint32_length. lia. }
  rewrite PutUint32_length in Hcopy, Hslice.
  unfold Memory_WriteWord. rewrite Hcopy.
  eexists. split; [reflexivity|]. cbn [size data].
  split; [reflexivity|]. split; [assumption|].
  unfold Memory_ReadWord. cbn [data]. rewrite Hslice.
  rewrite Uint32_PutUint32, PutUint32_top by apply encodeWord_range.
  reflexivity.
Qed.

Lemma cellBytes_slice (m : Memory) (a : Z) :
  0 <= a -> a + 4 <= len (data m) ->
  slice (data m) a (a + 4) = Ok (cellBytes m a).
Proof.
  intros Ha Hb. rewrite slice_in_range by lia.
  replace (a + 4 - a) with 4 by lia. reflexivity.
Qed.

Lemma Memory_ReadWord_cell (m : Memory) (a : Z) :
  0 <= a -> a + 4 <= len (data m) ->
  Memory_ReadWord m a = Ok (decodeWord (cellBits m a) (nth 3 (cellBytes m a) 0)).
Proof.
  intros Ha Hb. unfold Memory_ReadWord. rewrite cellBytes_slice by lia.
  reflexivity.
Qed.

Lemma cellBytes_top (m : Memory) (a : Z) :
  0 <= a -> nth 3 (cellBytes m a) 0 = nth (Z.to_nat (a + 3)) (data m) 0.
Proof.
  intros Ha. unfold cellBytes. rewrite nth_firstn. cbn [Nat.ltb Nat.leb].
  rewrite nth_skipn. f_equal. lia.
Qed.

Lemma IsValidAddress_true (m : Memory) (a : Z) :
  Memory_IsValidAddress m a = true <-> 0 <= a < size m.
Proof.
  unfold Memory_IsValidAddress. rewrite andb_true_iff, Z.geb_le, Z.ltb_lt. lia.
Qed.

Lemma IsValidAddress_false (m : Memory) (a : Z) :
  Memory_IsValidAddress m a = false <-> a < 0 \/ size m <= a.
Proof.
  unfold Memory_IsValidAddress. rewrite andb_false_iff, Z.geb_leb.
  rewrite Z.leb_gt, Z.ltb_ge. lia.
Qed.

(** [ReadWord] never fills the float view: it is the zero value. *)
Lemma Memory_ReadWord_float_zero (m : Memory) (a : Z) (w : Word) :
  Memory_ReadWord m a = Ok w -> F (D w) = f32_zero.
Proof.
  unfold Memory_ReadWord. destruct (slice _ _ _); try discriminate.
  intros E. injection E as <-. unfold decodeWord.
  destruct (_ >? _); reflexivity.
Qed.

Lemma bytesOk_In (m : Memory) (b : Z) :
  Memory_bytesOk m = true -> In b (data m) -> 0 <= b < 256.
Proof.
  unfold Memory_bytesOk. rewrite forallb_forall. intros H Hin.
  specialize (H b Hin). apply andb_true_iff in H. lia.
Qed.

(** On a memory of bytes, the integer view that [ReadWord] returns lies in
    [0, 2^24): it is zero for a cell that decodes as a command, and a cell
    that decodes as data has a zero top byte. *)
Lemma Memory_ReadWord_int_range (m : Memory) (a : Z) (w : Word) :
  Memory_bytesOk m = true -> Memory_ReadWord m a = Ok w ->
  0 <= I (D w) < 2 ^ 24.
Proof.
  intros Hok. unfold Memory_ReadWord.
  destruct (slice (data m) a (a + 4)) as [bytes| |] eqn:Es; try discriminate.
  intros E. injection E as <-.
  pose proof (slice_length _ _ _ _ Es) as Hlen.
  destruct bytes as [|b0 [|b1 [|b2 [|b3 [|b4 rest]]]]];
    unfold len in Hlen; cbn [List.length] in Hlen; try lia.
  assert (H0 : 0 <= b0 < 256)
    by (apply (bytesOk_In m), (slice_In _ _ _ _ _ Es); [assumption | cbn; tauto]).
  assert (H1 : 0 <= b1 < 256)
    by (apply (bytesOk_In m), (slice_In _ _ _ _ _ Es); [assumption | cbn; tauto]).
  assert (H2 : 0 <= b2 < 256)
    by (apply (bytesOk_In m), (slice_In _ _ _ _ _ Es); [assumption | cbn; tauto]).
  assert (H3 : 0 <= b3 < 256)
    by (apply (bytesOk_In m), (slice_In _ _ _ _ _ Es); [assumption | cbn; tauto]).
  rewrite Uint32_bytes by assumption. cbn [nth]. unfold decodeWord.
  change (2 ^ 24) with 16777216.
  destruct (Z.gtb_spec b3 0); cbn [I D zeroData]; [lia|].
  assert (b3 = 0) by lia. subst b3.
  unfold int32.
  change (2 ^ 8) with 256. change (2 ^ 16) with 65536.
  change (2 ^ 31) with 2147483648. change (2 ^ 32) with 4294967296.
  Z.div_mod_to_equations. lia.
Qed.

(** ** C4: word accesses at the end of the memory *)

(** C4 on the memory of the processor.  A word write at [size - 4] returns
    normally; a word write or read at [size - 3], and a read at [-1], do not
    return an error value: the slice expression panics. *)
Theorem word_access_out_of_bounds_panics :
  size bootMemory = 65536 /\
  isOk (Memory_WriteWord bootMemory (size bootMemory - 4) (Word_ofInt 1))
    = true /\
  Memory_WriteWord bootMemory (size bootMemory - 3) (Word_ofInt 1)
    = Panic (PanicSliceBounds 65533 65537 65536) /\
  Memory_ReadWord bootMemory (size bootMemory - 3)
    = Panic (PanicSliceBounds 65533 65537 65536) /\
  Memory_ReadWord bootMemory (-1) = Panic (PanicSliceBounds (-1) 3 65536).
Proof. evaluate_conjuncts. Qed.

(** ** C7: data words written and read back *)

Lemma shiftr24_nonneg (v : Z) : 0 <= v -> 0 <= Z.shiftr v 24.
Proof. intros. apply Z.shiftr_nonneg. assumption. Qed.

Lemma topByte_zero_iff (x : Z) :
  - 2 ^ 31 <= x < 2 ^ 31 -> (topByte x = 0 <-> 0 <= x < 2 ^ 24).
Proof.
  intros Hx. unfold topByte, uint32. rewrite Z.shiftr_div_pow2 by lia.
  change (2 ^ 31) with 2147483648 in *. change (2 ^ 32) with 4294967296.
  change (2 ^ 24) with 16777216.
  split; intros H; Z.div_mod_to_equations; lia.
Qed.

(** C7.  For every int32 [x], writing [x] as a data word at an address with
    [a] and [a+3] inside the memory and reading the address back gives the
    integer view [x] exactly when the top byte of [x] is zero; when the top
    byte is not zero (which is the case of every negative [x]) the word read
    is a command view: the opcode is that top byte, the other command fields
    are cut from the bits of [x], and the integer view is left at zero. *)
Theorem data_word_round_trip (m : Memory) (a x : Z) :
  size m = len (data m) -> 0 <= a -> a + 3 < size m ->
  - 2 ^ 31 <= x < 2 ^ 31 ->
  exists m' w,
    Memory_WriteWord m a (Word_ofInt x) = Ok m' /\
    Memory_ReadWord m' a = Ok w /\
    (I (D w) = x <-> topByte x = 0) /\
    (topByte x <> 0 ->
       0 < Opcode (Cmd w) /\
       w = mkWord zeroData
             (mkCommandData (topByte x)
                (uint8 (Z.land (Z.shiftr (uint32 x) 22) 3))
                (uint16 (Z.land (Z.shiftr (uint32 x) 10) 4095))
                (uint16 (Z.land (uint32 x) 1023)))) /\
    (x < 0 -> topByte x <> 0).
Proof.
  intros Hwf Ha Hb Hx.
  destruct (Memory_WriteWord_ReadWord m a (Word_ofInt x)) as
    (m' & Hw & _ & _ & Hr); [lia | lia |].
  exists m'. eexists. split; [exact Hw|]. split; [exact Hr|].
  change (encodeWord (Word_ofInt x)) with (uint32 x).
  fold (topByte x).
  assert (Htop : 0 <= topByte x)
    by (apply shiftr24_nonneg, uint32_range).
  pose proof (topByte_zero_iff x Hx) as Hz.
  unfold decodeWord.
  destruct (Z.gtb_spec (topByte x) 0) as [Hpos | Hzero].
  - cbn [I D Cmd Opcode zeroData].
    split; [|split].
    + split; intros H; [|lia]. subst x. apply Hz.
      change (2 ^ 24) with 16777216. lia.
    + intros _. split.
      * unfold uint8, topByte in *. rewrite Z.mod_small; [lia|].
        split; [lia|]. rewrite Z.shiftr_div_pow2 by lia.
        pose proof (uint32_range x) as Hu.
        change (2 ^ 8) with 256. change (2 ^ 24) with 16777216.
        change (2 ^ 32) with 4294967296 in Hu.
        Z.div_mod_to_equations. lia.
      * f_equal. f_equal. unfold uint8, topByte in *.
        rewrite Z.mod_small; [reflexivity|].
        split; [lia|]. rewrite Z.shiftr_div_pow2 by lia.
        pose proof (uint32_range x) as Hu.
        change (2 ^ 8) with 256. change (2 ^ 24) with 16777216.
        change (2 ^ 32) with 4294967296 in Hu.
        Z.div_mod_to_equations. lia.
    + intros _. lia.
  - assert (H0 : topByte x = 0) by lia.
    cbn [I D]. rewrite int32_uint32 by assumption.
    split; [|split].
    + tauto.
    + intros H. contradiction.
    + intros Hneg. apply Hz in H0. lia.
Qed.

Lemma data_word_round_trip_witness :
  (size smallMemory = len (data smallMemory) /\ 0 <= 2 /\
   2 + 3 < size smallMemory /\ - 2 ^ 31 <= -5 < 2 ^ 31) /\
  exists m' w,
    Memory_WriteWord smallMemory 2 (Word_ofInt (-5)) = Ok m' /\
    Memory_ReadWord m' 2 = Ok w /\
    (I (D w) = -5 <-> topByte (-5) = 0) /\
    (topByte (-5) <> 0 ->
       0 < Opcode (Cmd w) /\
       w = mkWord zeroData
             (mkCommandData (topByte (-5))
                (uint8 (Z.land (Z.shiftr (uint32 (-5)) 22) 3))
                (uint16 (Z.land (Z.shiftr (uint32 (-5)) 10) 4095))
                (uint16 (Z.land (uint32 (-5)) 1023)))) /\
    (-5 < 0 -> topByte (-5) <> 0).
Proof.
  split.
  - repeat split; vm_compute; congruence.
  - apply (data_word_round_trip smallMemory 2 (-5)).
    + reflexivity.
    + lia.
    + vm_compute. reflexivity.
    + lia.
Defined.

(** ** C6: command words written and read back *)

Lemma Ready_readyProcessor (s : started) :
  isReady s = true -> s = Ready (readyProcessor s).
Proof. destruct s; cbn; intros H; (reflexivity || discriminate). Qed.

(** In-range command fields survive a write followed by a read. *)
Lemma command_word_round_trip_in_range (m : Memory) (a : Z) (c : CommandData) :
  0 <= a -> a + 4 <= len (data m) ->
  1 <= Opcode c <= 255 -> 0 <= BB c <= 3 ->
  0 <= Address1 c <= 4095 -> 0 <= Address2 c <= 1023 ->
  exists m',
    Memory_WriteWord m a (Word_ofCmd c) = Ok m' /\
    Memory_ReadWord m' a = Ok (Word_ofCmd c).
Proof.
  intros Ha Hb Hop Hbb Ha1 Ha2.
  destruct (Memory_WriteWord_ReadWord m a (Word_ofCmd c) Ha Hb)
    as (m' & Hw & _ & _ & Hr).
  exists m'. split; [exact Hw|]. rewrite Hr. f_equal.
  destruct c as [op bb a1 a2]. cbn [Opcode BB Address1 Address2] in *.
  assert (Henc : encodeWord (Word_ofCmd (mkCommandData op bb a1 a2))
                 = op * 2 ^ 24 + bb * 2 ^ 22 + a1 * 2 ^ 10 + a2).
  { unfold encodeWord. cbn [Cmd Word_ofCmd Opcode BB Address1 Address2].
    destruct (Z.gtb_spec op 0); [|lia].
    rewrite !Z.shiftl_mul_pow2 by lia.
    rewrite (uint32_small (op * 2 ^ 24)) by lia.
    rewrite (uint32_small (bb * 2 ^ 22)) by lia.
    rewrite (uint32_small (a1 * 2 ^ 10)) by lia.
    rewrite (lor_high_low op (bb * 2 ^ 22) 24) by lia.
    replace (op * 2 ^ 24 + bb * 2 ^ 22) with ((op * 4 + bb) * 2 ^ 22) by lia.
    rewrite (lor_high_low (op * 4 + bb) (a1 * 2 ^ 10) 22) by lia.
    replace ((op * 4 + bb) * 2 ^ 22 + a1 * 2 ^ 10)
      with (((op * 4 + bb) * 4096 + a1) * 2 ^ 10) by lia.
    rewrite (lor_high_low _ a2 10) by lia.
    rewrite uint32_small by lia. lia. }
  rewrite Henc. unfold decodeWord, Word_ofCmd.
  set (raw := op * 2 ^ 24 + bb * 2 ^ 22 + a1 * 2 ^ 10 + a2).
  assert (Hraw : 0 <= raw < 2 ^ 32) by (unfold raw; lia).
  assert (H24 : Z.shiftr raw 24 = op).
  { rewrite Z.shiftr_div_pow2 by lia. unfold raw.
    change (2 ^ 24) with 16777216. change (2 ^ 22) with 4194304.
    change (2 ^ 10) with 1024. Z.div_mod_to_equations. lia. }
  rewrite H24. destruct (Z.gtb_spec op 0); [|lia].
  f_equal. unfold uint8, uint16.
  change 3 with (Z.ones 2). change 4095 with (Z.ones 12).
  change 1023 with (Z.ones 10). rewrite !Z.land_ones by lia.
  rewrite !Z.shiftr_div_pow2 by lia. unfold raw.
  change (2 ^ 24) with 16777216. change (2 ^ 22) with 4194304.
  change (2 ^ 10) with 1024. change (2 ^ 2) with 4. change (2 ^ 12) with 4096.
  change (2 ^ 8) with 256. change (2 ^ 16) with 65536.
  f_equal; Z.div_mod_to_equations; lia.
Qed.

(** C6 at a line the loader accepts, [k 01 00 0000 0400]: the word written
    has [Address1 = 0] and [Address2 = 0x400]; the word read back has
    [Address1 = 1], since bit 10 of [Address2] is stored in the lowest bit
    of the [Address1] field. *)
Theorem command_round_trip_fields_overlap (pf : string -> option float32) :
  let w := Word_ofCmd (mkCommandData 1 0 0 0x400) in
  let p := readyProcessor (main_start pf overlapProgram []) in
  main_start pf overlapProgram [] = Ready p /\
  match Memory_WriteWord bootMemory 0 w with
  | Ok m' => Memory_ReadWord m' 0 = Ok (Word_ofCmd (mkCommandData 1 0 1 0))
  | _ => False
  end /\
  Memory_ReadWord (memory p) 0 = Ok (Word_ofCmd (mkCommandData 1 0 1 0)) /\
  Z.land (Address1 (Cmd w)) 0xFFF = 0 /\
  Z.land (Address2 (Cmd w)) 0x3FF = 0.
Proof.
  cbv zeta. split.
  - apply Ready_readyProcessor. vm_compute. reflexivity.
  - evaluate_conjuncts.
Qed.

(** ** The fetch/decode/execute step *)

Section Stepping.

Variable pf : string -> option float32.

(** When the byte at [IP+3] is zero the word at [IP] is read as data, its
    command view is all zero, and opcode 0 is [STOP] in the dispatch table:
    the step returns without an error, sets the stop flag and changes
    nothing else. *)
Lemma fetch_data_word_halts (p : Processor) :
  0 <= IP (psw p) < size (memory p) ->
  IP (psw p) + 4 <= len (data (memory p)) ->
  nth (Z.to_nat (IP (psw p) + 3)) (data (memory p)) 0 = 0 ->
  Processor_executeNextInstruction pf p = Ret tt (set_stop p true).
Proof.
  intros Hip Hlen Htop.
  unfold Processor_executeNextInstruction.
  assert (Hv : Memory_IsValidAddress (memory p) (IP (psw p)) = true)
    by (apply IsValidAddress_true; assumption).
  rewrite Hv. cbn [negb].
  rewrite Memory_ReadWord_cell by lia.
  rewrite cellBytes_top by lia. rewrite Htop.
  reflexivity.
Qed.

Lemma set_IP_set_IP (p : Processor) (a b : Z) :
  set_IP (set_IP p a) b = set_IP p b.
Proof. reflexivity. Qed.

(** A step on a [JZ] word with [BB = 00] and a zero flag word: the handler
    stores the target in [IP], and the loop then stores [IP + 1] over it. *)
Lemma JumpZero_step (p : Processor) (w : Word) :
  Memory_IsValidAddress (memory p) (IP (psw p)) = true ->
  Memory_ReadWord (memory p) (IP (psw p)) = Ok w ->
  Opcode (Cmd w) = uint8 JZ -> BB (Cmd w) = 0 ->
  Processor_GetFlags p = 0 ->
  JumpZero_Execute (Cmd w) p = Ret tt (set_IP p (Address1 (Cmd w))) /\
  Processor_executeNextInstruction pf p =
    Ret tt (set_IP p (uint16 (Z.rem (IP (psw p) + 1) (size (memory p))))).
Proof.
  intros Hv Hr Hop Hbb Hfl. split.
  - unfold JumpZero_Execute. rewrite Hfl, Hbb. reflexivity.
  - unfold Processor_executeNextInstruction.
    rewrite Hv, Hr, Hop. cbn [negb].
    change (commandMap (uint8 JZ)) with (Some NewJumpZero).
    cbv beta iota. unfold NewJumpZero, Command_Execute, JumpZero_Execute.
    rewrite Hfl. cbn [BB Address1 Z.eqb]. rewrite Hbb.
    reflexivity.
Qed.

(** *** C2: fetching a data word *)

(** C2, amended.  When the byte at [IP+3] is zero the fetch does not fail:
    the step returns without an error, sets the stop flag and leaves the
    error flag, the instruction pointer, the flags, the registers and the
    memory as they were; a run started there ends after this one step with
    the stop flag set and the error flag clear. *)
Theorem fetch_data_word_stops (p : Processor) (fuel : nat) :
  0 <= IP (psw p) < size (memory p) ->
  IP (psw p) + 4 <= len (data (memory p)) ->
  nth (Z.to_nat (IP (psw p) + 3)) (data (memory p)) 0 = 0 ->
  stop p = false -> error p = false ->
  Processor_executeNextInstruction pf p = Ret tt (set_stop p true) /\
  stop (set_stop p true) = true /\
  error (set_stop p true) = false /\
  psw (set_stop p true) = psw p /\
  registers (set_stop p true) = registers p /\
  memory (set_stop p true) = memory p /\
  Processor_Run pf (S fuel) p = Some (Ret 1%nat (set_stop p true)).
Proof.
  intros Hip Hlen Htop Hstop Herr.
  pose proof (fetch_data_word_halts p Hip Hlen Htop) as Hstep.
  repeat split; try assumption.
  unfold Processor_Run. cbn [Run_loop]. rewrite Hstop, Herr, Hstep.
  cbn [negb andb]. destruct fuel; reflexivity.
Qed.

(** *** C10: reset with an invalid entry point *)

(** C10.  [Reset] with an address that is not valid in the memory sets the
    error flag and leaves the instruction pointer, the flags, the registers,
    the stop flag and the memory as they were; [Run] then returns at once,
    without a call of [executeNextInstruction], whatever the bound on its
    iterations. *)
Theorem Reset_invalid_ip_only_sets_error
  (p : Processor) (ip : Z) (fuel : nat) :
  Memory_IsValidAddress (memory p) ip = false ->
  Processor_Reset ip p = set_error p true /\
  error (Processor_Reset ip p) = true /\
  psw (Processor_Reset ip p) = psw p /\
  registers (Processor_Reset ip p) = registers p /\
  stop (Processor_Reset ip p) = stop p /\
  memory (Processor_Reset ip p) = memory p /\
  Processor_Run pf fuel (Processor_Reset ip p)
    = Some (Ret 0%nat (Processor_Reset ip p)).
Proof.
  intros Hinv.
  assert (E : Processor_Reset ip p = set_error p true).
  { unfold Processor_Reset. rewrite Hinv. reflexivity. }
  rewrite E. repeat split.
  unfold Processor_Run. destruct fuel; cbn [Run_loop set_error error stop];
    rewrite andb_false_r; reflexivity.
Qed.

End Stepping.

Lemma fetch_data_word_stops_witness :
  (0 <= IP (psw tinyProcessor) < size (memory tinyProcessor) /\
   IP (psw tinyProcessor) + 4 <= len (data (memory tinyProcessor)) /\
   nth (Z.to_nat (IP (psw tinyProcessor) + 3)) (data (memory tinyProcessor)) 0
     = 0 /\
   stop tinyProcessor = false /\ error tinyProcessor = false) /\
  (Processor_executeNextInstruction noFloats tinyProcessor
     = Ret tt (set_stop tinyProcessor true) /\
   stop (set_stop tinyProcessor true) = true /\
   error (set_stop tinyProcessor true) = false /\
   psw (set_stop tinyProcessor true) = psw tinyProcessor /\
   registers (set_stop tinyProcessor true) = registers tinyProcessor /\
   memory (set_stop tinyProcessor true) = memory tinyProcessor /\
   Processor_Run noFloats 3 tinyProcessor
     = Some (Ret 1%nat (set_stop tinyProcessor true))).
Proof.
  split.
  - repeat split; vm_compute; congruence.
  - apply (fetch_data_word_stops noFloats tinyProcessor 2).
    + vm_compute. split; congruence.
    + vm_compute. congruence.
    + reflexivity.
    + reflexivity.
    + reflexivity.
Defined.

(** The claim of C2 fails on the processor started on a program that only
    names its entry point: the memory is all zero, so the word at the entry
    point has a zero high byte, and the fetch there returns no error at all,
    let alone an invalid-opcode error; it sets the stop flag and not the
    error flag. *)
Lemma fetch_data_word_counterexample :
  let p := readyProcessor (main_start noFloats emptyProgram []) in
  main_start noFloats emptyProgram [] = Ready p /\
  nth (Z.to_nat (IP (psw p) + 3)) (data (memory p)) 0 = 0 /\
  ~ (exists e p', Processor_executeNextInstruction noFloats p = Fail e p') /\
  option_map stop (returned (Processor_executeNextInstruction noFloats p))
    = Some true /\
  option_map error (returned (Processor_executeNextInstruction noFloats p))
    = Some false.
Proof.
  cbv zeta.
  set (p := readyProcessor (main_start noFloats emptyProgram [])).
  assert (Hstep : Processor_executeNextInstruction noFloats p
                  = Ret tt (set_stop p true)).
  { apply fetch_data_word_halts.
    - vm_compute. split; congruence.
    - vm_compute. congruence.
    - vm_compute. reflexivity. }
  split; [apply Ready_readyProcessor; vm_compute; reflexivity|].
  split; [vm_compute; reflexivity|].
  split.
  - intros (e & p' & H). rewrite Hstep in H. discriminate.
  - split; vm_compute; reflexivity.
Qed.

Lemma Reset_invalid_ip_only_sets_error_witness :
  Memory_IsValidAddress (memory tinyProcessor) 100 = false /\
  (Processor_Reset 100 tinyProcessor = set_error tinyProcessor true /\
   error (Processor_Reset 100 tinyProcessor) = true /\
   psw (Processor_Reset 100 tinyProcessor) = psw tinyProcessor /\
   registers (Processor_Reset 100 tinyProcessor) = registers tinyProcessor /\
   stop (Processor_Reset 100 tinyProcessor) = stop tinyProcessor /\
   memory (Processor_Reset 100 tinyProcessor) = memory tinyProcessor /\
   Processor_Run noFloats 5 (Processor_Reset 100 tinyProcessor)
     = Some (Ret 0%nat (Processor_Reset 100 tinyProcessor))).
Proof.
  split.
  - reflexivity.
  - apply (Reset_invalid_ip_only_sets_error noFloats tinyProcessor 100 5).
    reflexivity.
Defined.

(** ** C1: a taken jump and the next fetch *)

(** C1 at a program the loader accepts: [JZ] with [BB = 00] and target
    [0x100] at address 0, entry point 0.  All flags are clear after the
    reset and the handler does store the target, yet after the step [IP] is
    1 and not [0x100]. *)
Theorem jump_zero_target_is_overwritten (pf : string -> option float32) :
  let p := readyProcessor (main_start pf jzProgram []) in
  main_start pf jzProgram [] = Ready p /\
  Processor_GetFlags p = 0 /\
  Memory_ReadWord (memory p) (IP (psw p)) =
    Ok (Word_ofCmd (mkCommandData JZ 0 0x100 0)) /\
  Memory_IsValidAddress (memory p) 0x100 = true /\
  ipAfter (JumpZero_Execute (mkCommandData JZ 0 0x100 0) p) = Some 0x100 /\
  ipAfter (Processor_executeNextInstruction pf p) = Some 1.
Proof.
  cbv zeta. split.
  - apply Ready_readyProcessor. vm_compute. reflexivity.
  - evaluate_conjuncts.
Qed.

(** ** C3: the conditions of [JG] and [JL] *)

Lemma GetFlags_range (p : Processor) : 0 <= Processor_GetFlags p < 2 ^ 16.
Proof.
  unfold Processor_GetFlags.
  destruct (CarryFlag (psw p)), (ZeroFlag (psw p)), (OverflowFlag (psw p)),
    (SignFlag (psw p)); vm_compute; split; congruence.
Qed.

(** As a signed 16-bit number the packed flag word is negative exactly when
    the sign flag is set. *)
Lemma signedFlags_negative_iff_sign (p : Processor) :
  signedFlags p < 0 <-> SignFlag (psw p) = true.
Proof.
  unfold signedFlags, Processor_GetFlags.
  destruct (CarryFlag (psw p)), (ZeroFlag (psw p)), (OverflowFlag (psw p)),
    (SignFlag (psw p)); vm_compute; split; congruence.
Qed.

(** [JL] never jumps: the processor is returned as it was. *)
Lemma JumpLess_never_jumps (j : CommandData) (p : Processor) :
  JumpLess_Execute j p = Ret tt p.
Proof.
  unfold JumpLess_Execute. pose proof (GetFlags_range p) as H.
  destruct (Z.ltb_spec (Processor_GetFlags p) 0); [lia | reflexivity].
Qed.

(** [JG] with [BB = 00] jumps exactly when some flag is set. *)
Lemma JumpGreater_jumps_iff_flags_nonzero (j : CommandData) (p : Processor) :
  BB j = 0 ->
  JumpGreater_Execute j p =
    if Processor_GetFlags p =? 0 then Ret tt p
    else Ret tt (set_IP p (Address1 j)).
Proof.
  intros Hbb. unfold JumpGreater_Execute. pose proof (GetFlags_range p) as H.
  destruct (Z.gtb_spec (Processor_GetFlags p) 0),
    (Z.eqb_spec (Processor_GetFlags p) 0); try lia.
  - rewrite Hbb. reflexivity.
  - reflexivity.
Qed.

(** C3 at a state with only the sign flag set.  The packed flag word is
    [0x8000], negative as a signed 16-bit number, so [JL] should jump and
    [JG] should not; the code does the opposite. *)
Theorem jump_less_greater_compare_unsigned :
  Processor_GetFlags signProcessor = 0x8000 /\
  signedFlags signProcessor = -32768 /\
  ipAfter (JumpLess_Execute (mkCommandData JL 0 0x100 0) signProcessor)
    = Some 0 /\
  ipAfter (JumpGreater_Execute (mkCommandData JG 0 0x100 0) signProcessor)
    = Some 0x100.
Proof. evaluate_conjuncts. Qed.

(** ** C5: carry and overflow of the integer instructions *)

Lemma UpdateArithmeticFlags_psw (r : Z) (c v : bool) (p : Processor) :
  psw (Processor_UpdateArithmeticFlags r c v p)
  = mkPSW (IP (psw p)) (r <? 0) c v (r =? 0).
Proof. reflexivity. Qed.

(** [ADDR]: the flags are computed from the two register values as read. *)
Lemma AddRegisters_Execute_flags (a : CommandData) (p : Processor) :
  let regDest := uint8 (Z.land (Address1 a) 7) in
  let regSrc := uint8 (Z.land (Address2 a) 7) in
  let val1 := nth (Z.to_nat regDest) (registers p) 0 in
  let val2 := nth (Z.to_nat regSrc) (registers p) 0 in
  let r := int32 (val1 + val2) in
  regDest < NUM_REGISTERS -> regSrc < NUM_REGISTERS ->
  AddRegisters_Execute a p
  = Ret tt (Processor_UpdateArithmeticFlags r
              (specAddCarry val1 val2) (specAddOverflow val1 val2 r)
              (set_registers p (store (registers p) (Z.to_nat regDest) r))).
Proof.
  cbv zeta. intros Hd Hs.
  unfold AddRegisters_Execute, bind, Processor_GetRegister,
    Processor_SetRegister, modify.
  destruct (Z.geb_spec (uint8 (Z.land (Address1 a) 7)) NUM_REGISTERS); [lia|].
  destruct (Z.geb_spec (uint8 (Z.land (Address2 a) 7)) NUM_REGISTERS); [lia|].
  reflexivity.
Qed.

(** [SUBR]: likewise. *)
Lemma SubtractRegisters_Execute_flags (s : CommandData) (p : Processor) :
  let regDest := uint8 (Z.land (Address1 s) 7) in
  let regSrc := uint8 (Z.land (Address2 s) 7) in
  let val1 := nth (Z.to_nat regDest) (registers p) 0 in
  let val2 := nth (Z.to_nat regSrc) (registers p) 0 in
  let r := int32 (val1 - val2) in
  regDest < NUM_REGISTERS -> regSrc < NUM_REGISTERS ->
  SubtractRegisters_Execute s p
  = Ret tt (Processor_UpdateArithmeticFlags r
              (specSubCarry val1 val2) (specSubOverflow val1 val2 r)
              (set_registers p (store (registers p) (Z.to_nat regDest) r))).
Proof.
  cbv zeta. intros Hd Hs.
  unfold SubtractRegisters_Execute, bind, Processor_GetRegister,
    Processor_SetRegister, modify.
  destruct (Z.geb_spec (uint8 (Z.land (Address1 s) 7)) NUM_REGISTERS); [lia|].
  destruct (Z.geb_spec (uint8 (Z.land (Address2 s) 7)) NUM_REGISTERS); [lia|].
  reflexivity.
Qed.

(** [IADD]: likewise, with the sum [r] in the place of the first operand. *)
Lemma AddInt_Execute_flags (a : CommandData) (p : Processor)
  (addr1 addr2 : Z) (w1 w2 : Word) :
  let regIndex := uint8 (Z.land (Address1 a) 7) in
  calculateAddress (BB a) (Address1 a) regIndex p = Ret addr1 p ->
  calculateAddress (BB a) (Address2 a) regIndex p = Ret addr2 p ->
  Memory_ReadWord (memory p) addr1 = Ok w1 ->
  Memory_ReadWord (memory p) addr2 = Ok w2 ->
  let b := I (D w2) in
  let r := int32 (I (D w1) + b) in
  exists m',
    Memory_WriteWord (memory p) addr1 (Word_setI w1 r) = Ok m' /\
    AddInt_Execute a p
    = Ret tt (Processor_UpdateArithmeticFlags r
                (specAddCarry r b) (specAddOverflow r b r)
                (set_memory p m')).
Proof.
  cbv zeta. intros Hc1 Hc2 H1 H2.
  destruct (Memory_WriteWord_after_read _ _ _
              (Word_setI w1 (int32 (I (D w1) + I (D w2)))) H1) as [m' Hw].
  exists m'. split; [exact Hw|].
  unfold AddInt_Execute, bind. rewrite Hc1, Hc2.
  unfold readWord, writeWord. rewrite H1, H2, Hw. reflexivity.
Qed.

(** [ISUB] once both operand addresses are resolved: the flag formulas are
    evaluated with the difference [r] in the place of the first operand,
    which [r] has replaced by then. *)
Lemma SubInt_Execute_flags (s : CommandData) (p : Processor)
  (addr1 addr2 : Z) (w1 w2 : Word) :
  let regIndex := uint8 (Z.land (Address1 s) 7) in
  calculateAddress (BB s) (Address1 s) regIndex p = Ret addr1 p ->
  calculateAddress (BB s) (Address2 s) regIndex p = Ret addr2 p ->
  Memory_ReadWord (memory p) addr1 = Ok w1 ->
  Memory_ReadWord (memory p) addr2 = Ok w2 ->
  let b := I (D w2) in
  let r := int32 (I (D w1) - b) in
  exists m',
    Memory_WriteWord (memory p) addr1 (Word_setI w1 r) = Ok m' /\
    SubInt_Execute s p
    = Ret tt (Processor_UpdateArithmeticFlags r
                (specSubCarry r b) (specSubOverflow r b r)
                (set_memory p m')).
Proof.
  cbv zeta. intros Hc1 Hc2 H1 H2.
  destruct (Memory_WriteWord_after_read _ _ _
              (Word_setI w1 (int32 (I (D w1) - I (D w2)))) H1) as [m' Hw].
  exists m'. split; [exact Hw|].
  unfold SubInt_Execute, bind. rewrite Hc1, Hc2.
  unfold readWord, writeWord. rewrite H1, H2, Hw. reflexivity.
Qed.

(** For operands as [ReadWord] returns them on a memory of bytes, the
    formulas the code evaluates for [IADD] agree with those of the
    specification: neither operand is negative and the sum stays below
    [2^25], so the carry and the overflow are false either way. *)
Lemma AddInt_formulas_agree (a b : Z) :
  0 <= a < 2 ^ 24 -> 0 <= b < 2 ^ 24 ->
  let r := int32 (a + b) in
  specAddCarry r b = specAddCarry a b /\
  specAddOverflow r b r = specAddOverflow a b r.
Proof.
  cbv zeta. intros Ha Hb.
  assert (Hr : int32 (a + b) = a + b).
  { unfold int32. change (2 ^ 24) with 16777216 in *.
    change (2 ^ 31) with 2147483648. change (2 ^ 32) with 4294967296.
    Z.div_mod_to_equations. lia. }
  rewrite Hr. change (2 ^ 24) with 16777216 in *.
  unfold specAddCarry, specAddOverflow.
  rewrite (uint32_small (a + b)), (uint32_small a), (uint32_small b)
    by (change (2 ^ 32) with 4294967296; lia).
  rewrite (uint32_small (a + b + b)), (uint32_small (a + b))
    by (change (2 ^ 32) with 4294967296; lia).
  split.
  - destruct (Z.gtb_spec (a + b + b) 2147483647),
      (Z.gtb_spec (a + b) 2147483647); try lia; reflexivity.
  - destruct (Z.ltb_spec (a + b) 0); [lia|].
    destruct (Z.ltb_spec b 0); [lia|].
    destruct (Z.ltb_spec a 0); [lia|].
    rewrite !andb_false_r. reflexivity.
Qed.

(** For such operands the overflow of [ISUB] agrees as well, but the carry
    the code computes is [b <= a < 2b] where the specification has
    [a < b]. *)
Lemma SubInt_formulas (a b : Z) :
  0 <= a < 2 ^ 24 -> 0 <= b < 2 ^ 24 ->
  let r := int32 (a - b) in
  specSubOverflow r b r = specSubOverflow a b r /\
  specSubCarry r b = ((b <=? a) && (a <? 2 * b)) /\
  specSubCarry a b = (a <? b).
Proof.
  cbv zeta. intros Ha Hb.
  assert (Hr : int32 (a - b) = a - b).
  { unfold int32. change (2 ^ 24) with 16777216 in *.
    change (2 ^ 31) with 2147483648. change (2 ^ 32) with 4294967296.
    Z.div_mod_to_equations. lia. }
  rewrite Hr. change (2 ^ 24) with 16777216 in *.
  unfold specSubCarry, specSubOverflow.
  rewrite (uint32_small a), (uint32_small b)
    by (change (2 ^ 32) with 4294967296; lia).
  split; [|split].
  - destruct (Z.ltb_spec b 0); [lia|].
    destruct (Z.gtb_spec b 0), (Z.ltb_spec (a - b) 0), (Z.gtb_spec (a - b) 0),
      (Z.ltb_spec a 0), (Z.gtb_spec a 0); try lia; reflexivity.
  - destruct (Z.leb_spec b a).
    + rewrite uint32_small by (change (2 ^ 32) with 4294967296; lia).
      cbn [andb].
      destruct (Z.ltb_spec (a - b) b), (Z.ltb_spec a (2 * b)); try lia;
        reflexivity.
    + cbn [andb]. unfold uint32. change (2 ^ 32) with 4294967296.
      destruct (Z.ltb_spec ((a - b) mod 4294967296) b); [|reflexivity].
      exfalso. Z.div_mod_to_equations. lia.
  - reflexivity.
Qed.

(** C5 at [ISUB] with operands 3 and 2.  The borrow formula gives
    [uint32(3) < uint32(2)], false; the code compares the difference, which
    has already replaced the first operand, with the second operand and sets
    the carry flag. *)
Theorem sub_int_carry_uses_result (pf : string -> option float32) :
  let p := readyProcessor (main_start pf isubProgram []) in
  let c := mkCommandData ISUB 0 0x100 0x104 in
  main_start pf isubProgram [] = Ready p /\
  Memory_ReadWord (memory p) (IP (psw p)) = Ok (Word_ofCmd c) /\
  Memory_ReadWord (memory p) 0x100 = Ok (Word_ofInt 3) /\
  Memory_ReadWord (memory p) 0x104 = Ok (Word_ofInt 2) /\
  specSubCarry 3 2 = false /\
  pswAfter (SubInt_Execute c p) = Some (mkPSW 0 false true false false) /\
  pswAfter (Processor_executeNextInstruction pf p)
    = Some (mkPSW 1 false true false false).
Proof.
  cbv zeta. split.
  - apply Ready_readyProcessor. vm_compute. reflexivity.
  - evaluate_conjuncts.
Qed.

(** ** C8: division *)

(** Address resolution reads the registers and changes nothing. *)
Lemma calculateAddress_keeps (bb addr regIndex : Z) (p : Processor) :
  (exists ea, calculateAddress bb addr regIndex p = Ret ea p) \/
  (exists e, calculateAddress bb addr regIndex p = Fail e p).
Proof.
  unfold calculateAddress, bind, Processor_GetRegister, ret.
  destruct (negb (Z.land bb 2 =? 0)).
  - destruct (regIndex >=? NUM_REGISTERS); [right; eexists; reflexivity|].
    destruct (negb (Z.land bb 1 =? 0)); left; eexists; reflexivity.
  - destruct (negb (Z.land bb 1 =? 0)); left; eexists; reflexivity.
Qed.

(** [IDIV] with a zero divisor: the instruction sets the error flag and
    returns the division error before any write. *)
Lemma DivInt_Execute_zero_divisor (d : CommandData) (p : Processor)
  (addr1 addr2 : Z) (w1 w2 : Word) :
  let regIndex := uint8 (Z.land (Address1 d) 7) in
  calculateAddress (BB d) (Address1 d) regIndex p = Ret addr1 p ->
  calculateAddress (BB d) (Address2 d) regIndex p = Ret addr2 p ->
  Memory_ReadWord (memory p) addr1 = Ok w1 ->
  Memory_ReadWord (memory p) addr2 = Ok w2 ->
  I (D w2) = 0 ->
  DivInt_Execute d p = Fail ErrDivisionByZero (set_error p true) /\
  memory (set_error p true) = memory p.
Proof.
  cbv zeta. intros Hc1 Hc2 H1 H2 Hz. split; [|reflexivity].
  unfold DivInt_Execute, bind. rewrite Hc1, Hc2.
  unfold readWord. rewrite H1, H2, Hz. reflexivity.
Qed.

(** [IDIV] with a nonzero divisor: the truncating quotient of the two
    integer views, wrapped to 32 bits, is written to the destination and
    sets the sign and zero flags; carry and overflow are cleared. *)
Lemma DivInt_Execute_quotient (d : CommandData) (p : Processor)
  (addr1 addr2 : Z) (w1 w2 : Word) :
  let regIndex := uint8 (Z.land (Address1 d) 7) in
  calculateAddress (BB d) (Address1 d) regIndex p = Ret addr1 p ->
  calculateAddress (BB d) (Address2 d) regIndex p = Ret addr2 p ->
  Memory_ReadWord (memory p) addr1 = Ok w1 ->
  Memory_ReadWord (memory p) addr2 = Ok w2 ->
  I (D w2) <> 0 ->
  let q := int32 (Z.quot (I (D w1)) (I (D w2))) in
  exists m',
    Memory_WriteWord (memory p) addr1 (Word_setI w1 q) = Ok m' /\
    DivInt_Execute d p
    = Ret tt (Processor_UpdateArithmeticFlags q false false
                (set_memory p m')).
Proof.
  cbv zeta. intros Hc1 Hc2 H1 H2 Hnz.
  destruct (Memory_WriteWord_after_read _ _ _
              (Word_setI w1 (int32 (Z.quot (I (D w1)) (I (D w2))))) H1)
    as [m' Hw].
  exists m'. split; [exact Hw|].
  unfold DivInt_Execute, bind. rewrite Hc1, Hc2.
  unfold readWord, writeWord. rewrite H1, H2.
  destruct (Z.eqb_spec (I (D w2)) 0); [contradiction|].
  rewrite Hw. reflexivity.
Qed.

Lemma readWord_float_zero (a : Z) (p p' : Processor) (w : Word) :
  readWord a p = Ret w p' -> F (D w) = f32_zero.
Proof.
  unfold readWord.
  destruct (Memory_ReadWord (memory p) a) eqn:E; try discriminate.
  intros H. injection H as <- _. eapply Memory_ReadWord_float_zero, E.
Qed.

(** [RDIV] whenever both operands can be read, whatever they hold: the
    division error, the error flag set, and no write. *)
Lemma DivFloat_Execute_fails (d : CommandData) (p : Processor)
  (addr1 addr2 : Z) (w1 w2 : Word) :
  let regIndex := uint8 (Z.land (Address1 d) 7) in
  calculateAddress (BB d) (Address1 d) regIndex p = Ret addr1 p ->
  calculateAddress (BB d) (Address2 d) regIndex p = Ret addr2 p ->
  Memory_ReadWord (memory p) addr1 = Ok w1 ->
  Memory_ReadWord (memory p) addr2 = Ok w2 ->
  DivFloat_Execute d p = Fail ErrDivisionByZero (set_error p true) /\
  memory (set_error p true) = memory p.
Proof.
  cbv zeta. intros Hc1 Hc2 H1 H2. split; [|reflexivity].
  unfold DivFloat_Execute, bind. rewrite Hc1, Hc2.
  unfold readWord. rewrite H1, H2.
  rewrite (Memory_ReadWord_float_zero _ _ _ H2). reflexivity.
Qed.

(** [RDIV] never returns normally: whenever both operands can be read, the
    divisor it tests is the zero value and it reports a division by zero. *)
Lemma DivFloat_never_returns (d : CommandData) (p p' : Processor) (u : unit) :
  DivFloat_Execute d p <> Ret u p'.
Proof.
  unfold DivFloat_Execute, bind.
  destruct (calculateAddress _ _ _ p) as [addr1 p1| |]; try discriminate.
  destruct (calculateAddress _ _ _ p1) as [addr2 p2| |]; try discriminate.
  destruct (readWord addr1 p2) as [word1 p3| |]; try discriminate.
  destruct (readWord addr2 p3) as [word2 p4| |] eqn:E2; try discriminate.
  rewrite (readWord_float_zero _ _ _ _ E2).
  cbn. discriminate.
Qed.

(** C8 at [RDIV] on two cells that hold [0x00800000], the encoding of the
    float [2^-126]: the divisor is not zero as a float, yet the instruction
    fails with a division by zero and sets the error flag.  The destination
    keeps its bytes. *)
Theorem div_float_always_divides_by_zero (pf : string -> option float32) :
  let p := readyProcessor (main_start pf rdivProgram []) in
  let c := mkCommandData RDIV 0 0x100 0x104 in
  main_start pf rdivProgram [] = Ready p /\
  Memory_ReadWord (memory p) (IP (psw p)) = Ok (Word_ofCmd c) /\
  cellBits (memory p) 0x104 = 0x00800000 /\
  Float32frombits (cellBits (memory p) 0x104)
    = S754_finite false 8388608 (-149) /\
  f32_eqb (Float32frombits (cellBits (memory p) 0x104)) f32_zero = false /\
  failure (DivFloat_Execute c p) = Some ErrDivisionByZero /\
  failure (Processor_executeNextInstruction pf p)
    = Some (ErrExecuting 0 ErrDivisionByZero) /\
  option_map (fun q => cellBits (memory q) 0x100)
             (failedProcessor (DivFloat_Execute c p)) = Some 0x00800000.
Proof.
  cbv zeta. split.
  - apply Ready_readyProcessor. vm_compute. reflexivity.
  - evaluate_conjuncts.
Qed.

(** ** C9: the entry point directive of the loader *)

Lemma ParseUint_loop_nonneg (s : string) (maxVal n v : Z) :
  0 <= n -> ParseUint_loop s 16 maxVal n = inr v -> 0 <= v.
Proof.
  revert n. induction s as [|ch rest IH]; intros n Hn; cbn [ParseUint_loop].
  - intros E. injection E as <-. assumption.
  - set (c := byteOf ch).
    destruct (Z.leb_spec 48 c); cbn [andb].
    + destruct (Z.leb_spec c 57); cbn [andb].
      * destruct (c - 48 >=? 16); [discriminate|].
        destruct (n >=? _); [discriminate|].
        destruct (_ || _); [discriminate|]. apply IH. lia.
      * destruct (Z.leb_spec 97 (lower c)); cbn [andb]; [|discriminate].
        destruct (lower c <=? 122); [|discriminate].
        destruct (_ >=? 16); [discriminate|].
        destruct (n >=? _); [discriminate|].
        destruct (_ || _); [discriminate|]. apply IH. lia.
    + destruct (Z.leb_spec 97 (lower c)); cbn [andb]; [|discriminate].
      destruct (lower c <=? 122); [|discriminate].
      destruct (_ >=? 16); [discriminate|].
      destruct (n >=? _); [discriminate|].
      destruct (_ || _); [discriminate|]. apply IH. lia.
Qed.

(** A successful sixteen-bit signed hexadecimal parse lies in the [int16]
    range: no text parses to a value of [0x8000] or more. *)
Lemma ParseInt_16_range (s : string) (v : Z) :
  ParseInt s 16 16 = inr v -> - 32768 <= v < 32768.
Proof.
  unfold ParseInt. destruct s as [|ch rest]; [discriminate|].
  destruct (ParseUint _ 16 16) as [[|]|un] eqn:Eu; try discriminate.
  assert (Hun : 0 <= un).
  { unfold ParseUint in Eu.
    destruct (if (Ascii.eqb ch "+" || Ascii.eqb ch "-")%bool then rest
              else String ch rest); [discriminate|].
    eapply ParseUint_loop_nonneg; [|exact Eu]. lia. }
  change (2 ^ (16 - 1)) with 32768.
  destruct (Ascii.eqb ch "-"); cbn [negb andb].
  - destruct (Z.gtb_spec un 32768); [discriminate|].
    intros E. injection E as <-. lia.
  - destruct (Z.geb_spec un 32768); [discriminate|].
    intros E. injection E as <-. lia.
Qed.

(** C9 at a file of two valid directives, [e 8000] and [s]: [0x8000] is a
    valid address of the memory, yet the loader returns a parse error for
    line 1 (the value is out of the range of the sixteen-bit signed parse)
    and [main] exits with status 1; with [e 7FFF] the entry point is
    returned. *)
Theorem loader_rejects_high_entry_point (pf : string -> option float32) :
  Memory_IsValidAddress bootMemory 0x8000 = true /\
  loadErrorOf (readProgramFromFile pf highEntryProgram bootMemory)
    = Some (mkCommandError 1 "e 8000" (MsgInvalidInitialIPFormat ErrRange)) /\
  entryPointOf (readProgramFromFile pf highEntryProgram bootMemory) = None /\
  isReady (main_start pf highEntryProgram []) = false /\
  entryPointOf (readProgramFromFile pf ["e 7FFF"; "s"]%string bootMemory)
    = Some 0x7FFF.
Proof. evaluate_conjuncts. Qed.

(** ** Bytes of the memory *)

Lemma nth_splice (s src : list Z) (k i : nat) (d : Z) :
  (k + List.length src <= List.length s)%nat ->
  nth i (firstn k s ++ src ++ skipn (k + List.length src) s) d
  = if (i <? k)%nat then nth i s d
    else if (i <? k + List.length src)%nat then nth (i - k) src d
    else nth i s d.
Proof.
  intros Hk.
  assert (Hl : List.length (firstn k s) = k) by (rewrite length_firstn; lia).
  destruct (Nat.ltb_spec i k) as [H1 | H1].
  - rewrite app_nth1 by lia. rewrite nth_firstn.
    destruct (Nat.ltb_spec i k); [reflexivity | lia].
  - rewrite app_nth2 by lia. rewrite Hl.
    destruct (Nat.ltb_spec i (k + List.length src)) as [H2 | H2].
    + rewrite app_nth1 by lia. reflexivity.
    + rewrite app_nth2 by lia. rewrite nth_skipn. f_equal. lia.
Qed.

Lemma cellBytes_bytes (m : Memory) (a : Z) :
  0 <= a -> a + 4 <= len (data m) ->
  cellBytes m a
  = [byteAt m a; byteAt m (a + 1); byteAt m (a + 2); byteAt m (a + 3)].
Proof.
  intros Ha Hb. unfold cellBytes, byteAt, len in *.
  apply (nth_ext _ _ 0 0).
  - rewrite length_firstn, length_skipn. cbn [List.length]. lia.
  - intros n Hn. rewrite length_firstn, length_skipn in Hn.
    rewrite nth_firstn, nth_skipn.
    destruct n as [|[|[|[|n]]]]; cbn [Nat.ltb Nat.leb nth]; try lia;
      f_equal; lia.
Qed.

Lemma Memory_ReadWord_bytes (m : Memory) (a : Z) :
  0 <= a -> a + 4 <= len (data m) ->
  Memory_ReadWord m a
  = Ok (decodeWord
          (Uint32 [byteAt m a; byteAt m (a + 1); byteAt m (a + 2);
                   byteAt m (a + 3)])
          (byteAt m (a + 3))).
Proof.
  intros Ha Hb. rewrite Memory_ReadWord_cell by assumption.
  unfold cellBits. rewrite cellBytes_bytes by assumption. reflexivity.
Qed.

(** What a word write does, byte by byte. *)
Lemma Memory_WriteWord_bytes (m m' : Memory) (a : Z) (w : Word) :
  Memory_WriteWord m a w = Ok m' ->
  0 <= a /\ a + 4 <= len (data m) /\
  size m' = size m /\ len (data m') = len (data m) /\
  errorCount m' = errorCount m /\ accessCount m' = accessCount m + 1 /\
  initialized m' = initialized m /\
  forall i, 0 <= i ->
    byteAt m' i
    = if (a <=? i) && (i <? a + 4)
      then nth (Z.to_nat (i - a)) (PutUint32 (encodeWord w)) 0
      else byteAt m i.
Proof.
  unfold Memory_WriteWord, copy_into.
  destruct (slice (data m) a (a + 4)) as [window| |] eqn:Es; try discriminate.
  pose proof (slice_length _ _ _ _ Es) as Hwin.
  assert (Hrange : 0 <= a /\ a + 4 <= len (data m)).
  { unfold slice in Es.
    destruct (Z.leb_spec 0 a); cbn [andb] in Es; [|discriminate].
    destruct (Z.leb_spec a (a + 4)); cbn [andb] in Es; [|discriminate].
    destruct (Z.leb_spec (a + 4) (len (data m))); [|discriminate]. lia. }
  destruct Hrange as [Ha Hb].
  assert (Hbytes : List.length (PutUint32 (encodeWord w)) = 4%nat)
    by reflexivity.
  remember (PutUint32 (encodeWord w)) as bytes eqn:Eb.
  assert (Hn : Nat.min (List.length window) (List.length bytes) = 4%nat)
    by (unfold len in Hwin; lia).
  rewrite Hn. rewrite <- Hbytes at 1. rewrite firstn_all.
  intros E. injection E as <-.
  cbn [size data errorCount accessCount initialized].
  unfold len in *.
  split; [assumption|]. split; [assumption|]. split; [reflexivity|].
  split.
  { rewrite !length_app, length_firstn, length_skipn. lia. }
  split; [reflexivity|]. split; [reflexivity|]. split; [reflexivity|].
  intros i Hi. unfold byteAt. cbn [data].
  rewrite <- Hbytes at 1.
  rewrite nth_splice by lia. rewrite Hbytes.
  destruct (Nat.ltb_spec (Z.to_nat i) (Z.to_nat a)).
  - destruct (Z.leb_spec a i); [lia|]. reflexivity.
  - destruct (Z.leb_spec a i); [|lia]. cbn [andb].
    destruct (Nat.ltb_spec (Z.to_nat i) (Z.to_nat a + 4)),
      (Z.ltb_spec i (a + 4)); try lia.
    f_equal. lia.
Qed.

Lemma byteAt_In (m : Memory) (i : Z) :
  0 <= i < len (data m) -> In (byteAt m i) (data m).
Proof.
  intros H. unfold byteAt, len in *. apply nth_In. lia.
Qed.

Lemma bytesOk_byteAt (m : Memory) (i : Z) :
  Memory_bytesOk m = true -> 0 <= i < len (data m) -> 0 <= byteAt m i < 256.
Proof.
  intros Hok H. apply (bytesOk_In m); [assumption|]. apply byteAt_In, H.
Qed.

Lemma bytesOk_of_byteAt (m : Memory) :
  (forall i, 0 <= i < len (data m) -> 0 <= byteAt m i < 256) ->
  Memory_bytesOk m = true.
Proof.
  intros H. unfold Memory_bytesOk. apply forallb_forall. intros x Hin.
  destruct (In_nth _ _ 0 Hin) as (n & Hn & Hx).
  specialize (H (Z.of_nat n)). unfold byteAt, len in H.
  rewrite Nat2Z.id, Hx in H.
  apply andb_true_iff. rewrite Z.leb_le, Z.ltb_lt. apply H. lia.
Qed.

Lemma PutUint32_nth_range (v : Z) (n : nat) :
  0 <= nth n (PutUint32 v) 0 < 256.
Proof.
  unfold PutUint32.
  destruct n as [|[|[|[|n]]]]; cbn [nth]; try apply uint8_range.
  destruct n; lia.
Qed.

(** ** Word writes: what they change and what they keep *)

(** A word write changes the four bytes at its address and nothing else: a
    word read at an address that does not overlap them returns what it
    returned before, the size is kept, the access counter goes up by one
    and the error counter is kept. *)
Theorem WriteWord_keeps_disjoint_words
  (m m' : Memory) (a b : Z) (w : Word) :
  Memory_WriteWord m a w = Ok m' ->
  b + 4 <= a \/ a + 4 <= b ->
  Memory_ReadWord m' b = Memory_ReadWord m b /\
  size m' = size m /\ len (data m') = len (data m) /\
  accessCount m' = accessCount m + 1 /\ errorCount m' = errorCount m.
Proof.
  intros Hw Hdis.
  destruct (Memory_WriteWord_bytes _ _ _ _ Hw)
    as (Ha & Hb & Hsize & Hlen & Herr & Hacc & _ & Hbytes).
  split; [|repeat split; assumption].
  destruct (Z.lt_ge_cases b 0) as [Hneg | Hnn].
  - rewrite !Memory_ReadWord_out_of_range by lia. rewrite Hlen. reflexivity.
  - destruct (Z.lt_ge_cases (len (data m)) (b + 4)) as [Hout | Hin].
    + rewrite !Memory_ReadWord_out_of_range by lia. rewrite Hlen. reflexivity.
    + rewrite !Memory_ReadWord_bytes by lia.
      rewrite !Hbytes by lia.
      destruct (Z.leb_spec a b), (Z.ltb_spec b (a + 4)),
        (Z.leb_spec a (b + 1)), (Z.ltb_spec (b + 1) (a + 4)),
        (Z.leb_spec a (b + 2)), (Z.ltb_spec (b + 2) (a + 4)),
        (Z.leb_spec a (b + 3)), (Z.ltb_spec (b + 3) (a + 4));
        try lia; reflexivity.
Qed.

Lemma Memory_WriteWord_bytesOk (m m' : Memory) (a : Z) (w : Word) :
  Memory_bytesOk m = true ->
  Memory_WriteWord m a w = Ok m' ->
  Memory_bytesOk m' = true.
Proof.
  intros Hok Hw.
  destruct (Memory_WriteWord_bytes _ _ _ _ Hw)
    as (Ha & Hb & _ & Hlen & _ & _ & _ & Hbytes).
  apply bytesOk_of_byteAt. intros i Hi. rewrite Hbytes by lia.
  destruct ((a <=? i) && (i <? a + 4)).
  - apply PutUint32_nth_range.
  - apply bytesOk_byteAt; [assumption | lia].
Qed.

(** A word write keeps the memory an array of bytes. *)
Theorem WriteWord_keeps_bytes (m m' : Memory) (a : Z) (w : Word) :
  Memory_bytesOk m = true ->
  Memory_WriteWord m a w = Ok m' ->
  Memory_bytesOk m' = true.
Proof. apply Memory_WriteWord_bytesOk. Qed.

Lemma uint32_int32 (x : Z) : 0 <= x < 2 ^ 32 -> uint32 (int32 x) = x.
Proof.
  intros Hx. unfold int32, uint32.
  change (2 ^ 31) with 2147483648. change (2 ^ 32) with 4294967296 in *.
  Z.div_mod_to_equations. lia.
Qed.

Lemma PutUint32_Uint32 (b0 b1 b2 b3 : Z) :
  0 <= b0 < 256 -> 0 <= b1 < 256 -> 0 <= b2 < 256 -> 0 <= b3 < 256 ->
  PutUint32 (Uint32 [b0; b1; b2; b3]) = [b0; b1; b2; b3].
Proof.
  intros H0 H1 H2 H3. rewrite Uint32_bytes by assumption.
  unfold PutUint32, uint8. rewrite !Z.shiftr_div_pow2 by lia.
  change (2 ^ 8) with 256. change (2 ^ 16) with 65536.
  change (2 ^ 24) with 16777216.
  repeat f_equal; Z.div_mod_to_equations; lia.
Qed.

(** Encoding the word decoded from four bytes gives their 32-bit value
    back. *)
Lemma encodeWord_decodeWord (b0 b1 b2 b3 : Z) :
  0 <= b0 < 256 -> 0 <= b1 < 256 -> 0 <= b2 < 256 -> 0 <= b3 < 256 ->
  encodeWord (decodeWord (Uint32 [b0; b1; b2; b3]) b3)
  = Uint32 [b0; b1; b2; b3].
Proof.
  intros H0 H1 H2 H3. rewrite Uint32_bytes by assumption.
  set (raw := b0 + b1 * 2 ^ 8 + b2 * 2 ^ 16 + b3 * 2 ^ 24).
  assert (Hraw : 0 <= raw < 2 ^ 32) by (unfold raw; lia).
  unfold decodeWord. destruct (Z.gtb_spec b3 0) as [Hpos | Hzero].
  - assert (H24 : Z.shiftr raw 24 = b3).
    { rewrite Z.shiftr_div_pow2 by lia. unfold raw.
      change (2 ^ 8) with 256. change (2 ^ 16) with 65536.
      change (2 ^ 24) with 16777216. Z.div_mod_to_equations. lia. }
    unfold encodeWord. cbn [Cmd Opcode BB Address1 Address2].
    rewrite H24.
    assert (E8 : uint8 b3 = b3)
      by (unfold uint8; apply Z.mod_small; change (2 ^ 8) with 256; lia).
    rewrite !E8.
    destruct (Z.gtb_spec b3 0); [|lia].
    set (bb := uint8 (Z.land (Z.shiftr raw 22) 3)).
    set (a1 := uint16 (Z.land (Z.shiftr raw 10) 4095)).
    set (a2 := uint16 (Z.land raw 1023)).
    assert (Ebb : bb = (raw / 2 ^ 22) mod 4).
    { unfold bb, uint8. change 3 with (Z.ones 2).
      rewrite Z.land_ones, Z.shiftr_div_pow2 by lia.
      change (2 ^ 2) with 4. change (2 ^ 8) with 256.
      Z.div_mod_to_equations. lia. }
    assert (Ea1 : a1 = (raw / 2 ^ 10) mod 4096).
    { unfold a1, uint16. change 4095 with (Z.ones 12).
      rewrite Z.land_ones, Z.shiftr_div_pow2 by lia.
      change (2 ^ 12) with 4096. change (2 ^ 16) with 65536.
      Z.div_mod_to_equations. lia. }
    assert (Ea2 : a2 = raw mod 1024).
    { unfold a2, uint16. change 1023 with (Z.ones 10).
      rewrite Z.land_ones by lia.
      change (2 ^ 10) with 1024. change (2 ^ 16) with 65536.
      Z.div_mod_to_equations. lia. }
    assert (Hbb : 0 <= bb < 4) by (rewrite Ebb; apply Z.mod_pos_bound; lia).
    assert (Ha1 : 0 <= a1 < 4096)
      by (rewrite Ea1; apply Z.mod_pos_bound; lia).
    assert (Ha2 : 0 <= a2 < 1024)
      by (rewrite Ea2; apply Z.mod_pos_bound; lia).
    rewrite !Z.shiftl_mul_pow2 by lia.
    rewrite (uint32_small (b3 * 2 ^ 24)) by lia.
    rewrite (uint32_small (bb * 2 ^ 22)) by lia.
    rewrite (uint32_small (a1 * 2 ^ 10)) by lia.
    rewrite (lor_high_low b3 (bb * 2 ^ 22) 24) by lia.
    replace (b3 * 2 ^ 24 + bb * 2 ^ 22) with ((b3 * 4 + bb) * 2 ^ 22) by lia.
    rewrite (lor_high_low (b3 * 4 + bb) (a1 * 2 ^ 10) 22) by lia.
    replace ((b3 * 4 + bb) * 2 ^ 22 + a1 * 2 ^ 10)
      with (((b3 * 4 + bb) * 4096 + a1) * 2 ^ 10) by lia.
    rewrite (lor_high_low _ a2 10) by lia.
    rewrite uint32_small by lia.
    rewrite Ebb, Ea1, Ea2. unfold raw.
    change (2 ^ 8) with 256. change (2 ^ 16) with 65536.
    change (2 ^ 24) with 16777216. change (2 ^ 22) with 4194304.
    change (2 ^ 10) with 1024.
    Z.div_mod_to_equations. lia.
  - unfold encodeWord. cbn [Cmd Opcode zeroCommandData D I].
    apply uint32_int32. assumption.
Qed.

Lemma Memory_write_back (m m' : Memory) (a : Z) (w : Word) :
  Memory_bytesOk m = true ->
  Memory_ReadWord m a = Ok w ->
  Memory_WriteWord m a w = Ok m' ->
  data m' = data m.
Proof.
  intros Hok Hr Hw.
  destruct (Memory_WriteWord_bytes _ _ _ _ Hw)
    as (Ha & Hb & _ & Hlen & _ & _ & _ & Hbytes).
  rewrite Memory_ReadWord_bytes in Hr by lia. injection Hr as <-.
  assert (H0 := bytesOk_byteAt m a Hok).
  assert (H1 := bytesOk_byteAt m (a + 1) Hok).
  assert (H2 := bytesOk_byteAt m (a + 2) Hok).
  assert (H3 := bytesOk_byteAt m (a + 3) Hok).
  rewrite encodeWord_decodeWord in Hbytes by lia.
  rewrite PutUint32_Uint32 in Hbytes by lia.
  apply (nth_ext _ _ 0 0); [unfold len in Hlen; lia|].
  intros n Hn. specialize (Hbytes (Z.of_nat n)).
  unfold byteAt in Hbytes at 1 6. rewrite Nat2Z.id in Hbytes.
  rewrite Hbytes by lia.
  destruct (Z.leb_spec a (Z.of_nat n)); cbn [andb]; [|reflexivity].
  destruct (Z.ltb_spec (Z.of_nat n) (a + 4)); [|reflexivity].
  unfold byteAt.
  assert (Hcases : Z.of_nat n = a \/ Z.of_nat n = a + 1 \/
                   Z.of_nat n = a + 2 \/ Z.of_nat n = a + 3) by lia.
  destruct Hcases as [E | [E | [E | E]]]; rewrite E;
    [ replace (a - a) with 0 by lia
    | replace (a + 1 - a) with 1 by lia
    | replace (a + 2 - a) with 2 by lia
    | replace (a + 3 - a) with 3 by lia ];
    cbn [Z.to_nat Pos.to_nat Pos.iter_op Nat.add nth];
    rewrite <- E, Nat2Z.id; reflexivity.
Qed.

(** Writing back the word that was just read leaves every byte of the
    memory as it was: decoding and encoding a cell lose nothing. *)
Theorem ReadWord_WriteWord_restores (m m' : Memory) (a : Z) (w : Word) :
  Memory_bytesOk m = true ->
  Memory_ReadWord m a = Ok w ->
  Memory_WriteWord m a w = Ok m' ->
  data m' = data m.
Proof. apply Memory_write_back. Qed.

Lemma land_3 (x : Z) : Z.land x 3 = x mod 2 ^ 2.
Proof. apply (Z.land_ones x 2). lia. Qed.

Lemma land_4095 (x : Z) : Z.land x 4095 = x mod 2 ^ 12.
Proof. apply (Z.land_ones x 12). lia. Qed.

Lemma land_1023 (x : Z) : Z.land x 1023 = x mod 2 ^ 10.
Proof. apply (Z.land_ones x 10). lia. Qed.

(** ** Word reads: the two views *)

(** On a memory of bytes a word read fills exactly one view.  Either the
    top byte of the cell is zero and the word is data: the command view is
    all zero and the integer lies in [0, 2^24).  Or it is a command: the
    data view is zero, the opcode is the top byte, between 1 and 255, and
    the mode and address fields are within 2, 12 and 10 bits.  No read
    returns a negative integer or a nonzero float. *)
Theorem ReadWord_views (m : Memory) (a : Z) (w : Word) :
  Memory_bytesOk m = true ->
  Memory_ReadWord m a = Ok w ->
  F (D w) = f32_zero /\
  ((byteAt m (a + 3) = 0 /\ Cmd w = zeroCommandData /\
    0 <= I (D w) < 2 ^ 24 /\ I (D w) = cellBits m a) \/
   (D w = zeroData /\ Opcode (Cmd w) = byteAt m (a + 3) /\
    1 <= Opcode (Cmd w) <= 255 /\ 0 <= BB (Cmd w) <= 3 /\
    0 <= Address1 (Cmd w) <= 4095 /\ 0 <= Address2 (Cmd w) <= 1023)).
Proof.
  intros Hok Hr.
  split; [eapply Memory_ReadWord_float_zero; eassumption|].
  pose proof (Memory_ReadWord_int_range m a w Hok Hr) as Hint.
  assert (Hrange : 0 <= a /\ a + 4 <= len (data m)).
  { unfold Memory_ReadWord, slice in Hr.
    destruct (Z.leb_spec 0 a); cbn [andb] in Hr; [|discriminate].
    destruct (Z.leb_spec a (a + 4)); cbn [andb] in Hr; [|discriminate].
    destruct (Z.leb_spec (a + 4) (len (data m))); [|discriminate]. lia. }
  destruct Hrange as [Ha Hb].
  assert (H0 := bytesOk_byteAt m a Hok).
  assert (H1 := bytesOk_byteAt m (a + 1) Hok).
  assert (H2 := bytesOk_byteAt m (a + 2) Hok).
  assert (H3 := bytesOk_byteAt m (a + 3) Hok).
  unfold cellBits. rewrite cellBytes_bytes by lia.
  rewrite Memory_ReadWord_bytes in Hr by lia. injection Hr as <-.
  rewrite Uint32_bytes in * by lia.
  set (b0 := byteAt m a) in *. set (b1 := byteAt m (a + 1)) in *.
  set (b2 := byteAt m (a + 2)) in *. set (b3 := byteAt m (a + 3)) in *.
  set (raw := b0 + b1 * 2 ^ 8 + b2 * 2 ^ 16 + b3 * 2 ^ 24) in *.
  unfold decodeWord in *. destruct (Z.gtb_spec b3 0) as [Hpos | Hzero].
  - right. cbn [D Cmd Opcode BB Address1 Address2].
    assert (H24 : Z.shiftr raw 24 = b3).
    { rewrite Z.shiftr_div_pow2 by lia. unfold raw.
      change (2 ^ 8) with 256. change (2 ^ 16) with 65536.
      change (2 ^ 24) with 16777216. Z.div_mod_to_equations. lia. }
    rewrite H24.
    assert (E8 : uint8 b3 = b3)
      by (unfold uint8; apply Z.mod_small; change (2 ^ 8) with 256; lia).
    rewrite E8.
    split; [reflexivity|]. split; [reflexivity|]. split; [lia|].
    unfold uint8, uint16.
    rewrite (land_3 (Z.shiftr raw 22)), (land_4095 (Z.shiftr raw 10)),
      (land_1023 raw).
    change (2 ^ 2) with 4. change (2 ^ 12) with 4096.
    change (2 ^ 10) with 1024. change (2 ^ 8) with 256.
    change (2 ^ 16) with 65536.
    repeat split; Z.div_mod_to_equations; lia.
  - left. cbn [D Cmd I] in *.
    split; [lia|]. split; [reflexivity|]. split; [assumption|].
    assert (b3 = 0) by lia. unfold int32, raw.
    change (2 ^ 8) with 256. change (2 ^ 16) with 65536.
    change (2 ^ 24) with 16777216.
    change (2 ^ 31) with 2147483648. change (2 ^ 32) with 4294967296.
    Z.div_mod_to_equations. lia.
Qed.

(** ** Words placed one address apart *)

(** The loader advances its cursor by one address after each word it
    writes, while a word takes four bytes.  After two consecutive
    directives that write words, the cell at the first address holds the
    lowest byte of the first word followed by the three low bytes of the
    second: the upper three bytes of the first word are lost. *)
Theorem loader_consecutive_words_overlap
  (st st1 st2 : LoaderState) (line1 line2 : string) (w1 w2 : Word)
  (onError1 onError2 : errorT -> LoaderMessage) :
  loaderWrite st line1 w1 onError1 = Continue st1 ->
  loaderWrite st1 line2 w2 onError2 = Continue st2 ->
  address st1 = address st + 1 /\
  address st2 = address st + 2 /\
  cellBits (ls_memory st2) (address st)
  = encodeWord w1 mod 2 ^ 8 + 2 ^ 8 * (encodeWord w2 mod 2 ^ 24).
Proof.
  unfold loaderWrite. intros H1 H2.
  destruct (Memory_WriteWord (ls_memory st) (address st) w1)
    as [m1| |] eqn:E1; try discriminate.
  injection H1 as <-. cbn [ls_memory address] in H2.
  destruct (Memory_WriteWord m1 (address st + 1) w2)
    as [m2| |] eqn:E2; try discriminate.
  injection H2 as <-. cbn [ls_memory address].
  split; [reflexivity|]. split; [lia|].
  set (a := address st) in *.
  destruct (Memory_WriteWord_bytes _ _ _ _ E1)
    as (Ha & Hb & _ & Hlen1 & _ & _ & _ & Hbytes1).
  destruct (Memory_WriteWord_bytes _ _ _ _ E2)
    as (Ha' & Hb' & _ & Hlen2 & _ & _ & _ & Hbytes2).
  unfold cellBits. rewrite cellBytes_bytes by lia.
  rewrite !Hbytes2 by lia. rewrite Hbytes1 by lia.
  destruct (Z.leb_spec (a + 1) a); [lia|]. cbn [andb].
  destruct (Z.leb_spec a a); [|lia].
  destruct (Z.ltb_spec a (a + 4)); [|lia]. cbn [andb].
  destruct (Z.leb_spec (a + 1) (a + 1)); [|lia].
  destruct (Z.ltb_spec (a + 1) (a + 1 + 4)); [|lia].
  destruct (Z.leb_spec (a + 1) (a + 2)); [|lia].
  destruct (Z.ltb_spec (a + 2) (a + 1 + 4)); [|lia].
  destruct (Z.leb_spec (a + 1) (a + 3)); [|lia].
  destruct (Z.ltb_spec (a + 3) (a + 1 + 4)); [|lia]. cbn [andb].
  replace (a - a) with 0 by lia. replace (a + 1 - (a + 1)) with 0 by lia.
  replace (a + 2 - (a + 1)) with 1 by lia.
  replace (a + 3 - (a + 1)) with 2 by lia.
  change (Z.to_nat 0) with 0%nat. change (Z.to_nat 1) with 1%nat.
  change (Z.to_nat 2) with 2%nat. cbn [nth PutUint32].
  rewrite Uint32_bytes by apply uint8_range.
  pose proof (encodeWord_range w1) as R1.
  pose proof (encodeWord_range w2) as R2.
  unfold uint8. rewrite !Z.shiftr_div_pow2 by lia.
  change (2 ^ 8) with 256. change (2 ^ 16) with 65536.
  change (2 ^ 24) with 16777216. change (2 ^ 32) with 4294967296 in *.
  Z.div_mod_to_equations. lia.
Qed.

(** ** Fresh and cleared memories *)

Lemma Memory_ReadWord_zero_bytes (m : Memory) (a : Z) :
  (forall i, byteAt m i = 0) ->
  0 <= a -> a + 4 <= len (data m) ->
  Memory_ReadWord m a = Ok zeroWord.
Proof.
  intros Hz Ha Hb. rewrite Memory_ReadWord_bytes by assumption.
  rewrite !Hz. reflexivity.
Qed.

(** [NewMemory] with a positive size returns a memory of that many zero
    bytes with both counters at zero: the declared size is the length of
    the byte array, the valid addresses are those from 0 up to the size,
    and every word read inside it returns the zero word. *)
Theorem NewMemory_zeroed (sz : Z) :
  0 < sz ->
  exists m,
    NewMemory sz = Ok m /\
    size m = sz /\ len (data m) = sz /\
    accessCount m = 0 /\ errorCount m = 0 /\ initialized m = true /\
    Memory_bytesOk m = true /\
    (forall a, Memory_IsValidAddress m a = true <-> 0 <= a < sz) /\
    (forall a, 0 <= a -> a + 4 <= sz -> Memory_ReadWord m a = Ok zeroWord).
Proof.
  intros Hsz. unfold NewMemory.
  destruct (Z.leb_spec sz 0); [lia|].
  eexists. split; [reflexivity|]. cbn [size data accessCount errorCount initialized].
  assert (Hlen : len (repeat 0 (Z.to_nat sz)) = sz)
    by (unfold len; rewrite repeat_length; lia).
  assert (Hz : forall i,
             byteAt (mkMemory (repeat 0 (Z.to_nat sz)) sz 0 0 true) i = 0)
    by (intros i; unfold byteAt; cbn [data]; apply nth_repeat).
  repeat (split; [first [reflexivity | assumption]|]).
  split.
  { apply bytesOk_of_byteAt. intros i _. rewrite Hz. lia. }
  split.
  { intros a. apply IsValidAddress_true. }
  intros a Ha Hb. apply Memory_ReadWord_zero_bytes; cbn [data]; try assumption.
  lia.
Qed.

Lemma NewMemory_zeroed_witness :
  0 < 8 /\
  exists m,
    NewMemory 8 = Ok m /\
    size m = 8 /\ len (data m) = 8 /\
    accessCount m = 0 /\ errorCount m = 0 /\ initialized m = true /\
    Memory_bytesOk m = true /\
    (forall a, Memory_IsValidAddress m a = true <-> 0 <= a < 8) /\
    (forall a, 0 <= a -> a + 4 <= 8 -> Memory_ReadWord m a = Ok zeroWord).
Proof.
  split; [lia|]. apply (NewMemory_zeroed 8). lia.
Defined.

(** [Clear] zeroes the memory and both counters and keeps the size: every
    word read inside it returns the zero word afterwards. *)
Theorem Clear_zeroes (m : Memory) (a : Z) :
  0 <= a -> a + 4 <= len (data m) ->
  Memory_ReadWord (Memory_Clear m) a = Ok zeroWord /\
  size (Memory_Clear m) = size m /\
  len (data (Memory_Clear m)) = len (data m) /\
  accessCount (Memory_Clear m) = 0 /\ errorCount (Memory_Clear m) = 0 /\
  Memory_bytesOk (Memory_Clear m) = true.
Proof.
  intros Ha Hb.
  assert (Hlen : len (data (Memory_Clear m)) = len (data m))
    by (unfold Memory_Clear, len; cbn [data]; rewrite length_map; reflexivity).
  assert (Hz : forall i, byteAt (Memory_Clear m) i = 0).
  { intros i. unfold byteAt, Memory_Clear. cbn [data].
    apply (map_nth (fun _ : Z => 0) (data m) 0). }
  split.
  { apply Memory_ReadWord_zero_bytes; [assumption | assumption | lia]. }
  repeat (split; [first [reflexivity | assumption]|]).
  apply bytesOk_of_byteAt. intros i _. rewrite Hz. lia.
Qed.

(** ** Single bytes *)

(** A byte written is the byte read back at the same address; the other
    bytes and the length are kept, and each of the two accesses counts. *)
Theorem WriteByte_ReadByte (m : Memory) (a v : Z) :
  0 <= a < len (data m) ->
  exists m1 m2,
    Memory_WriteByte m a v = Ok m1 /\
    Memory_ReadByte m1 a = Ok (v, m2) /\
    data m2 = data m1 /\
    accessCount m2 = accessCount m + 2 /\
    len (data m1) = len (data m) /\
    (forall b, 0 <= b -> b <> a -> byteAt m1 b = byteAt m b).
Proof.
  intros Ha. unfold Memory_WriteByte.
  destruct (Z.leb_spec 0 a); [|lia].
  destruct (Z.ltb_spec a (len (data m))); [|lia]. cbn [andb].
  eexists. eexists. split; [reflexivity|].
  assert (Hnth : forall i : nat,
    nth i (firstn (Z.to_nat a) (data m) ++ [v]
             ++ skipn (Z.to_nat a + 1) (data m)) 0
    = if (i <? Z.to_nat a)%nat then nth i (data m) 0
      else if (i <? Z.to_nat a + 1)%nat then nth (i - Z.to_nat a) [v] 0
      else nth i (data m) 0).
  { intros i. apply (nth_splice (data m) [v] (Z.to_nat a) i 0).
    unfold len in *. cbn [List.length]. lia. }
  assert (Hlen : len (firstn (Z.to_nat a) (data m) ++ [v]
                        ++ skipn (Z.to_nat a + 1) (data m)) = len (data m)).
  { unfold len in *. rewrite !length_app, length_firstn, length_skipn.
    cbn [List.length]. lia. }
  unfold Memory_ReadByte. cbn [data accessCount].
  rewrite Hlen.
  destruct (Z.leb_spec 0 a); [|lia].
  destruct (Z.ltb_spec a (len (data m))); [|lia]. cbn [andb].
  rewrite Hnth.
  destruct (Nat.ltb_spec (Z.to_nat a) (Z.to_nat a)); [lia|].
  destruct (Nat.ltb_spec (Z.to_nat a) (Z.to_nat a + 1)); [|lia].
  rewrite Nat.sub_diag. cbn [nth].
  split; [reflexivity|]. split; [reflexivity|].
  cbn [data accessCount].
  split; [lia|]. split; [reflexivity|].
  intros b Hb Hne. unfold byteAt. cbn [data]. rewrite Hnth.
  destruct (Nat.ltb_spec (Z.to_nat b) (Z.to_nat a)); [reflexivity|].
  destruct (Nat.ltb_spec (Z.to_nat b) (Z.to_nat a + 1)); [lia|].
  reflexivity.
Qed.

Lemma WriteWord_keeps_disjoint_words_witness :
  (Memory_WriteWord smallMemory 2 (Word_ofInt 5) = Ok smallMemoryWritten /\
   (6 + 4 <= 2 \/ 2 + 4 <= 6)) /\
  (Memory_ReadWord smallMemoryWritten 6 = Memory_ReadWord smallMemory 6 /\
   size smallMemoryWritten = size smallMemory /\
   len (data smallMemoryWritten) = len (data smallMemory) /\
   accessCount smallMemoryWritten = accessCount smallMemory + 1 /\
   errorCount smallMemoryWritten = errorCount smallMemory).
Proof.
  split.
  - split; [reflexivity | right; lia].
  - apply (WriteWord_keeps_disjoint_words smallMemory smallMemoryWritten 2 6
             (Word_ofInt 5)); [reflexivity | right; lia].
Defined.

Lemma WriteWord_keeps_bytes_witness :
  (Memory_bytesOk smallMemory = true /\
   Memory_WriteWord smallMemory 2 (Word_ofInt 5) = Ok smallMemoryWritten) /\
  Memory_bytesOk smallMemoryWritten = true.
Proof.
  split.
  - split; reflexivity.
  - apply (WriteWord_keeps_bytes smallMemory smallMemoryWritten 2
             (Word_ofInt 5)); reflexivity.
Defined.

Lemma ReadWord_WriteWord_restores_witness :
  (Memory_bytesOk commandMemory = true /\
   Memory_ReadWord commandMemory 0
     = Ok (Word_ofCmd (mkCommandData 65 0 256 0)) /\
   Memory_WriteWord commandMemory 0 (Word_ofCmd (mkCommandData 65 0 256 0))
     = Ok (mkMemory [0; 0; 4; 65; 0; 0; 0; 0] 8 0 2 true)) /\
  data (mkMemory [0; 0; 4; 65; 0; 0; 0; 0] 8 0 2 true) = data commandMemory.
Proof.
  split.
  - repeat split.
  - apply (ReadWord_WriteWord_restores commandMemory
             (mkMemory [0; 0; 4; 65; 0; 0; 0; 0] 8 0 2 true) 0
             (Word_ofCmd (mkCommandData 65 0 256 0))); reflexivity.
Defined.

Lemma ReadWord_views_witness :
  (Memory_bytesOk commandMemory = true /\
   Memory_ReadWord commandMemory 0
     = Ok (Word_ofCmd (mkCommandData 65 0 256 0))) /\
  let w := Word_ofCmd (mkCommandData 65 0 256 0) in
  F (D w) = f32_zero /\
  ((byteAt commandMemory (0 + 3) = 0 /\ Cmd w = zeroCommandData /\
    0 <= I (D w) < 2 ^ 24 /\ I (D w) = cellBits commandMemory 0) \/
   (D w = zeroData /\ Opcode (Cmd w) = byteAt commandMemory (0 + 3) /\
    1 <= Opcode (Cmd w) <= 255 /\ 0 <= BB (Cmd w) <= 3 /\
    0 <= Address1 (Cmd w) <= 4095 /\ 0 <= Address2 (Cmd w) <= 1023)).
Proof.
  split.
  - split; reflexivity.
  - apply (ReadWord_views commandMemory 0
             (Word_ofCmd (mkCommandData 65 0 256 0))); reflexivity.
Defined.

Lemma loader_consecutive_words_overlap_witness :
  (loaderWrite loaderState0 "i 3" (Word_ofInt 3) MsgFailedToWriteInteger
     = Continue loaderState1 /\
   loaderWrite loaderState1 "i 4" (Word_ofInt 4) MsgFailedToWriteInteger
     = Continue loaderState2) /\
  (address loaderState1 = address loaderState0 + 1 /\
   address loaderState2 = address loaderState0 + 2 /\
   cellBits (ls_memory loaderState2) (address loaderState0)
   = encodeWord (Word_ofInt 3) mod 2 ^ 8
     + 2 ^ 8 * (encodeWord (Word_ofInt 4) mod 2 ^ 24)).
Proof.
  split.
  - split; reflexivity.
  - apply (loader_consecutive_words_overlap loaderState0 loaderState1
             loaderState2 "i 3" "i 4" (Word_ofInt 3) (Word_ofInt 4)
             MsgFailedToWriteInteger MsgFailedToWriteInteger); reflexivity.
Defined.

Lemma Clear_zeroes_witness :
  (0 <= 2 /\ 2 + 4 <= len (data smallMemoryWritten)) /\
  (Memory_ReadWord (Memory_Clear smallMemoryWritten) 2 = Ok zeroWord /\
   size (Memory_Clear smallMemoryWritten) = size smallMemoryWritten /\
   len (data (Memory_Clear smallMemoryWritten))
     = len (data smallMemoryWritten) /\
   accessCount (Memory_Clear smallMemoryWritten) = 0 /\
   errorCount (Memory_Clear smallMemoryWritten) = 0 /\
   Memory_bytesOk (Memory_Clear smallMemoryWritten) = true).
Proof.
  split.
  - split; [lia | vm_compute; congruence].
  - apply (Clear_zeroes smallMemoryWritten 2);
      [lia | vm_compute; congruence].
Defined.

Lemma WriteByte_ReadByte_witness :
  0 <= 3 < len (data smallMemory) /\
  exists m1 m2,
    Memory_WriteByte smallMemory 3 200 = Ok m1 /\
    Memory_ReadByte m1 3 = Ok (200, m2) /\
    data m2 = data m1 /\
    accessCount m2 = accessCount smallMemory + 2 /\
    len (data m1) = len (data smallMemory) /\
    (forall b, 0 <= b -> b <> 3 -> byteAt m1 b = byteAt smallMemory b).
Proof.
  split.
  - vm_compute. split; congruence.
  - apply (WriteByte_ReadByte smallMemory 3 200). vm_compute.
    split; congruence.
Defined.

(** The round trip of a command word whose fields are within their
    widths, at an instance. *)
Lemma command_word_round_trip_in_range_witness :
  (0 <= 4 /\ 4 + 4 <= len (data smallMemory) /\
   1 <= Opcode (mkCommandData 69 3 4095 1023) <= 255 /\
   0 <= BB (mkCommandData 69 3 4095 1023) <= 3 /\
   0 <= Address1 (mkCommandData 69 3 4095 1023) <= 4095 /\
   0 <= Address2 (mkCommandData 69 3 4095 1023) <= 1023) /\
  exists m',
    Memory_WriteWord smallMemory 4 (Word_ofCmd (mkCommandData 69 3 4095 1023))
      = Ok m' /\
    Memory_ReadWord m' 4 = Ok (Word_ofCmd (mkCommandData 69 3 4095 1023)).
Proof.
  split.
  - cbn [Opcode BB Address1 Address2].
    repeat split; try lia; vm_compute; congruence.
  - apply (command_word_round_trip_in_range smallMemory 4
             (mkCommandData 69 3 4095 1023));
      cbn [Opcode BB Address1 Address2]; try lia; vm_compute; congruence.
Defined.

(** ** The packed flag word *)

Lemma land_pow2_select (f k : Z) :
  0 <= k ->
  (if negb (Z.land f (2 ^ k) =? 0) then 2 ^ k else 0) = Z.land f (2 ^ k).
Proof.
  intros Hk.
  assert (Hbits : forall n, 0 <= n ->
            Z.testbit (Z.land f (2 ^ k)) n = Z.testbit f n && (k =? n)).
  { intros n Hn. rewrite Z.land_spec, Z.pow2_bits_eqb by lia. reflexivity. }
  destruct (Z.testbit f k) eqn:Ek.
  - assert (E : Z.land f (2 ^ k) = 2 ^ k).
    { apply Z.bits_inj'. intros n Hn. rewrite Hbits by lia.
      rewrite Z.pow2_bits_eqb by lia.
      destruct (Z.eqb_spec k n); [subst; rewrite Ek; reflexivity|].
      apply andb_false_r. }
    rewrite E. destruct (Z.eqb_spec (2 ^ k) 0) as [H0 | H0]; [|reflexivity].
    pose proof (Z.pow_pos_nonneg 2 k). lia.
  - assert (E : Z.land f (2 ^ k) = 0).
    { apply Z.bits_inj'. intros n Hn. rewrite Hbits, Z.bits_0 by lia.
      destruct (Z.eqb_spec k n); [subst; rewrite Ek; reflexivity|].
      apply andb_false_r. }
    rewrite E. reflexivity.
Qed.

Lemma orIf_lor (b : bool) (mask flags : Z) :
  orIf b mask flags = Z.lor flags (if b then mask else 0).
Proof. destruct b; cbn [orIf]; [reflexivity | rewrite Z.lor_0_r; reflexivity]. Qed.

(** [SetFlags] after [GetFlags] gives the processor back, and [GetFlags]
    after [SetFlags(flags)] returns [flags] with every bit cleared except
    bits 15, 11, 10 and 0, the positions of the sign, overflow, zero and
    carry flags. *)
Theorem GetFlags_SetFlags_round_trip (p : Processor) (flags : Z) :
  Processor_SetFlags (Processor_GetFlags p) p = p /\
  Processor_GetFlags (Processor_SetFlags flags p) = Z.land flags 0x8C01.
Proof.
  split.
  - destruct p as [m [ip s c v z] regs e st i o].
    destruct s, c, v, z; reflexivity.
  - unfold Processor_GetFlags, Processor_SetFlags.
    cbn [psw set_psw CarryFlag ZeroFlag OverflowFlag SignFlag].
    rewrite !orIf_lor.
    change 0x8000 with (2 ^ 15). change 0x0800 with (2 ^ 11).
    change 0x0400 with (2 ^ 10). change 0x0001 with (2 ^ 0).
    rewrite !land_pow2_select by lia.
    rewrite Z.lor_0_l. rewrite <- !Z.land_lor_distr_r.
    reflexivity.
Qed.

(** ** The condition of [JZ] after an arithmetic instruction *)

Lemma GetFlags_zero_iff (p : Processor) :
  Processor_GetFlags p = 0 <->
  SignFlag (psw p) = false /\ CarryFlag (psw p) = false /\
  OverflowFlag (psw p) = false /\ ZeroFlag (psw p) = false.
Proof.
  unfold Processor_GetFlags.
  destruct (CarryFlag (psw p)), (ZeroFlag (psw p)), (OverflowFlag (psw p)),
    (SignFlag (psw p)); vm_compute; intuition congruence.
Qed.

(** After the flags were updated from an integer result [r], [JZ] (with
    [BB = 00]) jumps exactly when [r] is strictly positive and neither the
    carry nor the overflow was reported, and [JG] jumps in all the other
    cases.  In particular [JZ] does not jump after a zero result: a zero
    result sets the zero flag, which makes the flag word nonzero. *)
Theorem jumps_after_arithmetic
  (j : CommandData) (r : Z) (c v : bool) (p : Processor) :
  BB j = 0 ->
  let q := Processor_UpdateArithmeticFlags r c v p in
  let positive := (0 <? r) && negb c && negb v in
  JumpZero_Execute j q
    = Ret tt (if positive then set_IP q (Address1 j) else q) /\
  JumpGreater_Execute j q
    = Ret tt (if positive then q else set_IP q (Address1 j)).
Proof.
  cbv zeta. intros Hbb.
  set (q := Processor_UpdateArithmeticFlags r c v p).
  assert (Hflags : (Processor_GetFlags q =? 0) = (0 <? r) && negb c && negb v).
  { destruct (Z.eqb_spec (Processor_GetFlags q) 0) as [E | E].
    - apply GetFlags_zero_iff in E. unfold q in E.
      rewrite UpdateArithmeticFlags_psw in E.
      cbn [SignFlag CarryFlag OverflowFlag ZeroFlag] in E.
      destruct E as (Hs & Hc & Hv & Hz). subst c v.
      apply Z.ltb_ge in Hs. apply Z.eqb_neq in Hz.
      destruct (Z.ltb_spec 0 r); [reflexivity | lia].
    - destruct ((0 <? r) && negb c && negb v) eqn:Epos; [|reflexivity].
      exfalso. apply E. apply GetFlags_zero_iff. unfold q.
      rewrite UpdateArithmeticFlags_psw.
      cbn [SignFlag CarryFlag OverflowFlag ZeroFlag].
      apply andb_true_iff in Epos. destruct Epos as [Epos Hv].
      apply andb_true_iff in Epos. destruct Epos as [Hr Hc].
      apply Z.ltb_lt in Hr. apply negb_true_iff in Hc, Hv.
      repeat split; try assumption.
      + apply Z.ltb_ge. lia.
      + apply Z.eqb_neq. lia. }
  pose proof (GetFlags_range q) as Hrange.
  split.
  - unfold JumpZero_Execute. rewrite Hflags.
    destruct ((0 <? r) && negb c && negb v); [|reflexivity].
    rewrite Hbb. reflexivity.
  - unfold JumpGreater_Execute.
    destruct ((0 <? r) && negb c && negb v).
    + apply Z.eqb_eq in Hflags. rewrite Hflags. reflexivity.
    + apply Z.eqb_neq in Hflags.
      destruct (Z.gtb_spec (Processor_GetFlags q) 0); [|lia].
      rewrite Hbb. reflexivity.
Qed.

Lemma jumps_after_arithmetic_witness :
  BB (mkCommandData JZ 0 9 0) = 0 /\
  let q := Processor_UpdateArithmeticFlags 0 false false tinyProcessor in
  let positive := (0 <? 0) && negb false && negb false in
  JumpZero_Execute (mkCommandData JZ 0 9 0) q
    = Ret tt (if positive then set_IP q (Address1 (mkCommandData JZ 0 9 0))
              else q) /\
  JumpGreater_Execute (mkCommandData JZ 0 9 0) q
    = Ret tt (if positive then q
              else set_IP q (Address1 (mkCommandData JZ 0 9 0))).
Proof.
  split; [reflexivity|].
  apply (jumps_after_arithmetic (mkCommandData JZ 0 9 0) 0 false false
           tinyProcessor).
  reflexivity.
Defined.

(** ** Registers *)

Lemma store_length {A : Type} (l : list A) (i : nat) (v : A) :
  List.length (store l i v) = List.length l.
Proof.
  revert i. induction l as [|h t IH]; intros [|i]; cbn; auto.
Qed.

Lemma nth_store {A : Type} (l : list A) (i j : nat) (v d : A) :
  (i < List.length l)%nat ->
  nth j (store l i v) d = if (j =? i)%nat then v else nth j l d.
Proof.
  revert i j. induction l as [|h t IH]; intros i j Hi; cbn in Hi; [lia|].
  destruct i as [|i], j as [|j]; cbn; try reflexivity.
  apply IH. lia.
Qed.

(** A register set through [SetRegister] is the value [GetRegister] returns
    for it afterwards, the other register keeps its value, and nothing but
    the register file changes. *)
Theorem SetRegister_GetRegister (p : Processor) (index other value : Z) :
  List.length (registers p) = 2%nat ->
  0 <= index < NUM_REGISTERS -> 0 <= other < NUM_REGISTERS ->
  other <> index ->
  exists p',
    Processor_SetRegister index value p = Ret tt p' /\
    Processor_GetRegister index p' = Ret value p' /\
    Processor_GetRegister other p'
      = Ret (nth (Z.to_nat other) (registers p) 0) p' /\
    Processor_GetRegister other p
      = Ret (nth (Z.to_nat other) (registers p) 0) p /\
    List.length (registers p') = 2%nat /\
    memory p' = memory p /\ psw p' = psw p /\
    error p' = error p /\ stop p' = stop p.
Proof.
  intros Hlen Hi Ho Hne.
  unfold Processor_SetRegister, Processor_GetRegister.
  destruct (Z.geb_spec index NUM_REGISTERS); [lia|].
  destruct (Z.geb_spec other NUM_REGISTERS); [lia|].
  eexists. split; [reflexivity|]. cbn [registers set_registers].
  unfold NUM_REGISTERS in *.
  rewrite !nth_store by lia.
  rewrite Nat.eqb_refl.
  destruct (Nat.eqb_spec (Z.to_nat other) (Z.to_nat index)); [lia|].
  rewrite store_length.
  repeat split; assumption.
Qed.

Lemma SetRegister_GetRegister_witness :
  (List.length (registers tinyProcessor) = 2%nat /\
   0 <= 1 < NUM_REGISTERS /\ 0 <= 0 < NUM_REGISTERS /\ 0 <> 1) /\
  exists p',
    Processor_SetRegister 1 (-4) tinyProcessor = Ret tt p' /\
    Processor_GetRegister 1 p' = Ret (-4) p' /\
    Processor_GetRegister 0 p'
      = Ret (nth (Z.to_nat 0) (registers tinyProcessor) 0) p' /\
    Processor_GetRegister 0 tinyProcessor
      = Ret (nth (Z.to_nat 0) (registers tinyProcessor) 0) tinyProcessor /\
    List.length (registers p') = 2%nat /\
    memory p' = memory tinyProcessor /\ psw p' = psw tinyProcessor /\
    error p' = error tinyProcessor /\ stop p' = stop tinyProcessor.
Proof.
  split.
  - unfold NUM_REGISTERS. repeat split; try lia.
  - apply (SetRegister_GetRegister tinyProcessor 1 0 (-4));
      unfold NUM_REGISTERS; try lia. reflexivity.
Defined.

(** A register instruction that names a register index of 2 or more fails
    with the invalid-register error and leaves the processor exactly as it
    was: [MOVR] reports the source index first, [ADDR] and [SUBR] the
    destination index first. *)
Theorem register_instruction_invalid_index (c : CommandData) (p : Processor) :
  let regDest := uint8 (Z.land (Address1 c) 7) in
  let regSrc := uint8 (Z.land (Address2 c) 7) in
  NUM_REGISTERS <= regDest \/ NUM_REGISTERS <= regSrc ->
  MoveRegister_Execute c p
    = Fail (ErrInvalidRegister
              (if regSrc >=? NUM_REGISTERS then regSrc else regDest)) p /\
  AddRegisters_Execute c p
    = Fail (ErrInvalidRegister
              (if regDest >=? NUM_REGISTERS then regDest else regSrc)) p /\
  SubtractRegisters_Execute c p
    = Fail (ErrInvalidRegister
              (if regDest >=? NUM_REGISTERS then regDest else regSrc)) p.
Proof.
  cbv zeta. intros H.
  unfold MoveRegister_Execute, AddRegisters_Execute,
    SubtractRegisters_Execute, bind, Processor_GetRegister,
    Processor_SetRegister.
  destruct (Z.geb_spec (uint8 (Z.land (Address1 c) 7)) NUM_REGISTERS),
    (Z.geb_spec (uint8 (Z.land (Address2 c) 7)) NUM_REGISTERS);
    try lia; repeat split; reflexivity.
Qed.

Lemma register_instruction_invalid_index_witness :
  let c := mkCommandData MOVR 0 5 1 in
  let regDest := uint8 (Z.land (Address1 c) 7) in
  let regSrc := uint8 (Z.land (Address2 c) 7) in
  (NUM_REGISTERS <= regDest \/ NUM_REGISTERS <= regSrc) /\
  (MoveRegister_Execute c tinyProcessor
     = Fail (ErrInvalidRegister
               (if regSrc >=? NUM_REGISTERS then regSrc else regDest))
            tinyProcessor /\
   AddRegisters_Execute c tinyProcessor
     = Fail (ErrInvalidRegister
               (if regDest >=? NUM_REGISTERS then regDest else regSrc))
            tinyProcessor /\
   SubtractRegisters_Execute c tinyProcessor
     = Fail (ErrInvalidRegister
               (if regDest >=? NUM_REGISTERS then regDest else regSrc))
            tinyProcessor).
Proof.
  cbv zeta. split.
  - left. vm_compute. congruence.
  - apply (register_instruction_invalid_index (mkCommandData MOVR 0 5 1)
             tinyProcessor).
    left. vm_compute. congruence.
Defined.

(** ** Addressing modes *)

Lemma uint16_int32 (x : Z) : uint16 (int32 x) = x mod 2 ^ 16.
Proof.
  unfold uint16, int32.
  change (2 ^ 31) with 2147483648. change (2 ^ 32) with 4294967296.
  change (2 ^ 16) with 65536.
  Z.div_mod_to_equations. lia.
Qed.

(** The effective address for each value of the mode bits: [00] returns
    the address field as it is; [01] adds register 0 whatever the register
    index is, and so never fails; [10] returns the indexed register and does
    not depend on the address field; [11] adds the indexed register; in
    modes [10] and [11] an index of 2 or more is an error.  Sums and
    registers are reduced modulo [2^16], the 32-bit wrap of the sum being
    invisible after that; the processor is never changed, and only the two
    low bits of the mode matter. *)
Theorem calculateAddress_modes (addr regIndex : Z) (p : Processor) :
  let R0 := nth 0 (registers p) 0 in
  let Rr := nth (Z.to_nat regIndex) (registers p) 0 in
  calculateAddress 0 addr regIndex p = Ret addr p /\
  calculateAddress 1 addr regIndex p = Ret ((addr + R0) mod 2 ^ 16) p /\
  calculateAddress 2 addr regIndex p
    = (if regIndex >=? NUM_REGISTERS
       then Fail (ErrInvalidRegister regIndex) p
       else Ret (Rr mod 2 ^ 16) p) /\
  calculateAddress 3 addr regIndex p
    = (if regIndex >=? NUM_REGISTERS
       then Fail (ErrInvalidRegister regIndex) p
       else Ret ((addr + Rr) mod 2 ^ 16) p) /\
  forall bb,
    calculateAddress bb addr regIndex p
    = calculateAddress (Z.land bb 3) addr regIndex p.
Proof.
  cbv zeta.
  split; [reflexivity|].
  split.
  { unfold calculateAddress.
    change (negb (Z.land 1 2 =? 0)) with false.
    change (negb (Z.land 1 1 =? 0)) with true. cbv iota.
    unfold bind, Processor_GetRegister, ret.
    change (0 >=? NUM_REGISTERS) with false. cbv iota beta.
    rewrite uint16_int32. reflexivity. }
  split.
  { unfold calculateAddress.
    change (negb (Z.land 2 2 =? 0)) with true.
    change (negb (Z.land 2 1 =? 0)) with false. cbv iota.
    unfold bind, Processor_GetRegister, ret.
    destruct (regIndex >=? NUM_REGISTERS); reflexivity. }
  split.
  { unfold calculateAddress.
    change (negb (Z.land 3 2 =? 0)) with true.
    change (negb (Z.land 3 1 =? 0)) with true. cbv iota.
    unfold bind, Processor_GetRegister, ret.
    destruct (regIndex >=? NUM_REGISTERS); [reflexivity|].
    cbv iota beta. rewrite uint16_int32. reflexivity. }
  intros bb. unfold calculateAddress. rewrite <- !Z.land_assoc.
  change (Z.land 3 2) with 2. change (Z.land 3 1) with 1. reflexivity.
Qed.

(** ** What a step keeps *)

Lemma keeps_refl (p : Processor) : keeps p p.
Proof. unfold keeps. tauto. Qed.

Lemma keeps_trans (p q r : Processor) : keeps p q -> keeps q r -> keeps p r.
Proof. unfold keeps. intuition congruence. Qed.

Lemma respects_ret {A : Type} (a : A) : respects (ret a).
Proof. intros p. apply keeps_refl. Qed.

Lemma respects_fail {A : Type} (e : errorT) : respects (@fail A e).
Proof. intros p. apply keeps_refl. Qed.

Lemma respects_bind {A B : Type} (c : M A) (k : A -> M B) :
  respects c -> (forall a, respects (k a)) -> respects (bind c k).
Proof.
  intros Hc Hk p. unfold bind. specialize (Hc p).
  destruct (c p) as [a p1 | e p1 | cr]; [|assumption|exact Logic.I].
  specialize (Hk a p1).
  destruct (k a p1);
    [ eapply keeps_trans; eassumption
    | eapply keeps_trans; eassumption
    | exact Logic.I ].
Qed.

Lemma respects_modify (f : Processor -> Processor) :
  (forall p, keeps p (f p)) -> respects (modify f).
Proof. intros H p. apply H. Qed.

Lemma respects_readWord (a : Z) : respects (readWord a).
Proof.
  intros p. unfold readWord.
  destruct (Memory_ReadWord (memory p) a);
    [apply keeps_refl | apply keeps_refl | exact Logic.I].
Qed.

Lemma respects_writeWord (a : Z) (w : Word) : respects (writeWord a w).
Proof.
  intros p. unfold writeWord.
  destruct (Memory_WriteWord (memory p) a w) as [m'| |] eqn:E;
    [|apply keeps_refl|exact Logic.I].
  destruct (Memory_WriteWord_bytes _ _ _ _ E)
    as (_ & _ & Hsize & Hlen & _).
  unfold keeps. cbn [set_memory memory registers error stop].
  repeat split; try assumption; try tauto.
  intros Hok. eapply Memory_WriteWord_bytesOk; eassumption.
Qed.

Lemma respects_GetRegister (i : Z) : respects (Processor_GetRegister i).
Proof.
  intros p. unfold Processor_GetRegister.
  destruct (i >=? NUM_REGISTERS); apply keeps_refl.
Qed.

Lemma respects_SetRegister (i v : Z) : respects (Processor_SetRegister i v).
Proof.
  intros p. unfold Processor_SetRegister.
  destruct (i >=? NUM_REGISTERS); [apply keeps_refl|].
  unfold keeps. cbn [set_registers memory registers error stop].
  rewrite store_length. tauto.
Qed.

Lemma respects_calculateAddress (bb addr r : Z) :
  respects (calculateAddress bb addr r).
Proof.
  unfold calculateAddress.
  destruct (negb (Z.land bb 2 =? 0)).
  - apply respects_bind; [apply respects_GetRegister|].
    intros v. destruct (negb (Z.land bb 1 =? 0)); apply respects_ret.
  - destruct (negb (Z.land bb 1 =? 0)); [|apply respects_ret].
    apply respects_bind; [apply respects_GetRegister|].
    intros v. apply respects_ret.
Qed.

Lemma respects_scanText : respects scanText.
Proof.
  intros p. unfold scanText.
  destruct (stdin p); [apply keeps_refl|].
  unfold keeps. cbn. tauto.
Qed.

Lemma keeps_set_IP (p : Processor) (a : Z) : keeps p (set_IP p a).
Proof. unfold keeps. cbn. tauto. Qed.

Lemma keeps_set_stop (p : Processor) : keeps p (set_stop p true).
Proof. unfold keeps. cbn. tauto. Qed.

Lemma keeps_set_error (p : Processor) : keeps p (set_error p true).
Proof. unfold keeps. cbn. tauto. Qed.

Lemma keeps_print (p : Processor) (o : output) : keeps p (print p o).
Proof. unfold keeps. cbn. tauto. Qed.

Lemma keeps_UpdateArithmeticFlags (r : Z) (c v : bool) (p : Processor) :
  keeps p (Processor_UpdateArithmeticFlags r c v p).
Proof. unfold keeps. cbn. tauto. Qed.

Lemma keeps_UpdateFloatFlags (r : float32) (p : Processor) :
  keeps p (Processor_UpdateFloatFlags r p).
Proof. unfold keeps. cbn. tauto. Qed.

(** Decomposes a computation into the primitives above. *)
Ltac respects_step :=
  first
    [ apply respects_ret
    | apply respects_fail
    | apply respects_readWord
    | apply respects_writeWord
    | apply respects_GetRegister
    | apply respects_SetRegister
    | apply respects_calculateAddress
    | apply respects_scanText
    | apply respects_modify; intros ?;
      first [ apply keeps_set_IP | apply keeps_set_stop
            | apply keeps_set_error | apply keeps_print
            | apply keeps_UpdateArithmeticFlags
            | apply keeps_UpdateFloatFlags ]
    | apply respects_bind; [|intros ?]
    | match goal with
      | |- respects (if ?b then _ else _) => destruct b
      | |- respects (match ?x with inl _ => _ | inr _ => _ end) => destruct x
      | |- respects (match ?x with Some _ => _ | None => _ end) => destruct x
      end ].

Ltac respects_all := cbv zeta; repeat respects_step.

Lemma respects_jump (cond : Processor -> bool) (j : CommandData) :
  respects (fun p =>
    (if cond p then
       bind (calculateAddress (BB j) (Address1 j) 0)
            (fun effectiveAddr => modify (fun q => set_IP q effectiveAddr))
     else ret tt) p).
Proof.
  intros p. destruct (cond p).
  - apply (respects_bind (calculateAddress (BB j) (Address1 j) 0)).
    + apply respects_calculateAddress.
    + intros a. apply respects_modify. intros q. apply keeps_set_IP.
  - apply keeps_refl.
Qed.

Lemma respects_Command_Execute
  (pf : string -> option float32) (cmd : Command) :
  respects (Command_Execute pf cmd).
Proof.
  destruct cmd as [c|c|c|c|c|c|c|c|c|c|c|c|c|c|c|c|c|c|c|c|c];
    cbn [Command_Execute].
  - apply (respects_jump (fun p => Processor_GetFlags p =? 0)).
  - apply (respects_jump (fun p => Processor_GetFlags p >? 0)).
  - apply (respects_jump (fun p => Processor_GetFlags p <? 0)).
  - unfold Halt_Execute. respects_all.
  - unfold AddInt_Execute. respects_all.
  - unfold SubInt_Execute. respects_all.
  - unfold MulInt_Execute. respects_all. intros p. exact Logic.I.
  - unfold DivInt_Execute. respects_all.
  - unfold AddFloat_Execute. respects_all.
  - unfold SubFloat_Execute. respects_all.
  - unfold MulFloat_Execute. respects_all.
  - unfold DivFloat_Execute. respects_all.
  - unfold InputInt_Execute. respects_all.
  - unfold OutputInt_Execute. respects_all.
  - unfold InputFloat_Execute. respects_all.
  - unfold OutputFloat_Execute. respects_all.
  - unfold LoadRegister_Execute. respects_all.
  - unfold StoreRegister_Execute. respects_all.
  - unfold AddRegisters_Execute. respects_all.
  - unfold SubtractRegisters_Execute. respects_all.
  - unfold MoveRegister_Execute. respects_all.
Qed.

Lemma step_keeps_helper (pf : string -> option float32) :
  respects (Processor_executeNextInstruction pf).
Proof.
  intros p. unfold Processor_executeNextInstruction.
  destruct (negb (Memory_IsValidAddress (memory p) (IP (psw p))));
    [apply keeps_refl|].
  destruct (Memory_ReadWord (memory p) (IP (psw p))) as [word| |];
    [|apply keeps_refl|exact Logic.I].
  destruct (commandMap (Opcode (Cmd word))) as [constructor|];
    [|apply keeps_refl].
  pose proof (respects_Command_Execute pf
                (constructor (BB (Cmd word)) (Address1 (Cmd word))
                             (Address2 (Cmd word))) p) as H.
  destruct (Command_Execute pf _ p) as [u p'|e p'|c];
    [|assumption|exact Logic.I].
  destruct (Opcode (Cmd word) =? uint8 STOP).
  - eapply keeps_trans; [eassumption | apply keeps_set_stop].
  - eapply keeps_trans; [eassumption | apply keeps_set_IP].
Qed.

(** Whatever the instruction, a step that does not panic keeps the size of
    the memory and the length of its byte array, the number of registers
    and the memory an array of bytes, and it never clears the error flag or
    the stop flag. *)
Theorem step_keeps (pf : string -> option float32) :
  respects (Processor_executeNextInstruction pf).
Proof. apply step_keeps_helper. Qed.

Lemma Run_loop_ends (pf : string -> option float32) (fuel : nat) :
  forall (steps : nat) (p : Processor) (n : nat) (p' : Processor),
    Run_loop pf fuel steps p = Some (Ret n p') ->
    keeps p p' /\ (stop p' = true \/ error p' = true) /\ (steps <= n)%nat.
Proof.
  induction fuel as [|fuel IH]; intros steps p n p'; cbn [Run_loop].
  - destruct (negb (stop p) && negb (error p)) eqn:E; [discriminate|].
    intros H. injection H as <- <-.
    split; [apply keeps_refl|]. split; [|lia].
    destruct (stop p), (error p); cbn in E; auto; discriminate.
  - destruct (negb (stop p) && negb (error p)) eqn:E.
    + pose proof (step_keeps_helper pf p) as Hk.
      destruct (Processor_executeNextInstruction pf p) as [u p1|e p1|c].
      * intros H. destruct (IH _ _ _ _ H) as (H1 & H2 & H3).
        split; [eapply keeps_trans; eassumption|]. split; [assumption|lia].
      * intros H. injection H as <- <-.
        split; [eapply keeps_trans; [eassumption | apply keeps_set_error]|].
        split; [right; reflexivity | lia].
      * discriminate.
    + intros H. injection H as <- <-.
      split; [apply keeps_refl|]. split; [|lia].
      destruct (stop p), (error p); cbn in E; auto; discriminate.
Qed.

(** When [Run] returns, the processor is stopped or in error; the run has
    kept the size of the memory and the number of registers, and has not
    cleared a flag that was set. *)
Theorem Run_ends_stopped_or_failed
  (pf : string -> option float32) (fuel n : nat) (p p' : Processor) :
  Processor_Run pf fuel p = Some (Ret n p') ->
  (stop p' = true \/ error p' = true) /\ keeps p p'.
Proof.
  intros H. destruct (Run_loop_ends pf fuel 0 p n p' H) as (H1 & H2 & _).
  split; assumption.
Qed.

Lemma Run_ends_stopped_or_failed_witness :
  Processor_Run noFloats 3 tinyProcessor
    = Some (Ret 1%nat (set_stop tinyProcessor true)) /\
  ((stop (set_stop tinyProcessor true) = true \/
    error (set_stop tinyProcessor true) = true) /\
   keeps tinyProcessor (set_stop tinyProcessor true)).
Proof.
  split; [reflexivity|].
  apply (Run_ends_stopped_or_failed noFloats 3 1 tinyProcessor
           (set_stop tinyProcessor true)).
  reflexivity.
Defined.

(** ** Where a step leaves the instruction pointer *)

(** A step that returns normally either executed opcode 0 - then the stop
    flag is set and the status word, the registers and the memory are as
    before - or it leaves [IP] at the address after the instruction,
    reduced modulo the size of the memory.  No instruction, the three jumps
    included, can make the next fetch happen anywhere else. *)
Theorem step_moves_ip_by_one
  (pf : string -> option float32) (p p' : Processor) :
  Processor_executeNextInstruction pf p = Ret tt p' ->
  (stop p' = true /\ psw p' = psw p /\ registers p' = registers p /\
   memory p' = memory p)
  \/ IP (psw p')
     = uint16 (Z.rem (IP (psw p) + 1) (Memory_Size (memory p))).
Proof.
  unfold Processor_executeNextInstruction.
  destruct (negb (Memory_IsValidAddress (memory p) (IP (psw p))));
    [discriminate|].
  destruct (Memory_ReadWord (memory p) (IP (psw p))) as [word| |];
    try discriminate.
  destruct (commandMap (Opcode (Cmd word))) as [constructor|] eqn:Emap;
    [|discriminate].
  pose proof (respects_Command_Execute pf
                (constructor (BB (Cmd word)) (Address1 (Cmd word))
                             (Address2 (Cmd word))) p) as Hk.
  destruct (Command_Execute pf _ p) as [u q|e q|c] eqn:Eexec;
    try discriminate.
  destruct (Z.eqb_spec (Opcode (Cmd word)) (uint8 STOP)) as [Eop | Eop].
  - intros H. injection H as <-. left.
    rewrite Eop in Emap.
    change (commandMap (uint8 STOP)) with (Some NewHalt) in Emap.
    injection Emap as <-.
    cbn [NewHalt Command_Execute] in Eexec.
    unfold Halt_Execute, modify in Eexec.
    injection Eexec as _ Eq. subst q.
    split; [reflexivity|]. split; [reflexivity|]. split; reflexivity.
  - intros H. injection H as <-. right.
    destruct Hk as (Hsize & _). unfold Memory_Size.
    cbn [set_IP set_psw psw IP]. rewrite Hsize. reflexivity.
Qed.

Lemma step_moves_ip_by_one_witness :
  Processor_executeNextInstruction noFloats commandProcessor
    = Ret tt (set_IP commandProcessor 1) /\
  ((stop (set_IP commandProcessor 1) = true /\
    psw (set_IP commandProcessor 1) = psw commandProcessor /\
    registers (set_IP commandProcessor 1) = registers commandProcessor /\
    memory (set_IP commandProcessor 1) = memory commandProcessor)
   \/ IP (psw (set_IP commandProcessor 1))
      = uint16 (Z.rem (IP (psw commandProcessor) + 1)
                      (Memory_Size (memory commandProcessor)))).
Proof.
  split; [reflexivity|].
  apply (step_moves_ip_by_one noFloats commandProcessor
           (set_IP commandProcessor 1)).
  reflexivity.
Defined.

(** ** Words that are not instructions *)

Lemma mapLookup_None (entries : list (Z * CommandConstructor)) (opcode : Z) :
  ~ In opcode (map fst entries) -> mapLookup entries opcode = None.
Proof.
  induction entries as [|[k v] rest IH]; intros Hn; cbn [mapLookup];
    [reflexivity|].
  cbn [map fst In] in Hn. rewrite IH by tauto.
  destruct (Z.eqb_spec k opcode); [exfalso; tauto | reflexivity].
Qed.

(** A fetched word whose opcode is not one of the twenty-one of the
    dispatch table is refused with the invalid-opcode error, which names
    the address and the opcode; the processor is left as it was, and a run
    that fetches it ends there with the error flag set. *)
Theorem step_unknown_opcode
  (pf : string -> option float32) (p : Processor) (w : Word) (fuel : nat) :
  Memory_IsValidAddress (memory p) (IP (psw p)) = true ->
  Memory_ReadWord (memory p) (IP (psw p)) = Ok w ->
  ~ In (Opcode (Cmd w)) knownOpcodes ->
  stop p = false -> error p = false ->
  Processor_executeNextInstruction pf p
    = Fail (ErrInvalidOpcode (IP (psw p)) (Opcode (Cmd w))) p /\
  Processor_Run pf (S fuel) p = Some (Ret 1%nat (set_error p true)).
Proof.
  intros Hv Hr Hn Hstop Herr.
  assert (Hstep : Processor_executeNextInstruction pf p
                  = Fail (ErrInvalidOpcode (IP (psw p)) (Opcode (Cmd w))) p).
  { unfold Processor_executeNextInstruction. rewrite Hv, Hr. cbn [negb].
    unfold commandMap. rewrite mapLookup_None by exact Hn. reflexivity. }
  split; [exact Hstep|].
  unfold Processor_Run. cbn [Run_loop]. rewrite Hstop, Herr, Hstep.
  reflexivity.
Qed.

Lemma step_unknown_opcode_witness :
  (Memory_IsValidAddress (memory unknownOpcodeProcessor)
     (IP (psw unknownOpcodeProcessor)) = true /\
   Memory_ReadWord (memory unknownOpcodeProcessor)
     (IP (psw unknownOpcodeProcessor))
     = Ok (Word_ofCmd (mkCommandData 5 0 0 0)) /\
   ~ In (Opcode (Cmd (Word_ofCmd (mkCommandData 5 0 0 0)))) knownOpcodes /\
   stop unknownOpcodeProcessor = false /\
   error unknownOpcodeProcessor = false) /\
  (Processor_executeNextInstruction noFloats unknownOpcodeProcessor
     = Fail (ErrInvalidOpcode (IP (psw unknownOpcodeProcessor))
               (Opcode (Cmd (Word_ofCmd (mkCommandData 5 0 0 0)))))
            unknownOpcodeProcessor /\
   Processor_Run noFloats 2 unknownOpcodeProcessor
     = Some (Ret 1%nat (set_error unknownOpcodeProcessor true))).
Proof.
  assert (Hn : ~ In (Opcode (Cmd (Word_ofCmd (mkCommandData 5 0 0 0))))
                 knownOpcodes).
  { vm_compute. intros H.
    repeat (destruct H as [H | H]; [discriminate H|]). exact H. }
  split.
  - repeat split; try reflexivity. exact Hn.
  - apply (step_unknown_opcode noFloats unknownOpcodeProcessor
             (Word_ofCmd (mkCommandData 5 0 0 0)) 1);
      try reflexivity. exact Hn.
Defined.

(** ** Fetching at the end of the memory *)

(** The last three addresses of the memory pass the validity test of the
    instruction pointer, but the four bytes of a word do not fit there: a
    step with [IP] at one of them panics on the slice bounds, and so does a
    run that reaches it. *)
Theorem fetch_at_end_panics
  (pf : string -> option float32) (p : Processor) (fuel : nat) :
  size (memory p) = len (data (memory p)) ->
  0 <= IP (psw p) -> size (memory p) - 3 <= IP (psw p) < size (memory p) ->
  stop p = false -> error p = false ->
  Memory_IsValidAddress (memory p) (IP (psw p)) = true /\
  Processor_executeNextInstruction pf p
    = Crash (PanicSliceBounds (IP (psw p)) (IP (psw p) + 4)
                              (size (memory p))) /\
  Processor_Run pf (S fuel) p
    = Some (Crash (PanicSliceBounds (IP (psw p)) (IP (psw p) + 4)
                                    (size (memory p)))).
Proof.
  intros Hwf H0 Hip Hstop Herr.
  assert (Hv : Memory_IsValidAddress (memory p) (IP (psw p)) = true)
    by (apply IsValidAddress_true; lia).
  assert (Hstep : Processor_executeNextInstruction pf p
            = Crash (PanicSliceBounds (IP (psw p)) (IP (psw p) + 4)
                                      (size (memory p)))).
  { unfold Processor_executeNextInstruction. rewrite Hv. cbn [negb].
    rewrite Memory_ReadWord_out_of_range by lia. rewrite Hwf. reflexivity. }
  split; [exact Hv|]. split; [exact Hstep|].
  unfold Processor_Run. cbn [Run_loop]. rewrite Hstop, Herr, Hstep.
  reflexivity.
Qed.

Lemma fetch_at_end_panics_witness :
  (size (memory edgeProcessor) = len (data (memory edgeProcessor)) /\
   0 <= IP (psw edgeProcessor) /\
   size (memory edgeProcessor) - 3 <= IP (psw edgeProcessor)
     < size (memory edgeProcessor) /\
   stop edgeProcessor = false /\ error edgeProcessor = false) /\
  (Memory_IsValidAddress (memory edgeProcessor) (IP (psw edgeProcessor))
     = true /\
   Processor_executeNextInstruction noFloats edgeProcessor
     = Crash (PanicSliceBounds (IP (psw edgeProcessor))
                (IP (psw edgeProcessor) + 4) (size (memory edgeProcessor))) /\
   Processor_Run noFloats 1 edgeProcessor
     = Some (Crash (PanicSliceBounds (IP (psw edgeProcessor))
                      (IP (psw edgeProcessor) + 4)
                      (size (memory edgeProcessor))))).
Proof.
  split.
  - repeat split; vm_compute; congruence.
  - apply (fetch_at_end_panics noFloats edgeProcessor 0);
      vm_compute; try split; congruence.
Defined.

(** ** Multiplication by zero *)

(** [IMUL] whose second operand reads as zero panics: the overflow test
    divides the product by the second operand.  Every cell that decodes as a
    command reads as zero, so this includes multiplying by a negative
    number. *)
Theorem MulInt_zero_operand_panics
  (m : CommandData) (p : Processor) (addr1 addr2 : Z) (w1 w2 : Word) :
  let regIndex := uint8 (Z.land (Address1 m) 7) in
  calculateAddress (BB m) (Address1 m) regIndex p = Ret addr1 p ->
  calculateAddress (BB m) (Address2 m) regIndex p = Ret addr2 p ->
  Memory_ReadWord (memory p) addr1 = Ok w1 ->
  Memory_ReadWord (memory p) addr2 = Ok w2 ->
  I (D w2) = 0 ->
  MulInt_Execute m p = Crash PanicIntegerDivideByZero.
Proof.
  cbv zeta. intros Hc1 Hc2 H1 H2 Hz.
  destruct (Memory_WriteWord_after_read _ _ _
              (Word_setI w1 (int32 (I (D w1) * I (D w2)))) H1) as [m' Hw].
  unfold MulInt_Execute, bind. rewrite Hc1, Hc2.
  unfold readWord, writeWord. rewrite H1, H2, Hw, Hz. reflexivity.
Qed.

Lemma MulInt_zero_operand_panics_witness :
  let m := mkCommandData IMUL 0 4 8 in
  let regIndex := uint8 (Z.land (Address1 m) 7) in
  (calculateAddress (BB m) (Address1 m) regIndex tinyProcessor
     = Ret 4 tinyProcessor /\
   calculateAddress (BB m) (Address2 m) regIndex tinyProcessor
     = Ret 8 tinyProcessor /\
   Memory_ReadWord (memory tinyProcessor) 4 = Ok zeroWord /\
   Memory_ReadWord (memory tinyProcessor) 8 = Ok zeroWord /\
   I (D zeroWord) = 0) /\
  MulInt_Execute m tinyProcessor = Crash PanicIntegerDivideByZero.
Proof.
  cbv zeta. split.
  - repeat split.
  - apply (MulInt_zero_operand_panics (mkCommandData IMUL 0 4 8)
             tinyProcessor 4 8 zeroWord zeroWord); reflexivity.
Defined.

(** ** Floating-point instructions *)

Lemma Word_setF_zero (w : Word) :
  F (D w) = f32_zero -> Word_setF w f32_zero = w.
Proof.
  destruct w as [[i f] c]. cbn. intros ->. reflexivity.
Qed.

(** [RADD], [RSUB] and [RMUL] compute on the float views of the words they
    read, which are always zero: on a memory of bytes each of them writes
    the destination back as it was, so that no byte of the memory changes,
    and sets the zero flag and clears the three other flags, whatever the
    two cells hold. *)
Theorem float_arithmetic_is_inert
  (c : CommandData) (p : Processor) (addr1 addr2 : Z) (w1 w2 : Word) :
  let regIndex := uint8 (Z.land (Address1 c) 7) in
  Memory_bytesOk (memory p) = true ->
  calculateAddress (BB c) (Address1 c) regIndex p = Ret addr1 p ->
  calculateAddress (BB c) (Address2 c) regIndex p = Ret addr2 p ->
  Memory_ReadWord (memory p) addr1 = Ok w1 ->
  Memory_ReadWord (memory p) addr2 = Ok w2 ->
  exists m',
    Memory_WriteWord (memory p) addr1 w1 = Ok m' /\
    data m' = data (memory p) /\
    let p' := Processor_UpdateFloatFlags f32_zero (set_memory p m') in
    psw p' = mkPSW (IP (psw p)) false false false true /\
    registers p' = registers p /\
    AddFloat_Execute c p = Ret tt p' /\
    SubFloat_Execute c p = Ret tt p' /\
    MulFloat_Execute c p = Ret tt p'.
Proof.
  cbv zeta. intros Hok Hc1 Hc2 H1 H2.
  destruct (Memory_WriteWord_after_read _ _ _ w1 H1) as [m' Hw].
  exists m'. split; [exact Hw|].
  split; [exact (Memory_write_back _ _ _ _ Hok H1 Hw)|].
  split; [reflexivity|]. split; [reflexivity|].
  pose proof (Memory_ReadWord_float_zero _ _ _ H1) as F1.
  pose proof (Memory_ReadWord_float_zero _ _ _ H2) as F2.
  unfold AddFloat_Execute, SubFloat_Execute, MulFloat_Execute, bind.
  rewrite Hc1, Hc2. unfold readWord, writeWord. rewrite H1, H2, F1, F2.
  change (f32_add f32_zero f32_zero) with f32_zero.
  change (f32_sub f32_zero f32_zero) with f32_zero.
  change (f32_mul f32_zero f32_zero) with f32_zero.
  rewrite (Word_setF_zero w1 F1), Hw.
  repeat split.
Qed.

Lemma float_arithmetic_is_inert_witness :
  let c := mkCommandData RADD 0 0 4 in
  let regIndex := uint8 (Z.land (Address1 c) 7) in
  let w1 := Word_ofCmd (mkCommandData 65 0 256 0) in
  (Memory_bytesOk (memory commandProcessor) = true /\
   calculateAddress (BB c) (Address1 c) regIndex commandProcessor
     = Ret 0 commandProcessor /\
   calculateAddress (BB c) (Address2 c) regIndex commandProcessor
     = Ret 4 commandProcessor /\
   Memory_ReadWord (memory commandProcessor) 0 = Ok w1 /\
   Memory_ReadWord (memory commandProcessor) 4 = Ok zeroWord) /\
  exists m',
    Memory_WriteWord (memory commandProcessor) 0 w1 = Ok m' /\
    data m' = data (memory commandProcessor) /\
    let p' := Processor_UpdateFloatFlags f32_zero
                (set_memory commandProcessor m') in
    psw p' = mkPSW (IP (psw commandProcessor)) false false false true /\
    registers p' = registers commandProcessor /\
    AddFloat_Execute c commandProcessor = Ret tt p' /\
    SubFloat_Execute c commandProcessor = Ret tt p' /\
    MulFloat_Execute c commandProcessor = Ret tt p'.
Proof.
  cbv zeta. split.
  - repeat split.
  - apply (float_arithmetic_is_inert (mkCommandData RADD 0 0 4)
             commandProcessor 0 4 (Word_ofCmd (mkCommandData 65 0 256 0))
             zeroWord); reflexivity.
Defined.

(** ** Console output *)

(** Whatever cell it names, [IOUT] prints a number between 0 and [2^24 - 1]
    and [ROUT] prints the float zero; neither changes anything but the
    output, and when the address cannot be resolved nothing changes at
    all. *)
Theorem output_instructions_print (o : CommandData) (p : Processor) :
  Memory_bytesOk (memory p) = true ->
  match OutputInt_Execute o p with
  | Ret _ p' => exists v, 0 <= v < 2 ^ 24 /\ p' = print p (OutInt v)
  | Fail _ p' => p' = p
  | Crash _ => True
  end /\
  match OutputFloat_Execute o p with
  | Ret _ p' => p' = print p (OutFloat f32_zero)
  | Fail _ p' => p' = p
  | Crash _ => True
  end.
Proof.
  intros Hok. unfold OutputInt_Execute, OutputFloat_Execute, bind.
  destruct (calculateAddress_keeps (BB o) (Address1 o)
              (uint8 (Z.land (Address1 o) 7)) p) as [[ea Hc] | [e Hc]];
    rewrite Hc; [|split; reflexivity].
  unfold readWord.
  destruct (Memory_ReadWord (memory p) ea) as [w| |] eqn:Hr;
    [|split; reflexivity|split; exact Logic.I].
  unfold modify. split.
  - exists (I (D w)). split; [|reflexivity].
    eapply Memory_ReadWord_int_range; eassumption.
  - rewrite (Memory_ReadWord_float_zero _ _ _ Hr). reflexivity.
Qed.

Lemma output_instructions_print_witness :
  Memory_bytesOk (memory commandProcessor) = true /\
  (match OutputInt_Execute (mkCommandData IOUT 0 0 0) commandProcessor with
   | Ret _ p' =>
       exists v, 0 <= v < 2 ^ 24 /\ p' = print commandProcessor (OutInt v)
   | Fail _ p' => p' = commandProcessor
   | Crash _ => True
   end /\
   match OutputFloat_Execute (mkCommandData IOUT 0 0 0) commandProcessor with
   | Ret _ p' => p' = print commandProcessor (OutFloat f32_zero)
   | Fail _ p' => p' = commandProcessor
   | Crash _ => True
   end).
Proof.
  split; [reflexivity|].
  apply (output_instructions_print (mkCommandData IOUT 0 0 0)
           commandProcessor).
  reflexivity.
Defined.

(** ** The loader *)

Lemma sameShape_write (m m1 m2 : Memory) (a : Z) (w : Word) :
  sameShape m m1 -> Memory_WriteWord m1 a w = Ok m2 -> sameShape m m2.
Proof.
  intros (Hs & Hl & Hb) Hw.
  destruct (Memory_WriteWord_bytes _ _ _ _ Hw) as (_ & _ & Hs' & Hl' & _).
  repeat split; try congruence.
  intros Hok. eapply Memory_WriteWord_bytesOk; [apply Hb, Hok|exact Hw].
Qed.

Lemma lineCommand_eq (rawLine line f0 : string) (args : list string)
  (name : string) :
  TrimSpace (cutComment rawLine) = line ->
  Fields line = f0 :: args ->
  String.eqb (ToLower f0) name = true ->
  lineCommand rawLine = Some name.
Proof.
  intros E1 E2 E3. unfold lineCommand. rewrite E1, E2.
  apply String.eqb_eq in E3. rewrite E3. reflexivity.
Qed.

Ltac destruct_scrutinee x :=
  lazymatch x with
  | context [match ?y with _ => _ end] => destruct_scrutinee y
  | _ => destruct x eqn:?
  end.

Section Loader.

Variable pf : string -> option float32.

(** One line of the file: what it keeps and what it takes to return. *)
Lemma loadLine_cases (m : Memory) (st : LoaderState) (rawLine : string) :
  loaderInv m st ->
  match loadLine pf st rawLine with
  | Continue st' =>
      loaderInv m st' /\ lineNumber st' = lineNumber st /\
      (entryPointSet st' = true ->
       entryPointSet st = true \/ lineCommand rawLine = Some "e"%string)
  | Return (Loaded ip m') =>
      lineCommand rawLine = Some "s"%string /\ entryPointSet st = true /\
      ip = initialIP st /\ m' = ls_memory st
  | Return (LoadError e m') =>
      m' = ls_memory st /\ LineNumber e = lineNumber st
  | Return (LoadPanic _) => True
  end.
Proof.
  intros Hinv. unfold loadLine, loaderWrite. cbv zeta.
  repeat match goal with
  | |- context [match ?x with _ => _ end] => destruct_scrutinee x
  end;
  try (split; reflexivity); try exact Logic.I;
  try (split; [exact Hinv|split; [reflexivity|intros; left; assumption]]).
  all: destruct Hinv as (Hshape & Hip).
  all: try (split; [split; [eapply sameShape_write; eassumption|exact Hip]
                   |split; [reflexivity|intros; left; assumption]]).
  - (* e *)
    split; [|split; [reflexivity|]].
    + split; [exact Hshape|]. intros _. cbn [initialIP].
      match goal with H : ParseInt _ 16 16 = inr ?ip |- _ =>
        pose proof (ParseInt_16_range _ _ H) as Hr end.
      match goal with H : negb (Memory_IsValidAddress _ _) = false |- _ =>
        apply negb_false_iff, IsValidAddress_true in H;
        destruct Hshape as (Hs & _); rewrite Hs in H end.
      unfold uint16. change (2 ^ 16) with 65536.
      rewrite Z.mod_small by lia. lia.
    + intros _. right. eapply lineCommand_eq; eassumption.
  - (* s *)
    split; [eapply lineCommand_eq; eassumption|].
    split; [|split; reflexivity].
    match goal with H : negb _ = false |- _ =>
      apply negb_false_iff in H; exact H end.
Qed.

Lemma loaderInv_next (m : Memory) (st : LoaderState) :
  loaderInv m st ->
  loaderInv m (mkLoaderState (ls_memory st) (address st) (initialIP st)
                             (entryPointSet st) (lineNumber st + 1)).
Proof. intros H. exact H. Qed.

(** The scanning loop, from any state between two lines. *)
Lemma loadLines_cases (m : Memory) (lines : list string) (st : LoaderState) :
  loaderInv m st ->
  match loadLines pf lines st with
  | Loaded ip m' =>
      (0 <= ip < 32768 /\ ip < size m) /\ sameShape m m' /\
      (exists l, In l lines /\ lineCommand l = Some "s"%string) /\
      (entryPointSet st = true \/
       exists l, In l lines /\ lineCommand l = Some "e"%string)
  | LoadError e m' =>
      sameShape m m' /\
      lineNumber st <= LineNumber e <= lineNumber st + len lines
  | LoadPanic _ => True
  end.
Proof.
  revert st. induction lines as [|l rest IH]; intros st Hinv.
  - cbn. split; [apply Hinv|]. unfold len. cbn. lia.
  - cbn [loadLines]. cbv zeta.
    pose proof (loadLine_cases m _ l (loaderInv_next m st Hinv)) as Hl.
    destruct (loadLine pf _ l) as [st2|r].
    + destruct Hl as (Hinv2 & Hn & He). cbn [lineNumber] in Hn.
      specialize (IH st2 Hinv2).
      destruct (loadLines pf rest st2) as [ip m'|e m'|c]; [| |exact Logic.I].
      * destruct IH as (Hip & Hs & (ls & Hin & Hcs) & He2).
        split; [exact Hip|]. split; [exact Hs|]. split.
        -- exists ls. split; [right; exact Hin|exact Hcs].
        -- destruct He2 as [Hset|(le & Hin2 & Hce)].
           ++ destruct (He Hset) as [H1|H1]; [left; exact H1|].
              right. exists l. split; [left; reflexivity|exact H1].
           ++ right. exists le. split; [right; exact Hin2|exact Hce].
      * destruct IH as (Hs & Hn2). split; [exact Hs|].
        unfold len in *. cbn [List.length]. lia.
    + destruct r as [ip m'|e m'|c]; [| |exact Logic.I].
      * destruct Hl as (Hcs & Hset & -> & ->). cbn [entryPointSet ls_memory initialIP] in *.
        destruct Hinv as (Hshape & Hip).
        split; [exact (Hip Hset)|]. split; [exact Hshape|]. split.
        -- exists l. split; [left; reflexivity|exact Hcs].
        -- left. exact Hset.
      * destruct Hl as (-> & Hn). cbn [ls_memory lineNumber] in *.
        split; [apply Hinv|]. unfold len. cbn [List.length]. lia.
Qed.

End Loader.

(** ** What a load returns *)

Lemma loader_shape_helper
  (pf : string -> option float32) (lines : list string) (m : Memory) :
  Memory_bytesOk m = true ->
  match readProgramFromFile pf lines m with
  | Loaded ip m' =>
      0 <= ip < 32768 /\ ip < size m /\
      size m' = size m /\ len (data m') = len (data m) /\
      Memory_bytesOk m' = true
  | LoadError e m' =>
      0 <= LineNumber e <= len lines /\
      size m' = size m /\ len (data m') = len (data m) /\
      Memory_bytesOk m' = true
  | LoadPanic _ => True
  end.
Proof.
  intros Hok. unfold readProgramFromFile.
  assert (Hinv : loaderInv m (mkLoaderState m 0 0 false 0)).
  { split; [repeat split; auto|]. cbn. discriminate. }
  pose proof (loadLines_cases pf m lines _ Hinv) as H.
  destruct (loadLines pf lines _) as [ip m'|e m'|c]; [| |exact Logic.I].
  - destruct H as ((Hip & Hsz) & (Hs & Hl & Hb) & _).
    repeat split; auto; lia.
  - destruct H as ((Hs & Hl & Hb) & Hn). cbn [lineNumber] in Hn.
    repeat split; auto; lia.
Qed.

(** Loading a program into a memory of bytes: the memory keeps its size, its
    length and its byte range, whether the load succeeds or returns an
    error; an entry point that is returned is an address of the memory below
    [0x8000]; an error names a line number between 0 and the number of lines
    of the file. *)
Theorem loader_keeps_memory_shape
  (pf : string -> option float32) (lines : list string) (m : Memory) :
  Memory_bytesOk m = true ->
  match readProgramFromFile pf lines m with
  | Loaded ip m' =>
      0 <= ip < 32768 /\ ip < size m /\
      size m' = size m /\ len (data m') = len (data m) /\
      Memory_bytesOk m' = true
  | LoadError e m' =>
      0 <= LineNumber e <= len lines /\
      size m' = size m /\ len (data m') = len (data m) /\
      Memory_bytesOk m' = true
  | LoadPanic _ => True
  end.
Proof. apply loader_shape_helper. Qed.

Lemma loader_keeps_memory_shape_witness :
  Memory_bytesOk smallMemory = true /\
  match readProgramFromFile noFloats ["a 4"; "i 7"; "e 4"; "s"]%string
          smallMemory with
  | Loaded ip m' =>
      0 <= ip < 32768 /\ ip < size smallMemory /\
      size m' = size smallMemory /\
      len (data m') = len (data smallMemory) /\
      Memory_bytesOk m' = true
  | LoadError e m' =>
      0 <= LineNumber e <= len ["a 4"; "i 7"; "e 4"; "s"]%string /\
      size m' = size smallMemory /\
      len (data m') = len (data smallMemory) /\
      Memory_bytesOk m' = true
  | LoadPanic _ => True
  end.
Proof.
  split; [reflexivity|].
  apply (loader_keeps_memory_shape noFloats
           ["a 4"; "i 7"; "e 4"; "s"]%string smallMemory).
  reflexivity.
Defined.

(** A program that loads has a line whose directive is [e] and a line whose
    directive is [s], in either case of the letter. *)
Theorem loaded_program_has_e_and_s
  (pf : string -> option float32) (lines : list string) (m m' : Memory)
  (ip : Z) :
  readProgramFromFile pf lines m = Loaded ip m' ->
  (exists l, In l lines /\ lineCommand l = Some "e"%string) /\
  (exists l, In l lines /\ lineCommand l = Some "s"%string).
Proof.
  unfold readProgramFromFile. intros E.
  assert (Hinv : loaderInv m (mkLoaderState m 0 0 false 0)).
  { split; [repeat split; auto|]. cbn. discriminate. }
  pose proof (loadLines_cases pf m lines _ Hinv) as H. rewrite E in H.
  destruct H as (_ & _ & Hs & [He|He]); [discriminate He|].
  split; assumption.
Qed.

Lemma loaded_program_has_e_and_s_witness :
  readProgramFromFile noFloats ["E 0 # entry"; " S"]%string smallMemory
    = Loaded 0 smallMemory /\
  ((exists l, In l ["E 0 # entry"; " S"]%string /\
              lineCommand l = Some "e"%string) /\
   (exists l, In l ["E 0 # entry"; " S"]%string /\
              lineCommand l = Some "s"%string)).
Proof.
  split; [reflexivity|].
  apply (loaded_program_has_e_and_s noFloats ["E 0 # entry"; " S"]%string
           smallMemory smallMemory 0).
  reflexivity.
Defined.

Lemma loadLines_app (pf : string -> option float32)
  (lines more : list string) (st : LoaderState) :
  endedWithoutS (loadLines pf lines st) = false ->
  loadLines pf (lines ++ more) st = loadLines pf lines st.
Proof.
  revert st. induction lines as [|l rest IH]; intros st H.
  - discriminate H.
  - cbn [loadLines app] in *. cbv zeta in *.
    destruct (loadLine pf _ l); [apply IH, H|reflexivity].
Qed.

(** The loader reads no further than the line at which it returns: unless it
    ended for want of an [s] line, whatever follows in the file changes
    neither the result nor the memory. *)
Theorem loader_stops_at_first_result
  (pf : string -> option float32) (lines more : list string) (m : Memory) :
  endedWithoutS (readProgramFromFile pf lines m) = false ->
  readProgramFromFile pf (lines ++ more) m = readProgramFromFile pf lines m.
Proof. apply loadLines_app. Qed.

Lemma loader_stops_at_first_result_witness :
  endedWithoutS (readProgramFromFile noFloats emptyProgram smallMemory)
    = false /\
  readProgramFromFile noFloats (emptyProgram ++ ["x"; "e 4"]%string)
    smallMemory
  = readProgramFromFile noFloats emptyProgram smallMemory.
Proof.
  split; [reflexivity|].
  apply (loader_stops_at_first_result noFloats emptyProgram
           ["x"; "e 4"]%string smallMemory).
  reflexivity.
Defined.

Lemma cutComment_app (line comment : string) :
  cutComment (line ++ String "#" comment) = cutComment line.
Proof.
  induction line as [|c rest IH]; cbn.
  - reflexivity.
  - destruct (Ascii.eqb c "#"); [reflexivity|]. rewrite IH. reflexivity.
Qed.

Lemma loadLine_comment (pf : string -> option float32) (st : LoaderState)
  (line comment : string) :
  loadLine pf st (line ++ String "#" comment) = loadLine pf st line.
Proof. unfold loadLine. rewrite cutComment_app. reflexivity. Qed.

(** Text added after a [#] at the end of any lines of a file changes nothing
    of what the loader returns, the reported line text included. *)
Theorem loader_ignores_comments
  (pf : string -> option float32) (commented : list (string * string))
  (m : Memory) :
  readProgramFromFile pf
    (map (fun lc => (fst lc ++ String "#" (snd lc))%string) commented) m
  = readProgramFromFile pf (map fst commented) m.
Proof.
  unfold readProgramFromFile. generalize (mkLoaderState m 0 0 false 0).
  induction commented as [|[l c] rest IH]; intros st; [reflexivity|].
  cbn [map loadLines fst snd]. cbv zeta.
  rewrite loadLine_comment.
  destruct (loadLine pf _ l); [apply IH|reflexivity].
Qed.

Lemma nth_four_zeros (n : nat) : nth n [0; 0; 0; 0] 0 = 0.
Proof. destruct n as [|[|[|[|[|n]]]]]; reflexivity. Qed.

(** The [r] directive stores no float: whatever number it names, the line
    zeroes the four bytes at the loader's address, changes no other byte,
    and advances the address by one. *)
Theorem loader_float_directive_stores_zero
  (pf : string -> option float32) (st st' : LoaderState)
  (rawLine f0 f1 : string) (rest : list string) :
  Fields (TrimSpace (cutComment rawLine)) = f0 :: f1 :: rest ->
  ToLower f0 = "r"%string ->
  loadLine pf st rawLine = Continue st' ->
  address st' = address st + 1 /\
  forall i, 0 <= i ->
    byteAt (ls_memory st') i
    = if (address st <=? i) && (i <? address st + 4) then 0
      else byteAt (ls_memory st) i.
Proof.
  intros Hf Hr. unfold loadLine. cbv zeta.
  destruct (TrimSpace (cutComment rawLine)) as [|c line] eqn:El;
    [discriminate Hf|].
  rewrite Hf, Hr.
  change (String.eqb "r" "a") with false.
  change (String.eqb "r" "e") with false.
  change (String.eqb "r" "i") with false.
  change (String.eqb "r" "r") with true. cbv iota.
  destruct (pf f1) as [v|]; [|discriminate].
  unfold loaderWrite.
  destruct (Memory_WriteWord (ls_memory st) (address st) (Word_ofFloat v))
    as [m'| |] eqn:Ew; try discriminate.
  intros E. injection E as <-. cbn [address ls_memory].
  split; [reflexivity|].
  destruct (Memory_WriteWord_bytes _ _ _ _ Ew) as (_ & _ & _ & _ & _ & _ & _ & Hb).
  intros i Hi. rewrite (Hb i Hi).
  change (PutUint32 (encodeWord (Word_ofFloat v))) with [0; 0; 0; 0].
  rewrite nth_four_zeros. reflexivity.
Qed.

Lemma loader_float_directive_stores_zero_witness :
  let st := mkLoaderState smallMemoryWritten 0 0 false 1 in
  let st' := mkLoaderState (mkMemory [0; 0; 0; 0; 0; 0; 0; 0] 8 0 2 true)
                           1 0 false 1 in
  (Fields (TrimSpace (cutComment "R 1.5 # one and a half"))
   = ["R"; "1.5"]%string /\
   ToLower "R" = "r"%string /\
   loadLine oneFloat st "R 1.5 # one and a half" = Continue st') /\
  address st' = address st + 1 /\
  forall i, 0 <= i ->
    byteAt (ls_memory st') i
    = if (address st <=? i) && (i <? address st + 4) then 0
      else byteAt (ls_memory st) i.
Proof.
  cbv zeta. split.
  - repeat split.
  - apply (loader_float_directive_stores_zero oneFloat
             (mkLoaderState smallMemoryWritten 0 0 false 1)
             (mkLoaderState (mkMemory [0; 0; 0; 0; 0; 0; 0; 0] 8 0 2 true)
                            1 0 false 1)
             "R 1.5 # one and a half" "R" "1.5" []); reflexivity.
Defined.

(** ** Start-up *)

Lemma bootMemory_bytesOk : Memory_bytesOk bootMemory = true.
Proof.
  unfold Memory_bytesOk, bootMemory. cbn [data].
  apply forallb_forall. intros b Hb.
  apply repeat_spec in Hb. subst b. reflexivity.
Qed.

Lemma bootMemory_len : len (data bootMemory) = 65536.
Proof.
  unfold len, bootMemory. cbn [data]. rewrite repeat_length.
  apply Z2Nat.id. lia.
Qed.

(** When start-up succeeds, [Run] begins on a clean machine: the instruction
    pointer is the entry point of the file, an address below [0x8000]; all
    four flags, both registers and the error and stop flags are clear; and
    the memory is 65536 bytes. *)
Theorem main_start_fresh
  (pf : string -> option float32) (lines input : list string)
  (p : Processor) :
  main_start pf lines input = Ready p ->
  entryPointOf (readProgramFromFile pf lines bootMemory) = Some (IP (psw p)) /\
  0 <= IP (psw p) < 32768 /\
  psw p = mkPSW (IP (psw p)) false false false false /\
  registers p = [0; 0] /\ error p = false /\ stop p = false /\
  size (memory p) = 65536 /\ len (data (memory p)) = 65536 /\
  Memory_bytesOk (memory p) = true.
Proof.
  unfold main_start, NewProcessor. rewrite NewMemory_boot. cbn [memory].
  pose proof (loader_shape_helper pf lines bootMemory bootMemory_bytesOk) as H.
  destruct (readProgramFromFile pf lines bootMemory) as [ip m'|e m'|c];
    try discriminate.
  destruct H as (Hip & Hsz & Hs & Hl & Hb).
  intros E. injection E as <-.
  unfold Processor_Reset, set_memory. cbn [memory psw registers error stop stdin stdout].
  assert (Hv : Memory_IsValidAddress m' ip = true).
  { apply IsValidAddress_true. rewrite Hs. lia. }
  rewrite Hv. cbn [negb memory psw registers error stop stdin stdout IP store].
  rewrite Hs, Hl, bootMemory_len. change (size bootMemory) with 65536.
  repeat split; auto; lia.
Qed.

Lemma main_start_fresh_witness :
  let p := readyProcessor (main_start noFloats emptyProgram ["7"]%string) in
  main_start noFloats emptyProgram ["7"]%string = Ready p /\
  entryPointOf (readProgramFromFile noFloats emptyProgram bootMemory)
    = Some (IP (psw p)) /\
  0 <= IP (psw p) < 32768 /\
  psw p = mkPSW (IP (psw p)) false false false false /\
  registers p = [0; 0] /\ error p = false /\ stop p = false /\
  size (memory p) = 65536 /\ len (data (memory p)) = 65536 /\
  Memory_bytesOk (memory p) = true.
Proof.
  cbv zeta.
  assert (E : main_start noFloats emptyProgram ["7"]%string
              = Ready (readyProcessor
                         (main_start noFloats emptyProgram ["7"]%string))).
  { apply Ready_readyProcessor. vm_compute. reflexivity. }
  split; [exact E|].
  exact (main_start_fresh noFloats emptyProgram ["7"]%string _ E).
Defined.

(** ** Registers through memory *)

(** [STORE] of a register followed by [LOAD] from the same address: the
    register loaded holds the stored value when that value is between 0 and
    [2^24 - 1], and 0 otherwise - a negative register value, or one of
    [2^24] or more, does not survive the trip through memory.  The flags are
    as before. *)
Theorem store_then_load (s l : CommandData) (p : Processor) :
  let regS := uint8 (Z.land (Address2 s) 7) in
  let regL := uint8 (Z.land (Address1 l) 7) in
  let v := nth (Z.to_nat regS) (registers p) 0 in
  List.length (registers p) = 2%nat ->
  regS < NUM_REGISTERS -> regL < NUM_REGISTERS ->
  Address2 l = Address1 s ->
  0 <= Address1 s -> Address1 s + 4 <= len (data (memory p)) ->
  - 2 ^ 31 <= v < 2 ^ 31 ->
  exists p',
    (StoreRegister_Execute s ;; LoadRegister_Execute l) p = Ret tt p' /\
    nth (Z.to_nat regL) (registers p') 0
      = (if (0 <=? v) && (v <? 2 ^ 24) then v else 0) /\
    psw p' = psw p.
Proof.
  cbv zeta. intros Hlen HS HL Ea Ha Hb Hv.
  set (v := nth (Z.to_nat (uint8 (Z.land (Address2 s) 7))) (registers p) 0)
    in *.
  destruct (Memory_WriteWord_ReadWord (memory p) (Address1 s) (Word_ofInt v)
              Ha Hb) as (m' & Hw & _ & _ & Hr).
  unfold StoreRegister_Execute, LoadRegister_Execute, bind,
    Processor_GetRegister, Processor_SetRegister, writeWord, readWord.
  destruct (Z.geb_spec (uint8 (Z.land (Address2 s) 7)) NUM_REGISTERS);
    [lia|].
  fold v. rewrite Hw. cbn [memory set_memory]. rewrite Ea, Hr.
  destruct (Z.geb_spec (uint8 (Z.land (Address1 l) 7)) NUM_REGISTERS);
    [lia|].
  eexists. split; [reflexivity|]. split; [|reflexivity].
  cbn [registers set_registers set_memory].
  assert (0 <= uint8 (Z.land (Address1 l) 7)) by apply uint8_range.
  unfold NUM_REGISTERS in *.
  rewrite nth_store by lia. rewrite Nat.eqb_refl.
  change (encodeWord (Word_ofInt v)) with (uint32 v).
  fold (topByte v).
  pose proof (topByte_zero_iff v Hv) as Hz.
  assert (Htop : 0 <= topByte v) by (apply shiftr24_nonneg, uint32_range).
  unfold decodeWord.
  destruct (Z.gtb_spec (topByte v) 0) as [Hgt|Hle]; cbn [I D].
  - destruct (Z.leb_spec 0 v), (Z.ltb_spec v (2 ^ 24)); cbn [andb];
      try reflexivity.
    assert (topByte v = 0) by (apply Hz; lia). lia.
  - assert (Hr0 : 0 <= v < 2 ^ 24) by (apply Hz; lia).
    rewrite int32_uint32 by exact Hv.
    destruct (Z.leb_spec 0 v), (Z.ltb_spec v (2 ^ 24)); cbn [andb];
      try reflexivity; lia.
Qed.

Lemma store_then_load_witness :
  let s := mkCommandData STORE 0 4 0 in
  let l := mkCommandData LOAD 0 1 4 in
  let p := storeProcessor in
  let regS := uint8 (Z.land (Address2 s) 7) in
  let regL := uint8 (Z.land (Address1 l) 7) in
  let v := nth (Z.to_nat regS) (registers p) 0 in
  (List.length (registers p) = 2%nat /\
   regS < NUM_REGISTERS /\ regL < NUM_REGISTERS /\
   Address2 l = Address1 s /\
   0 <= Address1 s /\ Address1 s + 4 <= len (data (memory p)) /\
   - 2 ^ 31 <= v < 2 ^ 31) /\
  exists p',
    (StoreRegister_Execute s ;; LoadRegister_Execute l) p = Ret tt p' /\
    nth (Z.to_nat regL) (registers p') 0
      = (if (0 <=? v) && (v <? 2 ^ 24) then v else 0) /\
    psw p' = psw p.
Proof.
  cbv zeta. split.
  - vm_compute. repeat split; congruence.
  - apply (store_then_load (mkCommandData STORE 0 4 0)
             (mkCommandData LOAD 0 1 4) storeProcessor);
      vm_compute; try reflexivity; try (split; congruence); congruence.
Defined.

(** ** Integer division *)

(** [IDIV] on a memory of bytes.  The integer views of the two cells are
    between 0 and [2^24 - 1], so with a nonzero divisor the result is their
    quotient, between 0 and the dividend; the sign, carry and overflow flags
    are cleared and the zero flag says that the dividend is the smaller.
    With a zero divisor the instruction returns the division error with the
    error flag set, and writes nothing. *)
Theorem DivInt_on_bytes
  (d : CommandData) (p : Processor) (addr1 addr2 : Z) (w1 w2 : Word) :
  let regIndex := uint8 (Z.land (Address1 d) 7) in
  Memory_bytesOk (memory p) = true ->
  calculateAddress (BB d) (Address1 d) regIndex p = Ret addr1 p ->
  calculateAddress (BB d) (Address2 d) regIndex p = Ret addr2 p ->
  Memory_ReadWord (memory p) addr1 = Ok w1 ->
  Memory_ReadWord (memory p) addr2 = Ok w2 ->
  let q := I (D w1) / I (D w2) in
  exists m',
    Memory_WriteWord (memory p) addr1 (Word_setI w1 q) = Ok m' /\
    0 <= q <= I (D w1) /\
    DivInt_Execute d p
    = if I (D w2) =? 0 then Fail ErrDivisionByZero (set_error p true)
      else Ret tt (set_psw (set_memory p m')
                     (mkPSW (IP (psw p)) false false false
                            (I (D w1) <? I (D w2)))).
Proof.
  cbv zeta. intros Hok Hc1 Hc2 H1 H2.
  pose proof (Memory_ReadWord_int_range _ _ _ Hok H1) as R1.
  pose proof (Memory_ReadWord_int_range _ _ _ Hok H2) as R2.
  change (2 ^ 24) with 16777216 in *.
  destruct (Memory_WriteWord_after_read _ _ _
              (Word_setI w1 (I (D w1) / I (D w2))) H1) as [m' Hw].
  exists m'. split; [exact Hw|].
  assert (Hq : 0 <= I (D w1) / I (D w2) <= I (D w1)).
  { destruct (Z.eq_dec (I (D w2)) 0) as [E|E].
    - rewrite E, Z.div_0_r. lia.
    - split; [apply Z.div_pos; lia|].
      apply Z.div_le_upper_bound; [lia|]. nia. }
  split; [exact Hq|].
  unfold DivInt_Execute, bind. rewrite Hc1, Hc2.
  unfold readWord, writeWord. rewrite H1, H2.
  destruct (Z.eqb_spec (I (D w2)) 0) as [E|E]; [reflexivity|].
  rewrite Z.quot_div_nonneg by lia.
  assert (Ei : int32 (I (D w1) / I (D w2)) = I (D w1) / I (D w2)).
  { unfold int32. change (2 ^ 31) with 2147483648.
    change (2 ^ 32) with 4294967296. rewrite Z.mod_small by lia. lia. }
  rewrite Ei, Hw. unfold modify.
  unfold Processor_UpdateArithmeticFlags, Processor_SetOverflowFlag,
    Processor_SetCarryFlag, Processor_SetZeroFlag, Processor_SetSignFlag,
    set_psw, set_memory.
  cbn [memory psw registers error stop stdin stdout IP SignFlag CarryFlag
       OverflowFlag ZeroFlag].
  do 3 f_equal.
  - destruct (Z.ltb_spec (I (D w1) / I (D w2)) 0); [lia|reflexivity].
  - destruct (Z.eqb_spec (I (D w1) / I (D w2)) 0) as [Ez|Ez],
      (Z.ltb_spec (I (D w1)) (I (D w2))) as [Hlt|Hge]; try reflexivity.
    + apply Z.div_small_iff in Ez; lia.
    + rewrite Z.div_small in Ez by lia. contradiction.
Qed.

Lemma DivInt_on_bytes_witness :
  let d := mkCommandData IDIV 0 0 4 in
  let p := divProcessor in
  let regIndex := uint8 (Z.land (Address1 d) 7) in
  (Memory_bytesOk (memory p) = true /\
   calculateAddress (BB d) (Address1 d) regIndex p = Ret 0 p /\
   calculateAddress (BB d) (Address2 d) regIndex p = Ret 4 p /\
   Memory_ReadWord (memory p) 0 = Ok (Word_ofInt 7) /\
   Memory_ReadWord (memory p) 4 = Ok (Word_ofInt 2)) /\
  let q := I (D (Word_ofInt 7)) / I (D (Word_ofInt 2)) in
  exists m',
    Memory_WriteWord (memory p) 0 (Word_setI (Word_ofInt 7) q) = Ok m' /\
    0 <= q <= I (D (Word_ofInt 7)) /\
    DivInt_Execute d p
    = if I (D (Word_ofInt 2)) =? 0
      then Fail ErrDivisionByZero (set_error p true)
      else Ret tt (set_psw (set_memory p m')
                     (mkPSW (IP (psw p)) false false false
                            (I (D (Word_ofInt 7)) <? I (D (Word_ofInt 2))))).
Proof.
  cbv zeta. split.
  - repeat split.
  - apply (DivInt_on_bytes (mkCommandData IDIV 0 0 4) divProcessor 0 4
             (Word_ofInt 7) (Word_ofInt 2)); reflexivity.
Defined.

(** ** Arithmetic on a cell that holds an instruction *)

Lemma encodeWord_setI (w : Word) (r : Z) :
  0 < Opcode (Cmd w) -> encodeWord (Word_setI w r) = encodeWord w.
Proof.
  intros H. unfold encodeWord, Word_setI. cbn [Cmd D I].
  destruct (Z.gtb_spec (Opcode (Cmd w)) 0); [reflexivity|lia].
Qed.

Lemma Memory_WriteWord_encode (m : Memory) (a : Z) (w w' : Word) :
  encodeWord w = encodeWord w' ->
  Memory_WriteWord m a w = Memory_WriteWord m a w'.
Proof. intros E. unfold Memory_WriteWord. rewrite E. reflexivity. Qed.

Lemma write_instruction_cell (m m' : Memory) (a r : Z) (w : Word) :
  Memory_bytesOk m = true ->
  Memory_ReadWord m a = Ok w ->
  0 < Opcode (Cmd w) ->
  Memory_WriteWord m a (Word_setI w r) = Ok m' ->
  data m' = data m.
Proof.
  intros Hok Hr Hop Hw.
  rewrite (Memory_WriteWord_encode m a _ w (encodeWord_setI w r Hop)) in Hw.
  exact (Memory_write_back _ _ _ _ Hok Hr Hw).
Qed.

(** The four integer instructions cannot change a cell that holds an
    instruction.  When the destination reads as a command (its top byte is
    not zero), [IADD], [ISUB], [IMUL] and [IDIV] with a nonzero second
    operand return normally and leave every byte of the memory, and the
    registers, as they were: the result is put in the integer view of the
    word, and the word is written back from its command view. *)
Theorem integer_arithmetic_keeps_instruction_cells
  (c : CommandData) (p : Processor) (addr1 addr2 : Z) (w1 w2 : Word) :
  let regIndex := uint8 (Z.land (Address1 c) 7) in
  Memory_bytesOk (memory p) = true ->
  calculateAddress (BB c) (Address1 c) regIndex p = Ret addr1 p ->
  calculateAddress (BB c) (Address2 c) regIndex p = Ret addr2 p ->
  Memory_ReadWord (memory p) addr1 = Ok w1 ->
  Memory_ReadWord (memory p) addr2 = Ok w2 ->
  0 < Opcode (Cmd w1) ->
  I (D w2) <> 0 ->
  (exists p', AddInt_Execute c p = Ret tt p' /\
              data (memory p') = data (memory p) /\
              registers p' = registers p) /\
  (exists p', SubInt_Execute c p = Ret tt p' /\
              data (memory p') = data (memory p) /\
              registers p' = registers p) /\
  (exists p', MulInt_Execute c p = Ret tt p' /\
              data (memory p') = data (memory p) /\
              registers p' = registers p) /\
  (exists p', DivInt_Execute c p = Ret tt p' /\
              data (memory p') = data (memory p) /\
              registers p' = registers p).
Proof.
  cbv zeta. intros Hok Hc1 Hc2 H1 H2 Hop Hnz.
  split; [|split; [|split]].
  - destruct (AddInt_Execute_flags c p addr1 addr2 w1 w2 Hc1 Hc2 H1 H2)
      as (m' & Hw & E).
    eexists. split; [exact E|]. split; [|reflexivity].
    exact (write_instruction_cell _ _ _ _ _ Hok H1 Hop Hw).
  - destruct (SubInt_Execute_flags c p addr1 addr2 w1 w2 Hc1 Hc2 H1 H2)
      as (m' & Hw & E).
    eexists. split; [exact E|]. split; [|reflexivity].
    exact (write_instruction_cell _ _ _ _ _ Hok H1 Hop Hw).
  - destruct (Memory_WriteWord_after_read _ _ _
                (Word_setI w1 (int32 (I (D w1) * I (D w2)))) H1) as [m' Hw].
    unfold MulInt_Execute, bind. rewrite Hc1, Hc2.
    unfold readWord, writeWord. rewrite H1, H2, Hw.
    destruct (Z.eqb_spec (I (D w2)) 0); [contradiction|].
    eexists. split; [reflexivity|]. split; [|reflexivity].
    exact (write_instruction_cell _ _ _ _ _ Hok H1 Hop Hw).
  - destruct (DivInt_Execute_quotient c p addr1 addr2 w1 w2 Hc1 Hc2 H1 H2 Hnz)
      as (m' & Hw & E).
    eexists. split; [exact E|]. split; [|reflexivity].
    exact (write_instruction_cell _ _ _ _ _ Hok H1 Hop Hw).
Qed.

Lemma integer_arithmetic_keeps_instruction_cells_witness :
  let c := mkCommandData IADD 0 0 4 in
  let p := instructionProcessor in
  let regIndex := uint8 (Z.land (Address1 c) 7) in
  let w1 := Word_ofCmd (mkCommandData 1 0 0 4) in
  let w2 := Word_ofInt 2 in
  (Memory_bytesOk (memory p) = true /\
   calculateAddress (BB c) (Address1 c) regIndex p = Ret 0 p /\
   calculateAddress (BB c) (Address2 c) regIndex p = Ret 4 p /\
   Memory_ReadWord (memory p) 0 = Ok w1 /\
   Memory_ReadWord (memory p) 4 = Ok w2 /\
   0 < Opcode (Cmd w1) /\
   I (D w2) <> 0) /\
  (exists p', AddInt_Execute c p = Ret tt p' /\
              data (memory p') = data (memory p) /\
              registers p' = registers p) /\
  (exists p', SubInt_Execute c p = Ret tt p' /\
              data (memory p') = data (memory p) /\
              registers p' = registers p) /\
  (exists p', MulInt_Execute c p = Ret tt p' /\
              data (memory p') = data (memory p) /\
              registers p' = registers p) /\
  (exists p', DivInt_Execute c p = Ret tt p' /\
              data (memory p') = data (memory p) /\
              registers p' = registers p).
Proof.
  cbv zeta. split.
  - repeat split. discriminate.
  - apply (integer_arithmetic_keeps_instruction_cells
             (mkCommandData IADD 0 0 4) instructionProcessor 0 4
             (Word_ofCmd (mkCommandData 1 0 0 4)) (Word_ofInt 2));
      try reflexivity. discriminate.
Defined.

(** ** Float input *)



(** ** Integer input *)

Lemma uint32_int32_any (x : Z) : uint32 (int32 x) = uint32 x.
Proof.
  unfold uint32, int32. change (2 ^ 31) with 2147483648.
  change (2 ^ 32) with 4294967296. Z.div_mod_to_equations. lia.
Qed.



(** ** Flags of the register arithmetic *)

Lemma int32_cases (x : Z) :
  - 2 ^ 32 <= x < 2 ^ 32 ->
  - 2 ^ 31 <= int32 x < 2 ^ 31 /\
  (int32 x = x \/ int32 x = x - 2 ^ 32 \/ int32 x = x + 2 ^ 32).
Proof.
  intros H. unfold int32. change (2 ^ 31) with 2147483648 in *.
  change (2 ^ 32) with 4294967296 in *. Z.div_mod_to_equations. lia.
Qed.

Lemma addCarry_is_sign (a b : Z) :
  specAddCarry a b = (int32 (a + b) <? 0).
Proof.
  unfold specAddCarry, uint32, int32. change (2 ^ 31) with 2147483648.
  change (2 ^ 32) with 4294967296. change 0x7FFFFFFF with 2147483647.
  destruct (Z.gtb_spec (((a mod 4294967296) + (b mod 4294967296))
                          mod 4294967296) 2147483647),
    (Z.ltb_spec ((a + b + 2147483648) mod 4294967296 - 2147483648) 0);
    try reflexivity; exfalso; Z.div_mod_to_equations; lia.
Qed.

Lemma subCarry_is_borrow (a b : Z) :
  - 2 ^ 31 <= a < 2 ^ 31 -> - 2 ^ 31 <= b < 2 ^ 31 ->
  specSubCarry a b
  = (if (0 <=? a) && (b <? 0) then true
     else if (a <? 0) && (0 <=? b) then false
     else a <? b).
Proof.
  intros Ha Hb. unfold specSubCarry, uint32.
  change (2 ^ 31) with 2147483648 in *. change (2 ^ 32) with 4294967296.
  destruct (Z.ltb_spec (a mod 4294967296) (b mod 4294967296)),
    (Z.leb_spec 0 a), (Z.ltb_spec b 0), (Z.ltb_spec a 0), (Z.leb_spec 0 b),
    (Z.ltb_spec a b); cbn [andb]; try reflexivity; try lia;
    exfalso; Z.div_mod_to_equations; lia.
Qed.

Lemma addOverflow_cases (a b : Z) :
  - 2 ^ 31 <= a < 2 ^ 31 -> - 2 ^ 31 <= b < 2 ^ 31 ->
  specAddOverflow a b (int32 (a + b))
  = negb (int32 (a + b) =? a + b) && negb (int32 (a + b) =? 0).
Proof.
  intros Ha Hb. unfold specAddOverflow.
  destruct (int32_cases (a + b)) as (Hr & Hc);
    [change (2 ^ 31) with 2147483648 in *;
     change (2 ^ 32) with 4294967296; lia|].
  change (2 ^ 31) with 2147483648 in *.
  change (2 ^ 32) with 4294967296 in *.
  destruct (Z.gtb_spec a 0), (Z.gtb_spec b 0), (Z.ltb_spec a 0),
    (Z.ltb_spec b 0), (Z.ltb_spec (int32 (a + b)) 0),
    (Z.gtb_spec (int32 (a + b)) 0), (Z.eqb_spec (int32 (a + b)) (a + b)),
    (Z.eqb_spec (int32 (a + b)) 0); cbn [andb orb negb];
    try reflexivity; lia.
Qed.

Lemma subOverflow_cases (a b : Z) :
  - 2 ^ 31 <= a < 2 ^ 31 -> - 2 ^ 31 <= b < 2 ^ 31 ->
  specSubOverflow a b (int32 (a - b))
  = negb (int32 (a - b) =? a - b) && negb (a =? 0).
Proof.
  intros Ha Hb. unfold specSubOverflow.
  destruct (int32_cases (a - b)) as (Hr & Hc);
    [change (2 ^ 31) with 2147483648 in *;
     change (2 ^ 32) with 4294967296; lia|].
  change (2 ^ 31) with 2147483648 in *.
  change (2 ^ 32) with 4294967296 in *.
  destruct (Z.gtb_spec a 0), (Z.gtb_spec b 0), (Z.ltb_spec a 0),
    (Z.ltb_spec b 0), (Z.ltb_spec (int32 (a - b)) 0),
    (Z.gtb_spec (int32 (a - b)) 0), (Z.eqb_spec (int32 (a - b)) (a - b)),
    (Z.eqb_spec a 0); cbn [andb orb negb];
    try reflexivity; lia.
Qed.

(** [ADDR] and [SUBR] on two valid registers holding [int32] values [a] and
    [b].  The destination receives the wrapped result [r]; sign and zero
    flags are those of [r].  After [ADDR] the carry flag is the sign flag,
    and the overflow flag reports a wrapped sum unless that sum wrapped to 0
    (both operands [-2^31]).  After [SUBR] the carry flag is the unsigned
    borrow, and the overflow flag reports a wrapped difference unless the
    first operand is 0 (the case [0 - (-2^31)]).  The memory and the
    instruction pointer are not touched. *)
Theorem register_arithmetic_flags (c : CommandData) (p : Processor) :
  let regDest := uint8 (Z.land (Address1 c) 7) in
  let regSrc := uint8 (Z.land (Address2 c) 7) in
  let a := nth (Z.to_nat regDest) (registers p) 0 in
  let b := nth (Z.to_nat regSrc) (registers p) 0 in
  List.length (registers p) = 2%nat ->
  regDest < NUM_REGISTERS -> regSrc < NUM_REGISTERS ->
  - 2 ^ 31 <= a < 2 ^ 31 -> - 2 ^ 31 <= b < 2 ^ 31 ->
  (exists p',
     let r := int32 (a + b) in
     AddRegisters_Execute c p = Ret tt p' /\
     nth (Z.to_nat regDest) (registers p') 0 = r /\
     memory p' = memory p /\
     psw p' = mkPSW (IP (psw p)) (r <? 0) (r <? 0)
                    (negb (r =? a + b) && negb (r =? 0)) (r =? 0)) /\
  (exists p',
     let r := int32 (a - b) in
     SubtractRegisters_Execute c p = Ret tt p' /\
     nth (Z.to_nat regDest) (registers p') 0 = r /\
     memory p' = memory p /\
     psw p' = mkPSW (IP (psw p)) (r <? 0) (uint32 a <? uint32 b)
                    (negb (r =? a - b) && negb (a =? 0)) (r =? 0)).
Proof.
  cbv zeta. intros Hlen Hd Hs Ha Hb.
  assert (Hd0 : 0 <= uint8 (Z.land (Address1 c) 7)) by apply uint8_range.
  unfold NUM_REGISTERS in *.
  split.
  - rewrite (AddRegisters_Execute_flags c p Hd Hs).
    eexists. split; [reflexivity|].
    rewrite UpdateArithmeticFlags_psw.
    split; [|split; [reflexivity|]].
    + change (registers (Processor_UpdateArithmeticFlags _ _ _ ?q))
        with (registers q).
      cbn [registers set_registers]. rewrite nth_store by lia.
      rewrite Nat.eqb_refl. reflexivity.
    + rewrite addCarry_is_sign, addOverflow_cases by assumption.
      reflexivity.
  - rewrite (SubtractRegisters_Execute_flags c p Hd Hs).
    eexists. split; [reflexivity|].
    rewrite UpdateArithmeticFlags_psw.
    split; [|split; [reflexivity|]].
    + change (registers (Processor_UpdateArithmeticFlags _ _ _ ?q))
        with (registers q).
      cbn [registers set_registers]. rewrite nth_store by lia.
      rewrite Nat.eqb_refl. reflexivity.
    + rewrite subOverflow_cases by assumption. reflexivity.
Qed.

Lemma register_arithmetic_flags_witness :
  let c := mkCommandData ADDR 0 1 1 in
  let p := extremeProcessor in
  let regDest := uint8 (Z.land (Address1 c) 7) in
  let regSrc := uint8 (Z.land (Address2 c) 7) in
  let a := nth (Z.to_nat regDest) (registers p) 0 in
  let b := nth (Z.to_nat regSrc) (registers p) 0 in
  (List.length (registers p) = 2%nat /\
   regDest < NUM_REGISTERS /\ regSrc < NUM_REGISTERS /\
   - 2 ^ 31 <= a < 2 ^ 31 /\ - 2 ^ 31 <= b < 2 ^ 31) /\
  (exists p',
     let r := int32 (a + b) in
     AddRegisters_Execute c p = Ret tt p' /\
     nth (Z.to_nat regDest) (registers p') 0 = r /\
     memory p' = memory p /\
     psw p' = mkPSW (IP (psw p)) (r <? 0) (r <? 0)
                    (negb (r =? a + b) && negb (r =? 0)) (r =? 0)) /\
  (exists p',
     let r := int32 (a - b) in
     SubtractRegisters_Execute c p = Ret tt p' /\
     nth (Z.to_nat regDest) (registers p') 0 = r /\
     memory p' = memory p /\
     psw p' = mkPSW (IP (psw p)) (r <? 0) (uint32 a <? uint32 b)
                    (negb (r =? a - b) && negb (a =? 0)) (r =? 0)).
Proof.
  cbv zeta. split.
  - vm_compute. repeat split; congruence.
  - apply (register_arithmetic_flags (mkCommandData ADDR 0 1 1)
             extremeProcessor);
      vm_compute; try reflexivity; split; congruence.
Defined.
